(** * ingest_papers.py: metadata extraction for academic PDFs

    A shallow embedding of [src/ingest_papers.py] and the properties of its
    extraction logic.

    Conventions of the embedding.
    - Python [str] values are lists of characters ([str := list ascii]); a
      character is a code point in U+0000..U+00FF and the character classes
      of Python ([str.isspace], the [re] classes [\s], [\d], [\w], line
      boundaries of [str.splitlines], [str.lower]) are given exactly on that
      range.
    - [Optional[T]] is [option T]; a Python exception is a [Raise] in the
      [result] type, so that a function that can raise returns [result T].
    - The metadata record is a Python [dict]: a [gmap string value].
    - The collaborators that are not code of this repository (the PDF
      decoder, the HTTP service, the XML parser, the database) appear
      through their outcomes: what the call returned or which exception it
      raised. Standard output takes every string. *)

From Stdlib Require Import ZArith NArith Ascii String List Bool Lia.
From stdpp Require Import base option list sorting gmap strings.

Local Open Scope Z_scope.

(* ================================================================== *)
(** * Exceptions and fallible computations *)

Inductive exn :=
  | PdfReadError        (* PyPDF2.errors.PdfReadError *)
  | OSError             (* FileNotFoundError, PermissionError, ... *)
  | RequestException    (* requests.RequestException (connection, timeout) *)
  | HTTPError           (* requests.HTTPError, a RequestException *)
  | ParseError          (* xml.etree.ElementTree.ParseError *)
  | ValueError
  | IndexError
  | OtherError.

Inductive result (A : Type) :=
  | Ok (a : A)
  | Raise (e : exn).
Arguments Ok {A} a.
Arguments Raise {A} e.

Definition bind {A B} (r : result A) (f : A -> result B) : result B :=
  match r with
  | Ok a => f a
  | Raise e => Raise e
  end.

Notation "x <-- r ;;; k" := (bind r (fun x => k))
  (at level 100, r at next level, right associativity).

(** [isinstance(e, requests.RequestException)] *)
Definition is_RequestException (e : exn) : bool :=
  match e with
  | RequestException | HTTPError => true
  | _ => false
  end.

(** [isinstance(e, PdfReadError)] *)
Definition is_PdfReadError (e : exn) : bool :=
  match e with
  | PdfReadError => true
  | _ => false
  end.

(* ================================================================== *)
(** * Python strings *)

Definition str := list ascii.

(** A literal of the source text. *)
Definition py (s : string) : str := list_ascii_of_string s.

Module Py.

Definition code (c : ascii) : N := N_of_ascii c.

Definition in_range (lo hi : N) (c : ascii) : bool :=
  ((lo <=? code c) && (code c <=? hi))%N.

(** [str.isspace] and the [re] class [\s]: TAB..CR, FS..US, SPACE, NEL,
    NBSP. *)
Definition isspace (c : ascii) : bool :=
  in_range 9 13 c || in_range 28 32 c || in_range 133 133 c
  || in_range 160 160 c.

(** The [re] class [\d]: decimal digits. *)
Definition isdigit (c : ascii) : bool := in_range 48 57 c.

(** [str.isalnum] on one character or the underscore: the [re] class
    [\w]. Letters, decimal digits, the superscript digits and the vulgar
    fractions of the range. *)
Definition isword (c : ascii) : bool :=
  in_range 48 57 c || in_range 65 90 c || in_range 97 122 c
  || in_range 95 95 c
  || in_range 170 170 c || in_range 178 179 c || in_range 181 181 c
  || in_range 185 186 c || in_range 188 190 c
  || in_range 192 214 c || in_range 216 246 c || in_range 248 255 c.

(** Line boundaries of [str.splitlines] other than the pair CR LF. *)
Definition islinebreak (c : ascii) : bool :=
  in_range 10 13 c || in_range 28 30 c || in_range 133 133 c.

(** [str.lower] on one character. *)
Definition lower_char (c : ascii) : ascii :=
  if in_range 65 90 c || in_range 192 214 c || in_range 216 222 c
  then ascii_of_N (code c + 32) else c.

Definition lower (s : str) : str := map lower_char s.

Definition eqc (a b : ascii) : bool := Ascii.eqb a b.

Fixpoint eqs (a b : str) : bool :=
  match a, b with
  | [], [] => true
  | x :: a', y :: b' => eqc x y && eqs a' b'
  | _, _ => false
  end.

(** Truth value of a string: non-empty. *)
Definition truthy (s : str) : bool :=
  match s with
  | [] => false
  | _ :: _ => true
  end.

(** Truth value of an [Optional[str]]. *)
Definition otruthy (o : option str) : bool :=
  match o with
  | Some s => truthy s
  | None => false
  end.

(** [a or b] on optional strings. *)
Definition or_else (a b : option str) : option str :=
  if otruthy a then a else b.

Fixpoint lstrip (s : str) : str :=
  match s with
  | [] => []
  | c :: s' => if isspace c then lstrip s' else s
  end.

Definition rstrip (s : str) : str := rev (lstrip (rev s)).

(** [s.strip()] *)
Definition strip (s : str) : str := rstrip (lstrip s).

Definition cons_head (c : ascii) (fs : list str) : list str :=
  match fs with
  | f :: fs' => (c :: f) :: fs'
  | [] => [[c]]
  end.

(** The fields of [s] between the characters that satisfy [sep], empty
    fields included. *)
Fixpoint fields (sep : ascii -> bool) (s : str) : list str :=
  match s with
  | [] => [[]]
  | c :: s' => if sep c then [] :: fields sep s' else cons_head c (fields sep s')
  end.

(** [s.split(c)] for a one-character separator. *)
Definition split_char (c : ascii) (s : str) : list str := fields (eqc c) s.

(** [s.split()]: the maximal runs of characters that are not whitespace. *)
Definition split (s : str) : list str :=
  List.filter truthy (fields isspace s).

(** [sep.join(l)] *)
Fixpoint join (sep : str) (l : list str) : str :=
  match l with
  | [] => []
  | x :: l' =>
      match l' with
      | [] => x
      | _ :: _ => x ++ sep ++ join sep l'
      end
  end.

Fixpoint startswith (p s : str) : bool :=
  match p, s with
  | [], _ => true
  | x :: p', y :: s' => eqc x y && startswith p' s'
  | _ :: _, [] => false
  end.

(** [s.replace(old, new)] for a non-empty [old]: occurrences are found
    from the left and do not overlap. [skip] counts the characters of an
    occurrence that are still to be dropped. *)
Fixpoint replace_go (old new : str) (skip : nat) (s : str) : str :=
  match s with
  | [] => []
  | c :: s' =>
      match skip with
      | S k => replace_go old new k s'
      | O =>
          if startswith old s
          then new ++ replace_go old new (length old - 1) s'
          else c :: replace_go old new 0 s'
      end
  end.

Definition replace (old new : str) (s : str) : str := replace_go old new 0 s.

(** [s.splitlines()]; [cur] is the line being read, reversed. *)
Fixpoint splitlines_go (cur : str) (s : str) : list str :=
  match s with
  | [] => if truthy cur then [rev cur] else []
  | c :: s' =>
      if eqc c "013" then
        match s' with
        | d :: s'' =>
            if eqc d "010" then rev cur :: splitlines_go [] s''
            else rev cur :: splitlines_go [] s'
        | [] => rev cur :: splitlines_go [] s'
        end
      else if islinebreak c then rev cur :: splitlines_go [] s'
      else splitlines_go (c :: cur) s'
  end.

Definition splitlines (s : str) : list str := splitlines_go [] s.

(** [l[:n]] for any integer [n]: a negative [n] counts from the end. *)
Definition slice_to {A} (n : Z) (l : list A) : list A :=
  if 0 <=? n then take (Z.to_nat n) l
  else take (Z.to_nat (Z.of_nat (length l) + n)) l.

Definition digit_value (c : ascii) : Z := Z.of_N (code c) - 48.

(** [int(s)] for a string of decimal digits. *)
Definition int (s : str) : Z :=
  fold_left (fun acc c => 10 * acc + digit_value c) s 0.

(** Lexicographic order by code point: [a < b] on strings. *)
Fixpoint ltb (a b : str) : bool :=
  match a, b with
  | _, [] => false
  | [], _ :: _ => true
  | x :: a', y :: b' =>
      (code x <? code y)%N || ((code x =? code y)%N && ltb a' b')
  end.

Definition leb (a b : str) : bool := negb (ltb b a).

End Py.

(* ================================================================== *)
(** * The [re] module: a backtracking matcher

    Patterns are the fragment of Python's regular expressions that the
    source uses. Alternatives are tried left to right, a greedy repetition
    tries the longest run first and a lazy one the shortest, and [search]
    returns the match at the leftmost start position: the order in which
    Python's engine explores. *)

Module Re.

Inductive re :=
  | Chr (p : ascii -> bool)               (* one character of a class *)
  | Eps                                   (* the empty pattern *)
  | Seq (r1 r2 : re)                      (* r1 r2 *)
  | Alt (r1 r2 : re)                      (* r1|r2 *)
  | Star (greedy : bool) (p : ascii -> bool)  (* c* and c*? on a class *)
  | WordB                                 (* \b *)
  | Group (r : re).                       (* ( r ), capture group 1 *)

(** The matcher's position in the subject: the character before it, the
    text after it, its offset, and the span of group 1 if it is set. *)
Record mstate := MState {
  prev : option ascii;
  rest : str;
  pos : nat;
  grp : option (nat * nat)
}.

Definition is_word_opt (o : option ascii) : bool :=
  match o with
  | Some c => Py.isword c
  | None => false
  end.

(** [\b]: exactly one side of the position is a word character. *)
Definition at_boundary (st : mstate) : bool :=
  xorb (is_word_opt (prev st)) (is_word_opt (head (rest st))).

(** Repetition of a class: [k] is what follows the repetition. *)
Fixpoint star (greedy : bool) (p : ascii -> bool)
    (k : mstate -> option mstate)
    (pv : option ascii) (ps : nat) (g : option (nat * nat)) (s : str)
    : option mstate :=
  let here := MState pv s ps g in
  match s with
  | [] => k here
  | c :: s' =>
      if p c then
        if greedy then
          match star greedy p k (Some c) (S ps) g s' with
          | Some r => Some r
          | None => k here
          end
        else
          match k here with
          | Some r => Some r
          | None => star greedy p k (Some c) (S ps) g s'
          end
      else k here
  end.

Fixpoint rmatch (r : re) (st : mstate) (k : mstate -> option mstate)
    : option mstate :=
  match r with
  | Chr p =>
      match rest st with
      | c :: s' =>
          if p c then k (MState (Some c) s' (S (pos st)) (grp st)) else None
      | [] => None
      end
  | Eps => k st
  | Seq r1 r2 => rmatch r1 st (fun st' => rmatch r2 st' k)
  | Alt r1 r2 =>
      match rmatch r1 st k with
      | Some res => Some res
      | None => rmatch r2 st k
      end
  | Star greedy p => star greedy p k (prev st) (pos st) (grp st) (rest st)
  | WordB => if at_boundary st then k st else None
  | Group r1 =>
      rmatch r1 st
        (fun st' => k (MState (prev st') (rest st') (pos st')
                              (Some (pos st, pos st'))))
  end.

(** A match object: the span of the whole match and of group 1. *)
Record match_obj := MatchObj {
  subject : str;
  m_start : nat;
  m_end : nat;
  m_grp : option (nat * nat)
}.

Definition span (s : str) (a b : nat) : str := take (b - a) (drop a s).

(** [m.group(0)] *)
Definition group0 (m : match_obj) : str :=
  span (subject m) (m_start m) (m_end m).

(** [m.group(1)]; the groups of the source's patterns always take part in
    a match, the empty string stands for an unset group. *)
Definition group1 (m : match_obj) : str :=
  match m_grp m with
  | Some (a, b) => span (subject m) a b
  | None => []
  end.

Fixpoint search_from (r : re) (whole : str) (pv : option ascii) (ps : nat)
    (s : str) : option match_obj :=
  match rmatch r (MState pv s ps None) Some with
  | Some st => Some (MatchObj whole ps (pos st) (grp st))
  | None =>
      match s with
      | c :: s' => search_from r whole (Some c) (S ps) s'
      | [] => None
      end
  end.

(** [re.search(r, s)] *)
Definition search (r : re) (s : str) : option match_obj :=
  search_from r s None 0%nat s.

(** ** Building patterns *)

Definition any_char : ascii -> bool := fun _ => true.
(** [.] without DOTALL *)
Definition dot : ascii -> bool := fun c => negb (Py.eqc c "010").
Definition exactly (c : ascii) : ascii -> bool := Py.eqc c.
(** A letter under IGNORECASE. *)
Definition isi (c : ascii) : ascii -> bool :=
  fun x => Py.eqc (Py.lower_char x) (Py.lower_char c).
(** [[:\-]] *)
Definition colon_dash : ascii -> bool :=
  fun c => Py.eqc c ":" || Py.eqc c "-".

Fixpoint seqs (l : list re) : re :=
  match l with
  | [] => Eps
  | [r] => r
  | r :: l' => Seq r (seqs l')
  end.

(** A literal word, and the same under IGNORECASE. *)
Definition lit (s : string) : re := seqs (map (fun c => Chr (exactly c)) (py s)).
Definition liti (s : string) : re := seqs (map (fun c => Chr (isi c)) (py s)).

(** [r?] *)
Definition opt (r : re) : re := Alt r Eps.
(** [c+] and [c+?] on a class *)
Definition plus (greedy : bool) (p : ascii -> bool) : re :=
  Seq (Chr p) (Star greedy p).

Definition digit : re := Chr Py.isdigit.
Definition spaces : re := Star true Py.isspace.

End Re.

(* ================================================================== *)
(** * [datetime.date] *)

Record date := Date { date_year : Z; date_month : Z; date_day : Z }.

Definition is_leap (y : Z) : bool :=
  (y mod 4 =? 0) && (negb (y mod 100 =? 0) || (y mod 400 =? 0)).

Definition days_in_month (y m : Z) : Z :=
  if m =? 2 then (if is_leap y then 29 else 28)
  else if (m =? 4) || (m =? 6) || (m =? 9) || (m =? 11) then 30
  else 31.

(** [date(y, m, d)]: [ValueError] outside the calendar. *)
Definition mk_date (y m d : Z) : result date :=
  if (1 <=? y) && (y <=? 9999) && (1 <=? m) && (m <=? 12)
     && (1 <=? d) && (d <=? days_in_month y m)
  then Ok (Date y m d)
  else Raise ValueError.

(** [date.fromisoformat(s)] on the extended format [YYYY-MM-DD], the only
    shape the source passes to it. *)
Definition fromisoformat (s : str) : result date :=
  match Py.split_char "-" s with
  | [y; m; d] =>
      if (length y =? 4)%nat && (length m =? 2)%nat && (length d =? 2)%nat
         && forallb Py.isdigit (y ++ m ++ d)
      then mk_date (Py.int y) (Py.int m) (Py.int d)
      else Raise ValueError
  | _ => Raise ValueError
  end.

(* ================================================================== *)
(** * Values of the metadata dict *)

Inductive value :=
  | VNone
  | VStr (s : str)
  | VInt (n : Z)
  | VDate (d : date)
  | VList (l : list str).

Definition of_opt_str (o : option str) : value :=
  match o with
  | Some s => VStr s
  | None => VNone
  end.

Definition of_opt_int (o : option Z) : value :=
  match o with
  | Some n => VInt n
  | None => VNone
  end.

Definition of_opt_date (o : option date) : value :=
  match o with
  | Some d => VDate d
  | None => VNone
  end.

(** [l or None] on a list of strings. *)
Definition list_or_none (l : list str) : value :=
  match l with
  | [] => VNone
  | _ :: _ => VList l
  end.

(** Truth value of a dict: it has a key. *)
Definition dict_truthy (m : gmap string value) : bool :=
  negb (bool_decide (m = ∅)).

(** Truth value of an [Optional[int]]. *)
Definition int_truthy (o : option Z) : bool :=
  match o with
  | Some n => negb (n =? 0)
  | None => false
  end.

(** [sorted(set(l))] on strings: the distinct elements in increasing
    order. *)
Definition str_le : relation str := fun a b => Py.leb a b = true.

#[global] Instance str_le_dec : RelDecision str_le.
Proof. intros a b. unfold str_le. apply _. Defined.

Definition sorted_set (l : list str) : list str :=
  merge_sort str_le (remove_dups l).

(* ================================================================== *)
(** * [xml.etree.ElementTree] *)

Module ET.

#[local] Set Warnings "-register-all".

Inductive Element :=
  Elem (tag : string) (attrib : gmap string str)
       (text : option str) (tail : option str)
       (children : list Element).

Definition tag (e : Element) : string :=
  match e with Elem t _ _ _ _ => t end.
Definition attrib (e : Element) : gmap string str :=
  match e with Elem _ a _ _ _ => a end.
Definition text (e : Element) : option str :=
  match e with Elem _ _ t _ _ => t end.
Definition tail (e : Element) : option str :=
  match e with Elem _ _ _ t _ => t end.
Definition children (e : Element) : list Element :=
  match e with Elem _ _ _ _ cs => cs end.

(** [e.attrib.get(name)] *)
Definition get (e : Element) (name : string) : option str :=
  attrib e !! name.

(** [e.iter()]: the element and its descendants in document order. *)
Fixpoint iter (e : Element) : list Element :=
  match e with
  | Elem _ _ _ _ cs => e :: flat_map iter cs
  end.

Definition truthy_list (o : option str) : list str :=
  match o with
  | Some s => if Py.truthy s then [s] else []
  | None => []
  end.

(** [e.itertext()]: the text of the element, then for each child its
    inner text followed by its tail. *)
Fixpoint itertext (e : Element) : list str :=
  match e with
  | Elem _ _ t _ cs =>
      truthy_list t
      ++ flat_map (fun c => itertext c ++ truthy_list (tail c)) cs
  end.

(** One step of a path: [/tag], [/tag[@attr='v']] and [//tag]. *)
Inductive step :=
  | Child (t : string)
  | ChildAttr (t : string) (attr : string) (v : str)
  | Desc (t : string).

Definition has_tag (t : string) (e : Element) : bool :=
  String.eqb (tag e) t.

Definition has_attr (attr : string) (v : str) (e : Element) : bool :=
  match get e attr with
  | Some x => Py.eqs x v
  | None => false
  end.

Definition select (s : step) (context : list Element) : list Element :=
  match s with
  | Child t =>
      flat_map (fun e => List.filter (has_tag t) (children e)) context
  | ChildAttr t attr v =>
      flat_map
        (fun e => List.filter (fun c => has_tag t c && has_attr attr v c)
                              (children e))
        context
  | Desc t =>
      flat_map (fun e => List.filter (has_tag t) (flat_map iter (children e)))
               context
  end.

(** [e.findall(path)] for a path that starts at [e] ([.]). *)
Definition findall (e : Element) (path : list step) : list Element :=
  fold_left (fun context s => select s context) path [e].

(** [e.find(path)] *)
Definition find (e : Element) (path : list step) : option Element :=
  head (findall e path).

(** [e.findtext(path)]: the text of the first match, the empty string
    when that element has no text, [None] when nothing matches. *)
Definition findtext (e : Element) (path : list step) : option str :=
  match find e path with
  | Some el =>
      match text el with
      | Some t => Some t
      | None => Some []
      end
  | None => None
  end.

End ET.

(** A tag in the TEI namespace, [tei:name] under
    [ns = {"tei": "http://www.tei-c.org/ns/1.0"}]. *)
Definition tei (name : string) : string :=
  String.append "{http://www.tei-c.org/ns/1.0}" name.

(* ================================================================== *)
(** * The source: text and date helpers *)

(** [x or ""] *)
Definition or_empty (o : option str) : str :=
  match o with
  | Some s => s
  | None => []
  end.

(** The PDF decoder as the source sees it: [page.extract_text()] returns a
    string or [None] or raises; [reader.pages] is a list of pages or raises;
    [PdfReader(str(pdf_path))] returns a reader or raises. *)
Inductive page := Page (extract_text : result (option str)).
Inductive pdf_reader := Reader (pages : result (list page)).

(** The body of the loop over the pages, lines 31-34. *)
Fixpoint text_chunks (ps : list page) : result (list str) :=
  match ps with
  | [] => Ok []
  | Page extract_text :: ps' =>
      t <-- extract_text ;;;
      let page_text := or_empty t in
      chunks <-- text_chunks ps' ;;;
      Ok (if Py.truthy page_text then page_text :: chunks else chunks)
  end.

Definition extract_text_from_pdf (opened : result pdf_reader) (max_pages : Z)
    : result str :=
  match opened with
  | Raise e => if is_PdfReadError e then Ok [] else Raise e
  | Ok (Reader pages) =>
      ps <-- pages ;;;
      chunks <-- text_chunks (Py.slice_to max_pages ps) ;;;
      Ok (Py.join (py (String "010" "")) chunks)
  end.

Definition normalize_whitespace (value : option str) : option str :=
  match value with
  | None => None
  | Some v =>
      if negb (Py.truthy v) then None
      else
        let r := Py.strip (Py.join (py " ") (Py.split v)) in
        if Py.truthy r then Some r else None
  end.

Definition element_text (element : option ET.Element) : option str :=
  match element with
  | None => None
  | Some e => normalize_whitespace (Some (Py.join (py " ") (ET.itertext e)))
  end.

(** [[el.text for el in els if el.text]] *)
Definition truthy_texts (els : list ET.Element) : list str :=
  flat_map (fun el => ET.truthy_list (ET.text el)) els.

Definition parse_grobid_author (author_el : ET.Element) : option str :=
  let surname := or_empty (ET.findtext author_el [ET.Desc (tei "surname")]) in
  let forenames := ET.findall author_el [ET.Desc (tei "forename")] in
  let forename :=
    match forenames with
    | [] => []
    | _ :: _ => Py.join (py " ") (truthy_texts forenames)
    end in
  let full_name :=
    Py.strip (Py.join (py " ")
                (List.filter Py.truthy [forename; surname])) in
  if Py.truthy full_name then Some full_name else None.

(** The year alternatives [(19|20)] followed by two digits. *)
Definition year_digits : list Re.re :=
  [Re.Alt (Re.lit "19") (Re.lit "20"); Re.digit; Re.digit].

Definition dash : Re.re := Re.Chr (Re.exactly "-").

(** [\b(19|20)\d{2}-\d{2}-\d{2}\b] *)
Definition iso_date_re : Re.re :=
  Re.seqs ([Re.WordB] ++ year_digits
           ++ [dash; Re.digit; Re.digit; dash; Re.digit; Re.digit; Re.WordB]).

(** [\b(19|20)\d{2}-\d{2}\b] *)
Definition year_month_re : Re.re :=
  Re.seqs ([Re.WordB] ++ year_digits ++ [dash; Re.digit; Re.digit; Re.WordB]).

(** [\b(19|20)\d{2}\b] *)
Definition year_re : Re.re :=
  Re.seqs ([Re.WordB] ++ year_digits ++ [Re.WordB]).

Definition parse_publication_date (value : option str) : result (option date) :=
  if negb (Py.otruthy value) then Ok None
  else
    let value := Py.strip (or_empty value) in
    match Re.search iso_date_re value with
    | Some m => d <-- fromisoformat (Re.group0 m) ;;; Ok (Some d)
    | None =>
        match Re.search year_month_re value with
        | Some m =>
            match Py.split_char "-" (Re.group0 m) with
            | [year; month] =>
                d <-- mk_date (Py.int year) (Py.int month) 1 ;;; Ok (Some d)
            | _ => Raise ValueError
            end
        | None =>
            match Re.search year_re value with
            | Some m =>
                d <-- mk_date (Py.int (Re.group0 m)) 1 1 ;;; Ok (Some d)
            | None => Ok None
            end
        end
    end.

Definition extract_year (text : str) : option Z :=
  match Re.search year_re text with
  | Some m => Some (Py.int (Re.group0 m))
  | None => None
  end.

(* ================================================================== *)
(** * The source: the structured-service extractor *)

(** The closed set of document types, line 97. *)
Definition document_types : list str :=
  [py "article"; py "review"; py "book"; py "chapter"; py "conference";
   py "preprint"].

(** Lines 90-92: the first classification code that has text. *)
Fixpoint first_class_code (codes : list ET.Element) : option (option str) :=
  match codes with
  | [] => None
  | class_code :: codes' =>
      if Py.otruthy (ET.text class_code)
      then Some (normalize_whitespace (ET.text class_code))
      else first_class_code codes'
  end.

(** Lines 94-98: the first keyword term of at most four words in the closed
    set. *)
Fixpoint first_type_term (terms : list ET.Element) : option str :=
  match terms with
  | [] => None
  | term :: terms' =>
      let t := or_empty (ET.text term) in
      if Py.otruthy (ET.text term) && (length (Py.split t) <=? 4)%nat then
        let candidate := Py.lower (Py.strip t) in
        if existsb (Py.eqs candidate) document_types then Some candidate
        else first_type_term terms'
      else first_type_term terms'
  end.

Definition extract_document_type (root : ET.Element) : option str :=
  let bibl_type :=
    match ET.find root [ET.Desc (tei "biblStruct")] with
    | Some bibl_struct => ET.get bibl_struct "type"
    | None => None
    end in
  if Py.otruthy bibl_type then normalize_whitespace bibl_type
  else
    match first_class_code
            (ET.findall root [ET.Desc (tei "textClass");
                              ET.Desc (tei "classCode")]) with
    | Some r => r
    | None =>
        first_type_term
          (ET.findall root [ET.Desc (tei "textClass");
                            ET.Desc (tei "keywords"); ET.Desc (tei "term")])
    end.

(** [[x for x in l if x]] on optional strings. *)
Definition truthy_values (l : list (option str)) : list str :=
  flat_map ET.truthy_list l.

(** Lines 105-115: what one affiliation node appends, if anything. *)
Definition affiliation_entry (aff : ET.Element) : list (option str) :=
  let org_parts :=
    truthy_values
      (map (fun org => element_text (Some org))
           (ET.findall aff [ET.Desc (tei "orgName")])) in
  let address := ET.find aff [ET.Desc (tei "address")] in
  let parts := org_parts ++ ET.truthy_list (element_text address) in
  match parts with
  | [] => []
  | _ :: _ => [normalize_whitespace (Some (Py.join (py ", ") parts))]
  end.

Definition extract_affiliations (author_el : ET.Element) : list str :=
  let affiliations :=
    flat_map affiliation_entry
             (ET.findall author_el [ET.Desc (tei "affiliation")]) in
  truthy_values affiliations.

Definition extract_countries (author_el : ET.Element) : list str :=
  truthy_values
    (map (fun country_el => normalize_whitespace (ET.text country_el))
         (ET.findall author_el
            [ET.Desc (tei "affiliation"); ET.Desc (tei "address");
             ET.Desc (tei "country")])).

(** The three lists that the loops over author nodes build, lines 151-167. *)
Record author_lists := AuthorLists {
  al_authors : list str;
  al_affiliations : list str;
  al_countries : list str
}.

(** One pass over author nodes: each node appends its name, if it has one,
    and extends the affiliations and the countries. *)
Fixpoint author_loop (els : list ET.Element) (acc : author_lists)
    : author_lists :=
  match els with
  | [] => acc
  | author_el :: els' =>
      let authors :=
        match parse_grobid_author author_el with
        | Some author_name => al_authors acc ++ [author_name]
        | None => al_authors acc
        end in
      author_loop els'
        (AuthorLists authors
           (al_affiliations acc ++ extract_affiliations author_el)
           (al_countries acc ++ extract_countries author_el))
  end.

Definition collect_authors (root : ET.Element) : author_lists :=
  let acc :=
    author_loop
      (ET.findall root [ET.Desc (tei "sourceDesc"); ET.Desc (tei "author")])
      (AuthorLists [] [] []) in
  match al_authors acc with
  | [] =>
      author_loop
        (ET.findall root [ET.Desc (tei "titleStmt"); ET.Desc (tei "author")])
        acc
  | _ :: _ => acc
  end.

(** Lines 169-173. *)
Definition collect_keywords (root : ET.Element) : list str :=
  flat_map
    (fun term =>
       let t := or_empty (ET.text term) in
       if Py.otruthy (ET.text term) && Py.truthy (Py.strip t)
       then [Py.strip t] else [])
    (ET.findall root [ET.Desc (tei "keywords"); ET.Desc (tei "term")]).

(** The string a date node offers to the date parser:
    [date_el.attrib.get("when") or date_el.text]. *)
Definition date_source (date_el : ET.Element) : option str :=
  Py.or_else (ET.get date_el "when") (ET.text date_el).

(** Lines 177-190: the loop over the publication-statement date nodes, on
    the variables [year] and [publication_date]. Returning is [break]. *)
Fixpoint publication_stmt_loop (dates : list ET.Element)
    (year : option Z) (publication_date : option date)
    : result (option Z * option date) :=
  match dates with
  | [] => Ok (year, publication_date)
  | date_el :: dates' =>
      publication_date <-- parse_publication_date (date_source date_el) ;;;
      match publication_date with
      | Some d => Ok (Some (date_year d), Some d)
      | None =>
          let year :=
            if Py.otruthy (ET.text date_el)
            then extract_year (or_empty (ET.text date_el)) else year in
          if Py.otruthy (ET.text date_el) && int_truthy year
          then Ok (year, None)
          else
            let when_attr := ET.get date_el "when" in
            let year :=
              if Py.otruthy when_attr
              then extract_year (or_empty when_attr) else year in
            if Py.otruthy when_attr && int_truthy year
            then Ok (year, None)
            else publication_stmt_loop dates' year None
      end
  end.

(** Lines 193-197: the loop over the imprint date nodes. *)
Fixpoint imprint_loop (dates : list ET.Element)
    (year : option Z) (publication_date : option date)
    : result (option Z * option date) :=
  match dates with
  | [] => Ok (year, publication_date)
  | date_el :: dates' =>
      publication_date <-- parse_publication_date (date_source date_el) ;;;
      match publication_date with
      | Some d => Ok (Some (date_year d), Some d)
      | None => imprint_loop dates' year None
      end
  end.

Definition publication_stmt_dates (root : ET.Element) : list ET.Element :=
  ET.findall root [ET.Desc (tei "publicationStmt"); ET.Desc (tei "date")].

Definition imprint_dates (root : ET.Element) : list ET.Element :=
  ET.findall root [ET.Desc (tei "imprint"); ET.Desc (tei "date")].

(** Lines 175-197. *)
Definition extract_dates (root : ET.Element)
    : result (option Z * option date) :=
  r <-- publication_stmt_loop (publication_stmt_dates root) None None ;;;
  match snd r with
  | Some _ => Ok r
  | None => imprint_loop (imprint_dates root) (fst r) None
  end.

(** The record built from a parsed response, lines 147-223. *)
Definition grobid_record (root : ET.Element) : result (gmap string value) :=
  let title :=
    ET.findtext root [ET.Desc (tei "titleStmt"); ET.Child (tei "title")] in
  let document_type := extract_document_type root in
  let lists := collect_authors root in
  let keywords := collect_keywords root in
  dates <-- extract_dates root ;;;
  let year := fst dates in
  let publication_date := snd dates in
  let journal_title :=
    ET.findtext root
      [ET.Desc (tei "monogr"); ET.ChildAttr (tei "title") "level" (py "j")] in
  let book_title :=
    ET.findtext root
      [ET.Desc (tei "monogr"); ET.ChildAttr (tei "title") "level" (py "m")] in
  let book_title :=
    if negb (Py.otruthy journal_title) && negb (Py.otruthy book_title)
    then ET.findtext root [ET.Desc (tei "monogr"); ET.Child (tei "title")]
    else book_title in
  let publisher :=
    ET.findtext root
      [ET.Desc (tei "publicationStmt"); ET.Child (tei "publisher")] in
  let publisher :=
    if negb (Py.otruthy publisher)
    then ET.findtext root
           [ET.Desc (tei "monogr"); ET.Child (tei "imprint");
            ET.Child (tei "publisher")]
    else publisher in
  let abstract :=
    element_text
      (ET.find root [ET.Desc (tei "profileDesc"); ET.Child (tei "abstract")]) in
  Ok (<["title" := of_opt_str title]>
      (<["document_type" := of_opt_str document_type]>
      (<["publication_date" := of_opt_date publication_date]>
      (<["journal_title" := of_opt_str journal_title]>
      (<["book_title" := of_opt_str book_title]>
      (<["publisher" := of_opt_str publisher]>
      (<["authors" := list_or_none (al_authors lists)]>
      (<["affiliations" := list_or_none (sorted_set (al_affiliations lists))]>
      (<["countries" := list_or_none (sorted_set (al_countries lists))]>
      (<["abstract" := of_opt_str abstract]>
      (<["year" := of_opt_int year]>
      (<["keywords" := list_or_none keywords]> ∅)))))))))))).

(** What [requests.get] and [requests.post] (with the opening of the file
    around it) come to: a response with its status code and body, or an
    exception. *)
Inductive http_outcome :=
  | Response (status_code : Z) (text : str)
  | HttpRaises (e : exn).

(** [response.raise_for_status()] raises [HTTPError] on 4xx and 5xx. *)
Definition raises_for_status (status_code : Z) : bool :=
  (400 <=? status_code) && (status_code <? 600).

Definition grobid_is_available (probe : http_outcome) : result bool :=
  match probe with
  | Response status_code _ => Ok (negb (raises_for_status status_code))
  | HttpRaises e => if is_RequestException e then Ok false else Raise e
  end.

Section Service.

(** [ElementTree.fromstring]: the root of the parsed document, or [None]
    for the [ParseError] it raises on text that is not well-formed. *)
Variable fromstring : str -> option ET.Element.

Definition extract_metadata_grobid (posted : http_outcome)
    : result (option (gmap string value)) :=
  match posted with
  | HttpRaises e => if is_RequestException e then Ok None else Raise e
  | Response status_code text =>
      if raises_for_status status_code then Ok None
      else
        match fromstring text with
        | None => Ok None
        | Some root => m <-- grobid_record root ;;; Ok (Some m)
        end
  end.

End Service.

(* ================================================================== *)
(** * The source: the heuristic text extractor *)

Definition split_authors (authors_line : str) : list str :=
  let normalized :=
    Py.replace (py ";") (py ",") (Py.replace (py " and ") (py ",") authors_line) in
  let parts := map Py.strip (Py.split_char "," normalized) in
  List.filter Py.truthy parts.

Definition split_keywords (keywords_line : str) : list str :=
  let normalized := Py.replace (py ";") (py ",") keywords_line in
  let parts := map Py.strip (Py.split_char "," normalized) in
  List.filter Py.truthy parts.

(** [\s*[:\-]\s*(.+)], the tail of the two label patterns. *)
Definition label_tail : list Re.re :=
  [Re.spaces; Re.Chr Re.colon_dash; Re.spaces; Re.Group (Re.plus true Re.dot)].

(** [(?:Keywords?|Index Terms?)\s*[:\-]\s*(.+)] under IGNORECASE *)
Definition keywords_re : Re.re :=
  Re.seqs
    (Re.Alt (Re.Seq (Re.liti "Keyword") (Re.opt (Re.Chr (Re.isi "s"))))
            (Re.Seq (Re.liti "Index Term") (Re.opt (Re.Chr (Re.isi "s"))))
     :: label_tail).

(** [Authors?\s*[:\-]\s*(.+)] under IGNORECASE *)
Definition authors_re : Re.re :=
  Re.seqs ([Re.liti "Author"; Re.opt (Re.Chr (Re.isi "s"))] ++ label_tail).

(** [\bAbstract\b\s*[:\-]?\s*(.+?)(?:\n\s*\n|\bIntroduction\b|\bKeywords\b)]
    under IGNORECASE and DOTALL *)
Definition abstract_re : Re.re :=
  Re.seqs
    [Re.WordB; Re.liti "Abstract"; Re.WordB; Re.spaces;
     Re.opt (Re.Chr Re.colon_dash); Re.spaces;
     Re.Group (Re.plus false Re.any_char);
     Re.Alt (Re.seqs [Re.Chr (Re.exactly "010"); Re.spaces;
                      Re.Chr (Re.exactly "010")])
       (Re.Alt (Re.seqs [Re.WordB; Re.liti "Introduction"; Re.WordB])
               (Re.seqs [Re.WordB; Re.liti "Keywords"; Re.WordB]))].

Definition extract_keywords (text : str) : result (list str) :=
  match Re.search keywords_re text with
  | None => Ok []
  | Some m =>
      match Py.splitlines (Re.group1 m) with
      | line :: _ => Ok (split_keywords line)
      | [] => Raise IndexError
      end
  end.

(** Lines 258-261: the first of the given lines that carries the label. *)
Fixpoint labelled_authors (lines : list str) : option (list str) :=
  match lines with
  | [] => None
  | line :: lines' =>
      match Re.search authors_re line with
      | Some m => Some (split_authors (Re.group1 m))
      | None => labelled_authors lines'
      end
  end.

Definition extract_authors (lines : list str) : list str :=
  match labelled_authors (take 5 lines) with
  | Some authors => authors
  | None =>
      match lines !! 1%nat with
      | Some second =>
          if (length second <=? 120)%nat then split_authors second else []
      | None => []
      end
  end.

Definition extract_title (lines : list str) : option str :=
  match lines with
  | [] => None
  | first :: _ => Some first
  end.

Definition extract_abstract (text : str) : option str :=
  match Re.search abstract_re text with
  | None => None
  | Some m => normalize_whitespace (Some (Re.group1 m))
  end.

(** [text[:500].strip() if text else None] *)
Definition snippet (text : str) : option str :=
  if Py.truthy text then Some (Py.strip (take 500 text)) else None.

Definition extract_metadata (text : str) : result (gmap string value) :=
  let lines :=
    map Py.strip
        (List.filter (fun line => Py.truthy (Py.strip line))
                     (Py.splitlines text)) in
  let title := extract_title lines in
  let authors := extract_authors lines in
  let year := extract_year text in
  keywords <-- extract_keywords text ;;;
  let abstract := extract_abstract text in
  let raw_text_snippet := snippet text in
  Ok (<["title" := of_opt_str title]>
      (<["document_type" := VNone]>
      (<["publication_date" := VNone]>
      (<["journal_title" := VNone]>
      (<["book_title" := VNone]>
      (<["publisher" := VNone]>
      (<["authors" := list_or_none authors]>
      (<["affiliations" := VNone]>
      (<["countries" := VNone]>
      (<["abstract" := of_opt_str abstract]>
      (<["year" := of_opt_int year]>
      (<["keywords" := list_or_none keywords]>
      (<["raw_text_snippet" := of_opt_str raw_text_snippet]> ∅))))))))))))).

(* ================================================================== *)
(** * The source: the selector in [main] *)

(** Which extractor produced the record that is written. *)
Inductive extractor := Structured | Heuristic.

(** Lines 395-397. The probe is sent only when the flag leaves the service
    enabled. *)
Definition use_grobid (no_grobid : bool) (probe : http_outcome) : result bool :=
  if negb no_grobid then grobid_is_available probe else Ok false.

(** Truth value of the [Optional[Dict]] that line 405 tests. *)
Definition metadata_truthy (metadata : option (gmap string value)) : bool :=
  match metadata with
  | Some m => dict_truthy m
  | None => false
  end.

Section Main.

Variable fromstring : str -> option ET.Element.

(** Lines 402-406: the record before the snippet is attached, and the
    extractor it came from. *)
Definition select_metadata (use_grobid : bool) (text : str)
    (posted : http_outcome) : result (extractor * gmap string value) :=
  metadata <--
    (if use_grobid then extract_metadata_grobid fromstring posted
     else Ok None) ;;;
  if negb (metadata_truthy metadata)
  then m <-- extract_metadata text ;;; Ok (Heuristic, m)
  else
    match metadata with
    | Some m => Ok (Structured, m)
    | None => m <-- extract_metadata text ;;; Ok (Heuristic, m)
    end.

(** Line 407. *)
Definition attach_snippet (text : str) (metadata : gmap string value)
    : gmap string value :=
  <["raw_text_snippet" := of_opt_str (snippet text)]> metadata.

(** The body of the loop of [main] for one file, lines 401-407: the
    record handed to the writer. *)
Definition process_document (use_grobid : bool) (opened : result pdf_reader)
    (posted : http_outcome) : result (extractor * gmap string value) :=
  text <-- extract_text_from_pdf opened 2 ;;;
  selected <-- select_metadata use_grobid text posted ;;;
  Ok (fst selected, attach_snippet text (snd selected)).

End Main.

(* ================================================================== *)
(** * The spec's reading of the author split, for comparison *)

(** The separators that the source splits an author line on, read left to
    right: a comma, a semicolon, or the five characters [" and "] in lower
    case. [skip] counts the characters of a separator still to be passed. *)
Fixpoint separator_fields (skip : nat) (s : str) : list str :=
  match s with
  | [] => [[]]
  | c :: s' =>
      match skip with
      | S k => separator_fields k s'
      | O =>
          if Py.startswith (py " and ") s then [] :: separator_fields 4 s'
          else if Py.eqc c "," || Py.eqc c ";" then [] :: separator_fields 0 s'
          else Py.cons_head c (separator_fields 0 s')
      end
  end.

(** Split on the separators, trim each part, drop the empty ones. *)
Definition split_on_separators (line : str) : list str :=
  List.filter Py.truthy (map Py.strip (separator_fields 0 line)).

(* ================================================================== *)
(** * Predicates used in the statements *)

(** A word: a non-empty string without whitespace. *)
Definition is_word (w : str) : Prop :=
  w <> [] /\ Forall (fun c => Py.isspace c = false) w.

(** Every whitespace character of [t] is one space between two characters
    that are not whitespace. *)
Definition single_spaced (t : str) : Prop :=
  forall pre c post, t = pre ++ c :: post -> Py.isspace c = true ->
    c = " "%char
    /\ (exists a pre', pre = pre' ++ [a] /\ Py.isspace a = false)
    /\ (exists b post', post = b :: post' /\ Py.isspace b = false).

(** [s] starts with a year of the form 19xx or 20xx: the two leading digits
    and two more decimal digits. *)
Definition year_start (s : str) : bool :=
  match s with
  | a :: b :: c :: d :: _ =>
      ((Py.eqc "1" a && Py.eqc "9" b) || (Py.eqc "2" a && Py.eqc "0" b))
      && Py.isdigit c && Py.isdigit d
  | _ => false
  end.

(** A year of that form occurs somewhere in [s]. *)
Fixpoint contains_year (s : str) : bool :=
  match s with
  | [] => false
  | _ :: s' => year_start s || contains_year s'
  end.

Definition str_lt : relation str := fun a b => Py.ltb a b = true.

(** The common head of the three date patterns: a word boundary and a year
    of the form 19xx or 20xx, followed by [R]. *)
Definition year_headed (R : Re.re) : Re.re :=
  Re.Seq Re.WordB
    (Re.Seq (Re.Alt (Re.lit "19") (Re.lit "20"))
       (Re.Seq Re.digit (Re.Seq Re.digit R))).

(** The response [<TEI/>]: a document without any bibliographic node. *)
Definition empty_tei : ET.Element := ET.Elem (tei "TEI") ∅ None None [].

(** The structured record whose fields are all absent. *)
Definition absent_record : gmap string value :=
  <["title" := VNone]>
  (<["document_type" := VNone]>
  (<["publication_date" := VNone]>
  (<["journal_title" := VNone]>
  (<["book_title" := VNone]>
  (<["publisher" := VNone]>
  (<["authors" := VNone]>
  (<["affiliations" := VNone]>
  (<["countries" := VNone]>
  (<["abstract" := VNone]>
  (<["year" := VNone]>
  (<["keywords" := VNone]> ∅))))))))))).

(** The structured call gives no result: a transport failure, a status of
    the 4xx or 5xx class, or a body that does not parse. *)
Definition no_result (fromstring : str -> option ET.Element)
    (posted : http_outcome) : Prop :=
  match posted with
  | HttpRaises e => is_RequestException e = true
  | Response status_code text =>
      raises_for_status status_code = true \/ fromstring text = None
  end.

(* ================================================================== *)
(** * Inputs of the examples *)

(** The record of a run of [process_document], the empty dict if it
    raised. *)
Definition record_of (r : result (extractor * gmap string value))
    : extractor * gmap string value :=
  match r with
  | Ok sel => sel
  | Raise _ => (Heuristic, ∅)
  end.

(** A file with one page that reads [text]. *)
Definition one_page_pdf (text : string) : result pdf_reader :=
  Ok (Reader (Ok [Page (Ok (Some (py text)))])).

(** A file whose first page reads [" abc"], with the service disabled. *)
Definition padded_pdf : result pdf_reader := one_page_pdf " abc".

Definition padded_record : extractor * gmap string value :=
  record_of (process_document (fun _ => None) false padded_pdf
               (HttpRaises RequestException)).

(** A file whose only page reads as one space, with the service disabled. *)
Definition blank_pdf : result pdf_reader := one_page_pdf " ".

Definition blank_record : extractor * gmap string value :=
  record_of (process_document (fun _ => None) false blank_pdf
               (HttpRaises RequestException)).

(** An element of the TEI namespace without tail. *)
Definition tei_el (name : string) (attrib : gmap string str)
    (text : option str) (children : list ET.Element) : ET.Element :=
  ET.Elem (tei name) attrib text None children.

(** A response whose title node is empty: [<title/>]. *)
Definition untitled_tei : ET.Element :=
  tei_el "TEI" ∅ None
    [tei_el "teiHeader" ∅ None
       [tei_el "fileDesc" ∅ None
          [tei_el "titleStmt" ∅ None [tei_el "title" ∅ None []]]]].

(** The record of that response for a file that does not read as a PDF. *)
Definition untitled_record : extractor * gmap string value :=
  record_of (process_document (fun _ => Some untitled_tei) true
               (Raise PdfReadError) (Response 200 [])).


(** A response whose publication statement offers the bare year 2020 and
    whose imprint has the full date 2021-05-06. *)
Definition imprint_date_tei : ET.Element :=
  tei_el "TEI" ∅ None
    [tei_el "teiHeader" ∅ None
       [tei_el "fileDesc" ∅ None
          [tei_el "publicationStmt" ∅ None
             [tei_el "date" {[ "when" := py "1850" ]}
                (Some (py "reprinted 2020")) []];
           tei_el "sourceDesc" ∅ None
             [tei_el "biblStruct" ∅ None
                [tei_el "monogr" ∅ None
                   [tei_el "imprint" ∅ None
                      [tei_el "date" {[ "when" := py "2021-05-06" ]}
                         None []]]]]]]].

(** The record of that response for a file that does not read as a PDF. *)
Definition imprint_date_record : extractor * gmap string value :=
  record_of (process_document (fun _ => Some imprint_date_tei) true
               (Raise PdfReadError) (Response 200 [])).


(** An author node with a surname and one affiliation. *)
Definition author_of (surname org : string) : ET.Element :=
  tei_el "author" ∅ None
    [tei_el "persName" ∅ None [tei_el "surname" ∅ (Some (py surname)) []];
     tei_el "affiliation" ∅ None [tei_el "orgName" ∅ (Some (py org)) []]].

(** A response with three authors, two of them at the same institution. *)
Definition affiliated_tei : ET.Element :=
  tei_el "TEI" ∅ None
    [tei_el "teiHeader" ∅ None
       [tei_el "fileDesc" ∅ None
          [tei_el "sourceDesc" ∅ None
             [tei_el "biblStruct" ∅ None
                [tei_el "analytic" ∅ None
                   [author_of "Smith" "Stanford"; author_of "Doe" "MIT";
                    author_of "Roe" "MIT"]]]]]].


(** A date node that gives the loop neither a date nor a year. *)
Definition yields_nothing (date_el : ET.Element) : Prop :=
  parse_publication_date (date_source date_el) = Ok None
  /\ extract_year (or_empty (ET.text date_el)) = None
  /\ extract_year (or_empty (ET.get date_el "when")) = None.

(** The texts that the pages contribute: the non-empty ones. *)
Definition page_texts (ps : list page) : list str :=
  flat_map (fun p => match p with
                     | Page (Ok t) => ET.truthy_list t
                     | Page (Raise _) => []
                     end) ps.

(** Every page of the list yields its text. *)
Definition pages_readable (ps : list page) : Prop :=
  forall p, In p ps -> exists t, p = Page (Ok t).

(* ================================================================== *)
(** * What a pattern matches

    The declarative reading of the patterns: [matches r st st'] when [r]
    matches the text between the positions [st] and [st']. The matcher
    explores these matches in Python's order. *)

Inductive matches : Re.re -> Re.mstate -> Re.mstate -> Prop :=
  | matches_chr p c s pv ps g :
      p c = true ->
      matches (Re.Chr p) (Re.MState pv (c :: s) ps g)
              (Re.MState (Some c) s (S ps) g)
  | matches_eps st : matches Re.Eps st st
  | matches_seq r1 r2 st1 st2 st3 :
      matches r1 st1 st2 -> matches r2 st2 st3 ->
      matches (Re.Seq r1 r2) st1 st3
  | matches_alt_l r1 r2 st st' :
      matches r1 st st' -> matches (Re.Alt r1 r2) st st'
  | matches_alt_r r1 r2 st st' :
      matches r2 st st' -> matches (Re.Alt r1 r2) st st'
  | matches_star_stop greedy p st : matches (Re.Star greedy p) st st
  | matches_star_step greedy p c s pv ps g st' :
      p c = true ->
      matches (Re.Star greedy p) (Re.MState (Some c) s (S ps) g) st' ->
      matches (Re.Star greedy p) (Re.MState pv (c :: s) ps g) st'
  | matches_wordb st :
      Re.at_boundary st = true -> matches Re.WordB st st
  | matches_group r st st' :
      matches r st st' ->
      matches (Re.Group r) st
              (Re.MState (Re.prev st') (Re.rest st') (Re.pos st')
                         (Some (Re.pos st, Re.pos st'))).

(** The state of the matcher is a position of the subject [whole]. *)
Definition aligned (whole : str) (st : Re.mstate) : Prop :=
  Re.rest st = drop (Re.pos st) whole.

(** The text before a date token: it shows no year and does not end in a
    word character. *)
Definition opens_token (pre : str) : Prop :=
  contains_year pre = false /\ Re.is_word_opt (last pre) = false.

(** The text after a full date: it does not start with a word character. *)
Definition closes_token (post : str) : Prop :=
  Re.is_word_opt (head post) = false.

(** The text after a year-month or a bare year: moreover it does not start
    with a dash and shows no year. *)
Definition closes_short_token (post : str) : Prop :=
  Re.is_word_opt (head post) = false
  /\ head post <> Some "-"%char
  /\ contains_year post = false.

(* ================================================================== *)
(** * The source: the writer and the batch of [main] *)

(** The metadata columns of the [INSERT], in the order of the statement
    (lines 320-332, after [file_path]). *)
Definition insert_columns : list string :=
  ["title"; "document_type"; "publication_date"; "journal_title";
   "book_title"; "publisher"; "authors"; "affiliations"; "countries";
   "abstract"; "year"; "keywords"; "raw_text_snippet"].

(** The columns that [ON CONFLICT ... DO UPDATE SET] assigns from
    [EXCLUDED] (lines 338-350). *)
Definition update_columns : list string :=
  ["title"; "document_type"; "publication_date"; "journal_title";
   "book_title"; "publisher"; "authors"; "affiliations"; "countries";
   "abstract"; "year"; "keywords"; "raw_text_snippet"].

(** The parameters of the statement after [str(file_path)], in the order
    of the tuple (lines 356-368); a key that the dict lacks raises
    [KeyError], which is [inl] of that key. *)
Fixpoint lookup_keys (metadata : gmap string value) (keys : list string)
    : string + list value :=
  match keys with
  | [] => inr []
  | k :: keys' =>
      match metadata !! k with
      | None => inl k
      | Some v =>
          match lookup_keys metadata keys' with
          | inl missing => inl missing
          | inr vs => inr (v :: vs)
          end
      end
  end.

Definition upsert_params (metadata : gmap string value) : string + list value :=
  lookup_keys metadata
    ["title"; "document_type"; "publication_date"; "journal_title";
     "book_title"; "publisher"; "authors"; "affiliations"; "countries";
     "abstract"; "year"; "keywords"; "raw_text_snippet"].

(** A row of the table [papers]: its columns by name. The table: its rows
    by [file_path], the column with the unique constraint. *)
Abbreviation row := (gmap string value).
Abbreviation table := (gmap string (gmap string value)).

(** A timestamp as a column value. *)
Definition timestamp (now : Z) : value := VInt now.

(** The row that the [INSERT] proposes: the path, the parameters under the
    columns of the statement, and [NOW()] in the two timestamps. *)
Definition excluded_row (file_path : string) (params : list value) (now : Z)
    : row :=
  <["file_path" := VStr (py file_path)]>
  (<["processed_at" := timestamp now]>
  (<["updated_at" := timestamp now]>
  (list_to_map (zip insert_columns params)))).

(** [DO UPDATE SET c = EXCLUDED.c] for the columns of the list, and the two
    timestamps; the other columns of the stored row stay. *)
Definition do_update (old excluded : row) (now : Z) : row :=
  <["processed_at" := timestamp now]>
  (<["updated_at" := timestamp now]>
  (foldr (fun c r =>
            match excluded !! c with
            | Some v => <[c := v]> r
            | None => r
            end) old update_columns)).

(** The statement on the table: insert, or update on a conflict of
    [file_path]. *)
Definition execute_upsert (conn : table) (file_path : string)
    (params : list value) (now : Z) : table :=
  let excluded := excluded_row file_path params now in
  match conn !! file_path with
  | None => <[file_path := excluded]> conn
  | Some old => <[file_path := do_update old excluded now]> conn
  end.

(** How [main] ends after the directory was found: an exception escapes, a
    [KeyError] on a key of the record, or it returns. *)
Inductive main_error :=
  | Escaped (e : exn)
  | KeyError (key : string).

(** What the database calls of one write come to: [conn.cursor()] and
    [cur.execute(...)] return, or one of them raises. The adapter raises in
    [execute] when it refuses a parameter (a string that holds U+0000
    raises [ValueError]), and so does every error of the server. *)
Inductive write_outcome :=
  | Written
  | CursorRaises (e : exn)
  | ExecuteRaises (e : exn).

(** The exception of a write, if it raises. *)
Definition write_raises (written : write_outcome) : option exn :=
  match written with
  | Written => None
  | CursorRaises e => Some e
  | ExecuteRaises e => Some e
  end.

(** Lines 314-370: the cursor is opened, the tuple of parameters is built,
    the statement is executed. *)
Definition upsert_paper (conn : table) (file_path : string)
    (metadata : gmap string value) (written : write_outcome) (now : Z)
    : main_error + table :=
  match written with
  | CursorRaises e => inl (Escaped e)
  | _ =>
      match upsert_params metadata with
      | inl missing => inl (KeyError missing)
      | inr params =>
          match written with
          | ExecuteRaises e => inl (Escaped e)
          | _ => inr (execute_upsert conn file_path params now)
          end
      end
  end.

(** One file of the batch: its path and what its decoding and its upload
    come to. *)
Record pdf_file := PdfFile {
  pdf_path : string;
  pdf_opened : result pdf_reader;
  pdf_posted : http_outcome
}.

(** What [main] leaves when it returns: nothing to do, or the number of
    papers it counted and the table it committed, if it had a connection. *)
Inductive main_outcome :=
  | NoPdfFiles
  | Processed (processed : nat) (committed : option table).

Section Batch.

Variable fromstring : str -> option ET.Element.

(** What the writes of the run come to: [executes n] is the outcome of the
    database calls of the write that follows [n] earlier writes. *)
Variable executes : nat -> write_outcome.

(** The loop of [main], lines 399-414, on the connection and the counter. *)
Fixpoint process_files (use_grobid dry_run : bool) (now : Z)
    (pdf_files : list pdf_file) (conn : option table) (processed : nat)
    : main_error + (option table * nat) :=
  match pdf_files with
  | [] => inr (conn, processed)
  | pdf :: pdf_files' =>
      match process_document fromstring use_grobid (pdf_opened pdf)
              (pdf_posted pdf) with
      | Raise e => inl (Escaped e)
      | Ok selected =>
          let metadata := snd selected in
          if dry_run
          then process_files use_grobid dry_run now pdf_files' conn
                 (S processed)
          else
            match conn with
            | None => inl (Escaped OtherError)  (* [None.cursor()] *)
            | Some t =>
                match upsert_paper t (pdf_path pdf) metadata
                        (executes processed) now with
                | inl err => inl err
                | inr t' =>
                    process_files use_grobid dry_run now pdf_files' (Some t')
                      (S processed)
                end
            end
      end
  end.

(** [main] from line 386 on: [connect] is what [psycopg2.connect] comes
    to, the stored table or an exception, [commits] what [conn.commit()]
    and [conn.close()] raise, if anything, and [now] the time of the
    transaction. An exception that escapes leaves the transaction
    uncommitted. *)
Definition main (no_grobid dry_run : bool) (probe : http_outcome)
    (connect : result table) (commits : option exn) (now : Z)
    (pdf_files : list pdf_file) : main_error + main_outcome :=
  match pdf_files with
  | [] => inr NoPdfFiles
  | _ :: _ =>
      match (if negb dry_run
             then (t <-- connect ;;; Ok (Some t)) else Ok None) with
      | Raise e => inl (Escaped e)
      | Ok conn =>
          match use_grobid no_grobid probe with
          | Raise e => inl (Escaped e)
          | Ok use =>
              match process_files use dry_run now pdf_files conn 0 with
              | inl err => inl err
              | inr (conn', processed) =>
                  match conn', commits with
                  | Some _, Some e => inl (Escaped e)
                  | _, _ => inr (Processed processed conn')
                  end
              end
          end
      end
  end.

End Batch.

(** The row under a path after the statement ran on a table that held [o]
    there. *)
Definition row_after (o : option row) (excluded : row) (now : Z) : row :=
  match o with
  | None => excluded
  | Some old => do_update old excluded now
  end.

(** Two stored rows, or their absence, that the statement for the path [p]
    does not tell apart: it leaves the same row on both. *)
Definition row_equiv (p : string) (o1 o2 : option row) : Prop :=
  forall (metadata : gmap string value) params now,
    Forall2 (fun k v => metadata !! k = Some v) insert_columns params ->
    row_after o1 (excluded_row p params now) now
    = row_after o2 (excluded_row p params now) now.

(** Two tables that differ only in rows that the batch will overwrite. *)
Definition same_up_to (pdf_files : list pdf_file) (ta tb : table) : Prop :=
  forall p, ta !! p = tb !! p
            \/ (p ∈ map pdf_path pdf_files /\ row_equiv p (ta !! p) (tb !! p)).

(** A batch of one file that reads [" abc"], run with the service disabled
    on an empty table at time 7, and the table that this run commits. *)
Definition one_file_batch : list pdf_file :=
  [PdfFile "a.pdf" padded_pdf (HttpRaises RequestException)].

Definition one_file_table : table :=
  match main (fun _ => None) (fun _ => Written) true false
          (HttpRaises OSError) (Ok ∅) None 7 one_file_batch with
  | inr (Processed _ (Some t)) => t
  | _ => ∅
  end.

(** The date of the calendar that the digits denote, if there is one. *)
Definition in_calendar (y m d : Z) : bool :=
  (1 <=? y) && (y <=? 9999) && (1 <=? m) && (m <=? 12)
  && (1 <=? d) && (d <=? days_in_month y m).

(* ================================================================== *)
(** * Predicates of the further properties *)



Definition year_in_range (year : option Z) : Prop :=
  forall y, year = Some y -> 1900 <= y <= 2099.

Definition date_in_range (publication_date : option date) : Prop :=
  forall d, publication_date = Some d ->
    1900 <= date_year d <= 2099
    /\ in_calendar (date_year d) (date_month d) (date_day d) = true.

(** A year of the two centuries at the head of [s], as a word of its own
    after the character [pv]. *)
Definition year_at (pv : option ascii) (s : str) : bool :=
  negb (Re.is_word_opt pv) && year_start s
  && negb (Re.is_word_opt (head (drop 4 s))).

(** Such a year somewhere in [s]. *)
Fixpoint year_word_from (pv : option ascii) (s : str) : bool :=
  year_at pv s
  || match s with
     | [] => false
     | c :: s' => year_word_from (Some c) s'
     end.

(** A string that is not empty and has no whitespace at either end. *)
Definition trimmed (s : str) : Prop := s <> [] /\ Py.strip s = s.

(** A trimmed string whose words are separated by single spaces. *)
Definition normalised (s : str) : Prop := trimmed s /\ single_spaced s.

(** Text without a printing character, as a scanned page gives. *)
Definition blank (text : str) : Prop := forallb Py.isspace text = true.

(** Two lists of files with the same paths and the same content, whatever
    the service answers for them. *)
Definition same_files (pdf_files pdf_files' : list pdf_file) : Prop :=
  Forall2 (fun f g => pdf_path f = pdf_path g /\ pdf_opened f = pdf_opened g)
          pdf_files pdf_files'.

(** A batch of one file for which the service has an answer. *)
Definition answered_batch : list pdf_file :=
  [PdfFile "a.pdf" padded_pdf (Response 200 [])].

(** The separators of a keyword line. *)
Definition comma_or_semicolon (c : ascii) : bool :=
  Py.eqc c "," || Py.eqc c ";".





(** The token that the date parser reads in [v] denotes no date of the
    calendar: the first full date that its pattern finds in [v] or, when
    there is none, the first year and month. *)
Definition reads_no_date (v : str) : Prop :=
  (exists m a b c d e f g h,
      Re.search iso_date_re v = Some m
      /\ Re.group0 m = [a; b; c; d; "-"; e; f; "-"; g; h]%char
      /\ in_calendar (Py.int [a; b; c; d]) (Py.int [e; f]) (Py.int [g; h])
         = false)
  \/ (Re.search iso_date_re v = None
      /\ exists m a b c d e f,
           Re.search year_month_re v = Some m
           /\ Re.group0 m = [a; b; c; d; "-"; e; f]%char
           /\ in_calendar (Py.int [a; b; c; d]) (Py.int [e; f]) 1 = false).

(** A date node whose string is not parsed to a date. *)
Definition gives_no_date (date_el : ET.Element) : Prop :=
  parse_publication_date (date_source date_el) = Ok None.

(** The date loops of lines 177-197 reach the node [date_el] and parse its
    string: it is a node of the publication statement after nodes that
    give neither a date nor a year, or the publication statement gives no
    date and it is a node of the imprint after nodes that give no date. *)
Definition date_loops_reach (root date_el : ET.Element) : Prop :=
  (exists pre post,
      publication_stmt_dates root = pre ++ date_el :: post
      /\ Forall yields_nothing pre)
  \/ (exists year pre post,
        publication_stmt_loop (publication_stmt_dates root) None None
        = Ok (year, None)
        /\ imprint_dates root = pre ++ date_el :: post
        /\ Forall gives_no_date pre).

(** A response whose publication statement has a node without a date or a
    year, then a node with the 30th of February. *)
Definition late_february_30_tei : ET.Element :=
  tei_el "TEI" ∅ None
    [tei_el "teiHeader" ∅ None
       [tei_el "fileDesc" ∅ None
          [tei_el "publicationStmt" ∅ None
             [tei_el "date" ∅ (Some (py "in press")) [];
              tei_el "date" {[ "when" := py "2020-02-30" ]} None []]]]].


(* ================================================================== *)
(** * Properties of the string primitives *)

Section StringFacts.

Implicit Types (s t w : str) (c : ascii) (ws : list str).

Lemma fields_nonempty sep s : exists f fs, Py.fields sep s = f :: fs.
Proof.
  induction s as [|c s IH]; simpl; [eauto|].
  destruct (sep c); [eauto|].
  destruct IH as (f & fs & ->). simpl. eauto.
Qed.

Lemma fields_sep_free sep s :
  Forall (Forall (fun c => sep c = false)) (Py.fields sep s).
Proof.
  induction s as [|c s IH]; simpl.
  - repeat constructor.
  - destruct (sep c) eqn:Hc.
    + constructor; [constructor | exact IH].
    + destruct (Py.fields sep s) as [|f fs]; simpl.
      * repeat constructor. exact Hc.
      * inversion IH; subst. constructor; [constructor|]; assumption.
Qed.

Lemma fields_app_free sep w s f fs :
  Forall (fun c => sep c = false) w ->
  Py.fields sep s = f :: fs ->
  Py.fields sep (w ++ s) = (w ++ f) :: fs.
Proof.
  intros Hw Hs. induction Hw as [|c w Hc _ IH]; simpl; [exact Hs|].
  rewrite Hc, IH. reflexivity.
Qed.

Lemma split_words s : Forall is_word (Py.split s).
Proof.
  unfold Py.split. apply List.Forall_forall. intros w Hin.
  apply List.filter_In in Hin as [Hin Ht]. split.
  - destruct w; [discriminate | congruence].
  - pose proof (fields_sep_free Py.isspace s) as HF.
    rewrite List.Forall_forall in HF. apply HF, Hin.
Qed.

Lemma split_nil_iff s :
  Py.split s = [] <-> forallb Py.isspace s = true.
Proof.
  unfold Py.split. induction s as [|c s IH]; simpl; [tauto|].
  destruct (Py.isspace c) eqn:Hc; simpl; [exact IH|].
  destruct (fields_nonempty Py.isspace s) as (f & fs & ->). simpl.
  split; discriminate.
Qed.

Lemma lstrip_id s :
  (forall c s', s = c :: s' -> Py.isspace c = false) -> Py.lstrip s = s.
Proof.
  destruct s as [|c s]; simpl; [reflexivity|].
  intros H. rewrite (H c s eq_refl). reflexivity.
Qed.

Lemma strip_id s :
  (forall c s', s = c :: s' -> Py.isspace c = false) ->
  (forall c s', s = s' ++ [c] -> Py.isspace c = false) ->
  Py.strip s = s.
Proof.
  intros Hh Hl. unfold Py.strip, Py.rstrip.
  rewrite (lstrip_id s Hh), lstrip_id; [apply rev_involutive|].
  intros c s' Hrev. apply (Hl c (rev s')).
  rewrite <- (rev_involutive s), Hrev. simpl. reflexivity.
Qed.

(** Joining words with single spaces: the shape of the result. *)
Lemma join_cons_cons sep w w' ws :
  Py.join sep (w :: w' :: ws) = w ++ sep ++ Py.join sep (w' :: ws).
Proof. reflexivity. Qed.

Lemma word_head w :
  is_word w -> exists c w', w = c :: w' /\ Py.isspace c = false.
Proof.
  intros [Hne Hall]. destruct w as [|c w']; [congruence|].
  inversion Hall; subst. eauto.
Qed.

Lemma word_last w :
  is_word w -> exists c w', w = w' ++ [c] /\ Py.isspace c = false.
Proof.
  intros [Hne Hall]. destruct (exists_last Hne) as (w' & c & ->).
  apply List.Forall_app in Hall as [_ Hc]. inversion Hc; subst. eauto.
Qed.

Lemma join_words_head w ws :
  is_word w -> exists c t, Py.join (py " ") (w :: ws) = c :: t /\ Py.isspace c = false.
Proof.
  intros Hw. destruct (word_head w Hw) as (c & w' & -> & Hc).
  destruct ws; simpl; eauto.
Qed.

Lemma join_words_last ws :
  Forall is_word ws -> ws <> [] ->
  exists c t, Py.join (py " ") ws = t ++ [c] /\ Py.isspace c = false.
Proof.
  induction 1 as [|w ws Hw Hws IH]; [congruence|]. intros _.
  destruct ws as [|w' ws].
  - simpl. destruct (word_last w Hw) as (c & w0 & -> & Hc). eauto.
  - destruct IH as (c & t & Ht & Hc); [discriminate|].
    rewrite join_cons_cons, Ht. exists c, (w ++ py " " ++ t).
    split; [|exact Hc]. rewrite <- !app_assoc. reflexivity.
Qed.

Lemma strip_join_words ws :
  Forall is_word ws -> Py.strip (Py.join (py " ") ws) = Py.join (py " ") ws.
Proof.
  intros Hws. destruct ws as [|w ws]; [reflexivity|].
  inversion Hws as [|? ? Hw Hrest]; subst.
  destruct (join_words_head w ws Hw) as (c & t & Hj & Hc).
  destruct (join_words_last (w :: ws) Hws) as (d & u & Hl & Hd); [discriminate|].
  apply strip_id.
  - intros c' s' E. rewrite Hj in E. inversion E; subst. exact Hc.
  - intros c' s' E. rewrite Hl in E. apply app_inj_tail in E as [_ <-]. exact Hd.
Qed.

Lemma split_join_words ws :
  Forall is_word ws -> Py.split (Py.join (py " ") ws) = ws.
Proof.
  induction 1 as [|w ws Hw Hws IH]; [reflexivity|].
  destruct Hw as [Hne Hfree]. destruct ws as [|w' ws].
  - simpl. unfold Py.split.
    rewrite <- (app_nil_r w) at 1.
    rewrite (fields_app_free Py.isspace w [] [] []); [|assumption|reflexivity].
    rewrite app_nil_r. simpl. destruct w; [congruence | reflexivity].
  - rewrite join_cons_cons. unfold Py.split in *.
    destruct (fields_nonempty Py.isspace (Py.join (py " ") (w' :: ws)))
      as (f & fs & Hf).
    rewrite (fields_app_free Py.isspace w _ [] (f :: fs)); [|assumption|].
    + rewrite app_nil_r, <- Hf.
      change (List.filter Py.truthy (w :: ?l))
        with (if Py.truthy w then w :: List.filter Py.truthy l
              else List.filter Py.truthy l).
      rewrite IH. destruct w; [congruence | reflexivity].
    + change (Py.fields Py.isspace (py " " ++ ?x))
        with ([] :: Py.fields Py.isspace x).
      rewrite Hf. reflexivity.
Qed.

Lemma join_words_nil ws :
  Forall is_word ws -> Py.join (py " ") ws = [] -> ws = [].
Proof.
  intros Hws E. destruct ws as [|w ws]; [reflexivity|].
  inversion Hws; subst.
  destruct (join_words_head w ws) as (c & t & Hj & _); [assumption|]. congruence.
Qed.

Lemma single_spaced_free w :
  Forall (fun c => Py.isspace c = false) w -> single_spaced w.
Proof.
  intros Hw pre c post -> Hc.
  apply List.Forall_app in Hw as [_ Hw]. inversion Hw; subst. congruence.
Qed.

Lemma single_spaced_cons_word w t b t' :
  is_word w -> single_spaced t -> t = b :: t' -> Py.isspace b = false ->
  single_spaced (w ++ py " " ++ t).
Proof.
  intros Hw Ht Hb Hbs pre c post E Hc.
  destruct (word_last w Hw) as (a & w0 & Hw0 & Ha).
  destruct Hw as [_ Hfree].
  assert (Hsep : forall post0, " "%char :: t = c :: post0 -> post0 = t /\ c = " "%char)
    by (intros ? [= <- <-]; auto).
  apply app_eq_inv in E as [(k & E1 & E2) | (k & E1 & E2)].
  - destruct k as [|x k]; simpl in E2.
    + symmetry in E2. apply Hsep in E2 as [-> ->]. rewrite app_nil_r in E1. subst pre.
      split; [reflexivity|]. split; eauto.
    + injection E2 as <- _. rewrite E1 in Hfree.
      apply List.Forall_app in Hfree as [_ Hk]. inversion Hk; subst. congruence.
  - destruct k as [|x k]; simpl in E2.
    + apply Hsep in E2 as [-> ->]. rewrite app_nil_r in E1. subst pre.
      split; [reflexivity|]. split; eauto.
    + injection E2 as <- E2.
      destruct (Ht k c post E2 Hc) as (-> & (a' & pre' & -> & Ha') & Hpost).
      split; [reflexivity|]. split; [|exact Hpost].
      exists a', (w ++ " "%char :: pre'). split; [|exact Ha'].
      rewrite E1. rewrite <- app_assoc. reflexivity.
Qed.

Lemma single_spaced_join ws :
  Forall is_word ws -> single_spaced (Py.join (py " ") ws).
Proof.
  induction 1 as [|w ws Hw Hws IH].
  - intros pre c post E. destruct pre; discriminate.
  - destruct ws as [|w' ws].
    + simpl. apply single_spaced_free, Hw.
    + rewrite join_cons_cons. inversion Hws; subst.
      destruct (join_words_head w' ws) as (b & t' & Hj & Hb); [assumption|].
      eapply single_spaced_cons_word; eauto.
Qed.

End StringFacts.

(** ** Whitespace normalisation *)

Lemma normalize_whitespace_eq (s : str) :
  normalize_whitespace (Some s) =
    match Py.split s with
    | [] => None
    | _ :: _ => Some (Py.join (py " ") (Py.split s))
    end.
Proof.
  unfold normalize_whitespace.
  pose proof (split_words s) as Hws.
  destruct s as [|c s]; [reflexivity|]. cbn [Py.truthy negb].
  rewrite strip_join_words by assumption.
  destruct (Py.split (c :: s)) as [|w ws] eqn:E; [reflexivity|].
  destruct (Py.join (py " ") (w :: ws)) eqn:Ej; [|reflexivity].
  apply join_words_nil in Ej; [discriminate | assumption].
Qed.

(** C10. Whitespace normalisation returns no value exactly on the absent,
    empty and all-whitespace inputs; otherwise it returns a non-empty string
    that has the words of the input, in which every whitespace character is
    a single space between two characters that are not whitespace (hence
    none leads or trails), and on which normalisation is the identity. *)
Theorem normalize_whitespace_spec (value : option str) :
  (normalize_whitespace value = None <->
     value = None \/ exists s, value = Some s /\ forallb Py.isspace s = true)
  /\ normalize_whitespace value <> Some []
  /\ forall s t, value = Some s -> normalize_whitespace value = Some t ->
       t <> []
       /\ Py.split t = Py.split s
       /\ single_spaced t
       /\ Py.strip t = t
       /\ normalize_whitespace (Some t) = Some t.
Proof.
  split; [|split].
  - destruct value as [s|]; [|simpl; tauto].
    rewrite normalize_whitespace_eq. split; intros H.
    + right. exists s. split; [reflexivity|]. apply split_nil_iff.
      destruct (Py.split s); [reflexivity | discriminate].
    + destruct H as [H|(s' & [= <-] & H)]; [discriminate|].
      apply split_nil_iff in H. rewrite H. reflexivity.
  - destruct value as [s|]; [|discriminate].
    rewrite normalize_whitespace_eq.
    pose proof (split_words s) as Hws.
    destruct (Py.split s) as [|w ws] eqn:E; [discriminate|].
    intros Ej.
    assert (Ej' : Py.join (py " ") (w :: ws) = []) by congruence.
    apply join_words_nil in Ej'; [discriminate | assumption].
  - intros s t -> Hn. rewrite normalize_whitespace_eq in Hn.
    pose proof (split_words s) as Hws.
    destruct (Py.split s) as [|w ws] eqn:E; [discriminate|].
    assert (Ht : t = Py.join (py " ") (w :: ws)) by congruence.
    clear Hn. subst t.
    assert (Hsplit : Py.split (Py.join (py " ") (w :: ws)) = w :: ws)
      by (apply split_join_words; assumption).
    split; [|split; [|split; [|split]]].
    + intros Ej. apply join_words_nil in Ej; [discriminate | assumption].
    + exact Hsplit.
    + apply single_spaced_join; assumption.
    + apply strip_join_words; assumption.
    + rewrite normalize_whitespace_eq, Hsplit. reflexivity.
Qed.

Lemma normalize_whitespace_spec_witness :
  normalize_whitespace (Some (py "a b")) = Some (py "a b").
Proof.
  destruct (normalize_whitespace_spec (Some (py "  a   b ")))
    as (_ & _ & H).
  destruct (H (py "  a   b ") (py "a b") eq_refl eq_refl)
    as (_ & _ & _ & _ & Hid).
  exact Hid.
Defined.

(* ================================================================== *)
(** * Properties of the date patterns *)

Section YearFacts.
Import Re.

Lemma year_headed_inv R st k res :
  rmatch (year_headed R) st k = Some res ->
  exists a b c d tl,
    rest st = a :: b :: c :: d :: tl
    /\ year_start (rest st) = true
    /\ at_boundary st = true
    /\ rmatch R (MState (Some d) tl (4 + pos st) (grp st)) k = Some res.
Proof.
  destruct st as [pv s ps g]. unfold year_headed.
  cbn [rmatch]. destruct (at_boundary _) eqn:Hb; [|discriminate].
  cbn [rest pos grp prev lit seqs map py list_ascii_of_string digit].
  destruct s as [|a [|b [|c [|d tl]]]];
    cbn [rmatch rest pos grp prev digit]; unfold exactly, year_start;
    repeat match goal with
           | |- context [if ?t then _ else _] => destruct t eqn:?
           end;
    try (intros H0; discriminate H0); intros H;
    exists a, b, c, d, tl; (split; [reflexivity|]);
    (split; [reflexivity|]); (split; [reflexivity|]);
    lazymatch type of H with
    | match ?x with _ => _ end = _ =>
        change (x = Some res); destruct x; [exact H | discriminate H]
    | _ => exact H
    end.
Qed.

Lemma iso_date_re_headed :
  iso_date_re =
    year_headed (seqs [dash; digit; digit; dash; digit; digit; WordB]).
Proof. reflexivity. Qed.

Lemma year_month_re_headed :
  year_month_re = year_headed (seqs [dash; digit; digit; WordB]).
Proof. reflexivity. Qed.

Lemma year_re_headed : year_re = year_headed WordB.
Proof. reflexivity. Qed.

(** No pattern with that head matches in a text without such a year. *)
Lemma search_from_no_year R whole s pv ps :
  contains_year s = false ->
  search_from (year_headed R) whole pv ps s = None.
Proof.
  revert pv ps. induction s as [|c s IH]; intros pv ps Hs.
  - cbn [search_from].
    destruct (rmatch _ _ _) eqn:E; [|reflexivity].
    apply year_headed_inv in E as (? & ? & ? & ? & ? & E & _). discriminate E.
  - cbn [contains_year] in Hs. apply orb_false_iff in Hs as [Hy Hs].
    cbn [search_from].
    destruct (rmatch _ _ _) eqn:E.
    + apply year_headed_inv in E as (? & ? & ? & ? & ? & _ & E & _).
      cbn [rest] in E. congruence.
    + apply IH, Hs.
Qed.

Lemma year_start_app a b : year_start a = true -> year_start (a ++ b) = true.
Proof.
  destruct a as [|x [|y [|z [|w a]]]]; try discriminate. intros H; exact H.
Qed.

Lemma contains_year_app_l a b :
  contains_year (a ++ b) = false -> contains_year a = false.
Proof.
  induction a as [|x a IH]; [reflexivity|].
  change ((x :: a) ++ b) with (x :: (a ++ b)). cbn [contains_year].
  rewrite !orb_false_iff. intros [Hy Hc]. split; [|auto].
  destruct (year_start (x :: a)) eqn:E; [|reflexivity].
  apply (year_start_app _ b) in E.
  change ((x :: a) ++ b) with (x :: (a ++ b)) in E. congruence.
Qed.

Lemma contains_year_app_r a b :
  contains_year (a ++ b) = false -> contains_year b = false.
Proof.
  induction a as [|x a IH]; [auto|].
  change ((x :: a) ++ b) with (x :: (a ++ b)). cbn [contains_year].
  rewrite orb_false_iff. intros [_ Hc]. auto.
Qed.

Lemma lstrip_suffix s : exists a, s = a ++ Py.lstrip s.
Proof.
  induction s as [|c s [a IH]]; [exists []; reflexivity|].
  simpl. destruct (Py.isspace c).
  - exists (c :: a). simpl. congruence.
  - exists []. reflexivity.
Qed.

Lemma rstrip_prefix s : exists b, s = Py.rstrip s ++ b.
Proof.
  unfold Py.rstrip. destruct (lstrip_suffix (rev s)) as [a Ha].
  exists (rev a). rewrite <- rev_app_distr, <- Ha. symmetry. apply rev_involutive.
Qed.

Lemma contains_year_strip s :
  contains_year s = false -> contains_year (Py.strip s) = false.
Proof.
  intros H. unfold Py.strip.
  destruct (lstrip_suffix s) as [a Ha]. rewrite Ha in H.
  apply contains_year_app_r in H.
  destruct (rstrip_prefix (Py.lstrip s)) as [b Hb]. rewrite Hb in H.
  apply contains_year_app_l in H. exact H.
Qed.

Lemma parse_publication_date_no_year s :
  contains_year s = false -> parse_publication_date (Some s) = Ok None.
Proof.
  intros H. apply contains_year_strip in H.
  unfold parse_publication_date. destruct (Py.otruthy (Some s)); [|reflexivity].
  cbn [negb or_empty]. unfold search.
  rewrite iso_date_re_headed, year_month_re_headed, year_re_headed.
  rewrite !search_from_no_year by exact H. reflexivity.
Qed.

Lemma digit_value_range c :
  Py.isdigit c = true -> 0 <= Py.digit_value c <= 9.
Proof.
  unfold Py.isdigit, Py.in_range, Py.digit_value.
  rewrite andb_true_iff, !N.leb_le. lia.
Qed.

Lemma year_start_int a b c d :
  year_start [a; b; c; d] = true -> 1900 <= Py.int [a; b; c; d] <= 2099.
Proof.
  unfold year_start. rewrite !andb_true_iff, orb_true_iff, !andb_true_iff.
  unfold Py.eqc. rewrite !Ascii.eqb_eq.
  intros [[Hab Hc] Hd].
  apply digit_value_range in Hc, Hd.
  unfold Py.int. cbn [fold_left].
  destruct Hab as [[<- <-]|[<- <-]];
    change (Py.digit_value "1") with 1; change (Py.digit_value "9") with 9;
    change (Py.digit_value "2") with 2; change (Py.digit_value "0") with 0; lia.
Qed.

Lemma search_from_year_re whole pre s pv m :
  whole = pre ++ s ->
  search_from year_re whole pv (length pre) s = Some m ->
  exists a b c d,
    group0 m = [a; b; c; d] /\ year_start [a; b; c; d] = true.
Proof.
  revert pre pv m. induction s as [|x s IH]; intros pre pv m Hw Hs.
  - cbn [search_from] in Hs. rewrite year_re_headed in Hs.
    destruct (rmatch _ _ _) eqn:E; [|discriminate].
    apply year_headed_inv in E as (? & ? & ? & ? & ? & E & _). discriminate E.
  - cbn [search_from] in Hs. rewrite year_re_headed in Hs.
    destruct (rmatch _ _ _) eqn:E.
    + injection Hs as <-.
      apply year_headed_inv in E as (a & b & c & d & tl & Hr & Hy & _ & Hk).
      cbn [rest pos grp rmatch] in Hr, Hy, Hk.
      destruct (at_boundary _); [|discriminate]. injection Hk as <-.
      exists a, b, c, d. split.
      * unfold group0, span. cbn [subject m_start m_end pos].
        rewrite Hw, drop_app_length, Hr.
        replace (S (S (S (S (length pre)))) - length pre)%nat with 4%nat
          by lia.
        reflexivity.
      * rewrite Hr in Hy. exact Hy.
    + rewrite <- year_re_headed in Hs.
      apply (IH (pre ++ [x]) (Some x)).
      * rewrite Hw, <- app_assoc. reflexivity.
      * rewrite length_app. simpl. rewrite Nat.add_1_r. exact Hs.
Qed.

(** A year that [extract_year] returns is a year of the 20th or the 21st
    century. *)
Lemma extract_year_range text y :
  extract_year text = Some y -> 1900 <= y <= 2099.
Proof.
  unfold extract_year, search.
  destruct (search_from _ _ _ _ _) as [m|] eqn:E; [|discriminate].
  intros [= <-].
  apply (search_from_year_re text [] text) in E as (a & b & c & d & -> & Hy);
    [|reflexivity].
  apply year_start_int, Hy.
Qed.

End YearFacts.

(* ================================================================== *)
(** * Date tokens inside a text *)

Section DateTokens.
Import Re.

Lemma isdigit_isword c : Py.isdigit c = true -> Py.isword c = true.
Proof. unfold Py.isdigit, Py.isword. intros ->. reflexivity. Qed.

Lemma isdigit_not_dash c : Py.isdigit c = true -> Py.eqc "-" c = false.
Proof.
  intros H. destruct (Py.eqc "-" c) eqn:E; [|reflexivity].
  apply Ascii.eqb_eq in E. subst c. vm_compute in H. discriminate H.
Qed.

Lemma isdigit_not_space c : Py.isdigit c = true -> Py.isspace c = false.
Proof.
  unfold Py.isdigit, Py.isspace, Py.in_range.
  rewrite andb_true_iff, !N.leb_le. intros [H1 H2].
  repeat match goal with
         | |- context [(?a <=? ?b)%N] =>
             destruct (N.leb_spec a b); try lia
         end; reflexivity.
Qed.

Lemma year_start_chars w1 w2 w3 w4 tl :
  year_start (w1 :: w2 :: w3 :: w4 :: tl) = true ->
  Py.isdigit w1 = true /\ (w2 = "9"%char \/ w2 = "0"%char)
  /\ Py.isdigit w3 = true /\ Py.isdigit w4 = true.
Proof.
  unfold year_start. rewrite !andb_true_iff, orb_true_iff, !andb_true_iff.
  unfold Py.eqc. rewrite !Ascii.eqb_eq.
  intros [[[[<- <-]|[<- <-]] Hc] Hd]; auto.
Qed.

Lemma year_headed_none R st k :
  year_start (rest st) = false -> rmatch (year_headed R) st k = None.
Proof.
  intros H. destruct (rmatch (year_headed R) st k) eqn:E; [|reflexivity].
  apply year_headed_inv in E as (? & ? & ? & ? & ? & _ & E & _). congruence.
Qed.

Lemma year_headed_eq R pv a b c d tl ps g k :
  is_word_opt pv = false ->
  year_start (a :: b :: c :: d :: tl) = true ->
  rmatch (year_headed R) (MState pv (a :: b :: c :: d :: tl) ps g) k
  = rmatch R (MState (Some d) tl (4 + ps) g) k.
Proof.
  intros Hpv Hy. pose proof (year_start_chars _ _ _ _ _ Hy) as (Ha & _ & Hc & Hd).
  unfold year_headed. cbn [rmatch]. unfold at_boundary. cbn [prev rest head].
  rewrite Hpv. cbn [is_word_opt xorb]. rewrite (isdigit_isword a Ha). cbv iota.
  cbn [lit seqs map py list_ascii_of_string digit rmatch rest pos grp prev].
  unfold year_start in Hy. rewrite Hc, Hd, !andb_true_r in Hy.
  unfold exactly. rewrite Hc, Hd.
  apply orb_true_iff in Hy as [Hy|Hy]; apply andb_true_iff in Hy as [H1 H2];
    rewrite H1, H2; unfold Py.eqc in H1, H2;
    apply Ascii.eqb_eq in H1, H2; subst a b;
    change (Py.eqc "2" "1") with false; change (Py.eqc "1" "2") with false;
    cbv iota; [|reflexivity].
  destruct (rmatch R _ k); reflexivity.
Qed.

Lemma search_from_step R whole pv ps x s :
  year_start (x :: s) = false ->
  search_from (year_headed R) whole pv ps (x :: s)
  = search_from (year_headed R) whole (Some x) (S ps) s.
Proof.
  intros H. cbn [search_from]. rewrite year_headed_none by exact H. reflexivity.
Qed.

(** No year starts inside a text that opens a token, whatever follows. *)
Lemma opens_token_no_start u v s :
  opens_token (u ++ v) -> v <> [] -> year_start (v ++ s) = false.
Proof.
  intros [Hc Hl] Hv. apply contains_year_app_r in Hc.
  rewrite last_app in Hl.
  destruct (last v) as [z|] eqn:Ez;
    [|apply last_None in Ez; congruence].
  destruct (year_start (v ++ s)) eqn:E; [exfalso|reflexivity].
  destruct v as [|w1 [|w2 [|w3 [|w4 v]]]]; [congruence| | | |].
  - destruct s as [|s1 [|s2 [|s3 s]]]; try discriminate E.
    apply year_start_chars in E as (H1 & _). injection Ez as <-.
    apply isdigit_isword in H1. cbn [is_word_opt] in Hl. congruence.
  - destruct s as [|s1 [|s2 s]]; try discriminate E.
    apply year_start_chars in E as (_ & H2 & _). injection Ez as <-.
    cbn [is_word_opt] in Hl. destruct H2 as [->| ->]; discriminate Hl.
  - destruct s as [|s1 s]; try discriminate E.
    apply year_start_chars in E as (_ & _ & H3 & _). injection Ez as <-.
    apply isdigit_isword in H3. cbn [is_word_opt] in Hl. congruence.
  - change ((w1 :: w2 :: w3 :: w4 :: v) ++ s)
      with (w1 :: w2 :: w3 :: w4 :: (v ++ s)) in E.
    cbn [contains_year] in Hc. apply orb_false_iff in Hc as [Hc _].
    unfold year_start in *. congruence.
Qed.

Lemma search_from_skip R whole pre s pv ps :
  (forall u v, pre = u ++ v -> v <> [] -> year_start (v ++ s) = false) ->
  search_from (year_headed R) whole pv ps (pre ++ s)
  = search_from (year_headed R) whole
      (match last pre with Some c => Some c | None => pv end)
      (ps + length pre) s.
Proof.
  revert pv ps. induction pre as [|c pre IH]; intros pv ps H.
  - cbn [app last length]. rewrite Nat.add_0_r. reflexivity.
  - change ((c :: pre) ++ s) with (c :: (pre ++ s)).
    rewrite search_from_step by (apply (H [] (c :: pre)); [reflexivity|discriminate]).
    rewrite IH by (intros u v -> Hv; apply (H (c :: u) v); [reflexivity|exact Hv]).
    cbn [length]. rewrite Nat.add_succ_r. f_equal.
    destruct pre as [|c' pre]; [reflexivity|].
    rewrite last_cons_cons. destruct (last (c' :: pre)) eqn:E; [reflexivity|].
    apply last_None in E. discriminate.
Qed.

End DateTokens.

Section TokenSearch.
Import Re.

Lemma year_start_1 w1 s : year_start (w1 :: s) = true -> Py.isdigit w1 = true.
Proof.
  destruct s as [|w2 [|w3 [|w4 s]]]; try discriminate.
  intros H. apply year_start_chars in H. tauto.
Qed.

Lemma year_start_2 w1 w2 s :
  year_start (w1 :: w2 :: s) = true -> w2 = "9"%char \/ w2 = "0"%char.
Proof.
  destruct s as [|w3 [|w4 s]]; try discriminate.
  intros H. apply year_start_chars in H. tauto.
Qed.

Lemma year_start_3 w1 w2 w3 s :
  year_start (w1 :: w2 :: w3 :: s) = true -> Py.isdigit w3 = true.
Proof.
  destruct s as [|w4 s]; try discriminate.
  intros H. apply year_start_chars in H. tauto.
Qed.

Lemma year_start_4 w1 w2 w3 w4 s :
  year_start (w1 :: w2 :: w3 :: w4 :: s) = true -> Py.isdigit w4 = true.
Proof. intros H. apply year_start_chars in H. tauto. Qed.

Lemma year_start_tail a b c d tl :
  year_start [a; b; c; d] = true -> year_start (a :: b :: c :: d :: tl) = true.
Proof. intros H. exact H. Qed.

Ltac digit_contra H :=
  first [ solve [vm_compute in H; discriminate H]
        | solve [apply isdigit_isword in H; congruence] ].

Ltac nine_zero_contra H :=
  destruct H as [H|H];
  first [ discriminate H
        | subst;
          match goal with
          | Hp : Py.isword _ = false |- _ => vm_compute in Hp; discriminate Hp
          end ].

Ltac no_year :=
  first
    [ reflexivity
    | match goal with
      | |- year_start ?W = false =>
          let E := fresh "Eys" in
          destruct (year_start W) eqn:E; [exfalso|reflexivity];
          first
            [ (let H := fresh in
               pose proof (year_start_1 _ _ E) as H; digit_contra H)
            | (let H := fresh in
               pose proof (year_start_2 _ _ _ E) as H; nine_zero_contra H)
            | (let H := fresh in
               pose proof (year_start_3 _ _ _ _ E) as H; digit_contra H)
            | (let H := fresh in
               pose proof (year_start_4 _ _ _ _ _ E) as H; digit_contra H) ]
      end ].

Lemma closes_token_cons p post :
  closes_token (p :: post) -> Py.isword p = false.
Proof. intros H. exact H. Qed.

(** The full-date pattern at a full date. *)
Lemma iso_at_iso_token whole pv ps a b c d e f g h post :
  is_word_opt pv = false ->
  closes_token post ->
  year_start [a; b; c; d] = true ->
  Py.isdigit e = true -> Py.isdigit f = true ->
  Py.isdigit g = true -> Py.isdigit h = true ->
  search_from iso_date_re whole pv ps
    ([a; b; c; d; "-"; e; f; "-"; g; h]%char ++ post)
  = Some (MatchObj whole ps (10 + ps) None).
Proof.
  intros Hpv Hpost Hy He Hf Hg Hh.
  rewrite iso_date_re_headed. cbn [app search_from].
  rewrite year_headed_eq by (assumption || apply year_start_tail, Hy).
  cbn [seqs rmatch dash digit rest pos grp prev]. unfold exactly.
  change (Py.eqc "-" "-") with true. cbv iota.
  rewrite He, Hf, Hg, Hh. unfold at_boundary. cbn [prev rest is_word_opt].
  rewrite (isdigit_isword h Hh). unfold closes_token in Hpost. rewrite Hpost.
  reflexivity.
Qed.

Lemma search_from_cons r whole pv ps x s :
  search_from r whole pv ps (x :: s)
  = match rmatch r (MState pv (x :: s) ps None) Some with
    | Some st => Some (MatchObj whole ps (pos st) (grp st))
    | None => search_from r whole (Some x) (S ps) s
    end.
Proof. reflexivity. Qed.

Lemma closes_short_token_inv post :
  closes_short_token post ->
  contains_year post = false
  /\ (post = []
      \/ exists p post', post = p :: post' /\ Py.isword p = false
                         /\ Py.eqc "-" p = false).
Proof.
  intros (Hw & Hd & Hc). split; [exact Hc|].
  destruct post as [|p post']; [left; reflexivity|right].
  exists p, post'. split; [reflexivity|]. split; [exact Hw|].
  destruct (Py.eqc "-" p) eqn:E; [|reflexivity].
  apply Ascii.eqb_eq in E. subst p. destruct Hd. reflexivity.
Qed.

(** The full-date pattern finds nothing at a year and month that no dash
    follows. *)
Lemma iso_at_year_month_token whole pv ps a b c d e f post :
  is_word_opt pv = false ->
  closes_short_token post ->
  year_start [a; b; c; d] = true ->
  Py.isdigit e = true -> Py.isdigit f = true ->
  search_from iso_date_re whole pv ps ([a; b; c; d; "-"; e; f]%char ++ post)
  = None.
Proof.
  intros Hpv Hpost Hy He Hf.
  apply closes_short_token_inv in Hpost as [Hc Hpost].
  rewrite iso_date_re_headed. cbn [app]. rewrite search_from_cons.
  rewrite year_headed_eq by (assumption || apply year_start_tail, Hy).
  cbn [seqs rmatch dash digit rest pos grp prev]. unfold exactly.
  change (Py.eqc "-" "-") with true. cbv iota. rewrite He, Hf.
  destruct Hpost as [->|(p & post' & -> & Hp & Hd)].
  - cbv iota. repeat (rewrite search_from_step by no_year).
    apply search_from_no_year. reflexivity.
  - rewrite Hd. repeat (rewrite search_from_step by no_year).
    apply search_from_no_year.
    cbn [contains_year] in Hc. apply orb_false_iff in Hc. apply Hc.
Qed.

(** The year-month pattern at a year and month. *)
Lemma year_month_at_year_month_token whole pv ps a b c d e f post :
  is_word_opt pv = false ->
  closes_short_token post ->
  year_start [a; b; c; d] = true ->
  Py.isdigit e = true -> Py.isdigit f = true ->
  search_from year_month_re whole pv ps
    ([a; b; c; d; "-"; e; f]%char ++ post)
  = Some (MatchObj whole ps (7 + ps) None).
Proof.
  intros Hpv (Hpost & _) Hy He Hf.
  rewrite year_month_re_headed. cbn [app search_from].
  rewrite year_headed_eq by (assumption || apply year_start_tail, Hy).
  cbn [seqs rmatch dash digit rest pos grp prev]. unfold exactly.
  change (Py.eqc "-" "-") with true. cbv iota.
  rewrite He, Hf. unfold at_boundary. cbn [prev rest is_word_opt].
  rewrite (isdigit_isword f Hf), Hpost. reflexivity.
Qed.

(** The patterns with a dash find nothing at a bare year that no dash
    follows. *)
Lemma dashed_at_year_token R whole pv ps a b c d post :
  is_word_opt pv = false ->
  closes_short_token post ->
  year_start [a; b; c; d] = true ->
  search_from (year_headed (Seq dash R)) whole pv ps ([a; b; c; d] ++ post)
  = None.
Proof.
  intros Hpv Hpost Hy.
  pose proof (year_start_chars _ _ _ _ _ Hy) as (Ha & Hb & Hc' & Hd').
  apply closes_short_token_inv in Hpost as [Hc Hpost].
  cbn [app]. rewrite search_from_cons.
  rewrite year_headed_eq by (assumption || apply year_start_tail, Hy).
  cbn [rmatch dash rest pos grp prev]. unfold exactly.
  destruct Hpost as [->|(p & post' & -> & Hp & Hd)].
  - repeat (rewrite search_from_step by no_year).
    apply search_from_no_year. reflexivity.
  - rewrite Hd. repeat (rewrite search_from_step by no_year).
    apply search_from_no_year.
    cbn [contains_year] in Hc. apply orb_false_iff in Hc. apply Hc.
Qed.

(** The bare-year pattern at a bare year. *)
Lemma year_at_year_token whole pv ps a b c d post :
  is_word_opt pv = false ->
  closes_short_token post ->
  year_start [a; b; c; d] = true ->
  search_from year_re whole pv ps ([a; b; c; d] ++ post)
  = Some (MatchObj whole ps (4 + ps) None).
Proof.
  intros Hpv (Hpost & _) Hy.
  pose proof (year_start_chars _ _ _ _ _ Hy) as (_ & _ & _ & Hd).
  rewrite year_re_headed. cbn [app search_from].
  rewrite year_headed_eq by (assumption || apply year_start_tail, Hy).
  cbn [rmatch rest pos grp prev]. unfold at_boundary.
  cbn [prev rest is_word_opt]. rewrite (isdigit_isword d Hd), Hpost.
  reflexivity.
Qed.

End TokenSearch.

Section TokenParse.
Import Re.

Lemma lstrip_app_nonspace pre x r :
  Py.isspace x = false -> Py.lstrip (pre ++ x :: r) = Py.lstrip pre ++ x :: r.
Proof.
  intros Hx. induction pre as [|c pre IH]; cbn [app Py.lstrip].
  - rewrite Hx. reflexivity.
  - destruct (Py.isspace c); [exact IH | reflexivity].
Qed.

Lemma rstrip_app_nonspace l x post :
  Py.isspace x = false -> Py.rstrip (l ++ x :: post) = l ++ x :: Py.rstrip post.
Proof.
  intros Hx. unfold Py.rstrip.
  rewrite rev_app_distr. cbn [rev]. rewrite <- app_assoc. cbn [app].
  rewrite lstrip_app_nonspace by exact Hx.
  rewrite rev_app_distr. cbn [rev]. rewrite rev_involutive, <- app_assoc.
  reflexivity.
Qed.

(** Stripping a text around a token that starts and ends with characters
    that are not whitespace strips the two sides. *)
Lemma strip_around pre x mid y post :
  Py.isspace x = false -> Py.isspace y = false ->
  Py.strip (pre ++ (x :: mid ++ [y]) ++ post)
  = Py.lstrip pre ++ (x :: mid ++ [y]) ++ Py.rstrip post.
Proof.
  intros Hx Hy. unfold Py.strip. cbn [app].
  rewrite lstrip_app_nonspace by exact Hx.
  replace (Py.lstrip pre ++ x :: (mid ++ [y]) ++ post)
    with ((Py.lstrip pre ++ x :: mid) ++ y :: post)
    by (rewrite <- !app_assoc; reflexivity).
  rewrite rstrip_app_nonspace by exact Hy.
  rewrite <- !app_assoc. reflexivity.
Qed.

Lemma opens_token_lstrip pre : opens_token pre -> opens_token (Py.lstrip pre).
Proof.
  intros [Hc Hl]. destruct (lstrip_suffix pre) as [a Ha]. split.
  - rewrite Ha in Hc. apply contains_year_app_r in Hc. exact Hc.
  - rewrite Ha, last_app in Hl.
    destruct (last (Py.lstrip pre)); [exact Hl | reflexivity].
Qed.

Lemma head_rstrip post :
  head (Py.rstrip post) = None \/ head (Py.rstrip post) = head post.
Proof.
  destruct (rstrip_prefix post) as [b Hb].
  destruct (Py.rstrip post) as [|x r]; [left; reflexivity|right].
  rewrite Hb. reflexivity.
Qed.

Lemma closes_token_rstrip post :
  closes_token post -> closes_token (Py.rstrip post).
Proof.
  unfold closes_token. intros H.
  destruct (head_rstrip post) as [-> | ->]; [reflexivity | exact H].
Qed.

Lemma closes_short_token_rstrip post :
  closes_short_token post -> closes_short_token (Py.rstrip post).
Proof.
  intros (Hw & Hd & Hc). split; [apply closes_token_rstrip, Hw|]. split.
  - destruct (head_rstrip post) as [-> | ->]; [discriminate | exact Hd].
  - destruct (rstrip_prefix post) as [b Hb]. rewrite Hb in Hc.
    apply contains_year_app_l in Hc. exact Hc.
Qed.

(** A search of a year-headed pattern passes over the text that opens a
    token. *)
Lemma search_opens_token R pre s :
  opens_token pre ->
  exists pv,
    is_word_opt pv = false
    /\ search (year_headed R) (pre ++ s)
       = search_from (year_headed R) (pre ++ s) pv (length pre) s.
Proof.
  intros Hpre. exists (match last pre with Some c => Some c | None => None end).
  split.
  - destruct Hpre as [_ Hl]. destruct (last pre); [exact Hl | reflexivity].
  - unfold search. rewrite search_from_skip; [reflexivity|].
    intros u v -> Hv. apply (opens_token_no_start u); assumption.
Qed.

Lemma span_token pre token post n :
  length token = n ->
  span (pre ++ token ++ post) (length pre) (n + length pre) = token.
Proof.
  intros <-. unfold span. rewrite drop_app_length.
  replace (length token + length pre - length pre)%nat with (length token) by lia.
  rewrite take_app_length. reflexivity.
Qed.

Lemma truthy_app_token pre x r : Py.truthy (pre ++ x :: r) = true.
Proof. destruct pre; reflexivity. Qed.

Lemma split_full_date a b c d e f g h :
  Py.isdigit a = true -> Py.isdigit b = true -> Py.isdigit c = true ->
  Py.isdigit d = true -> Py.isdigit e = true -> Py.isdigit f = true ->
  Py.isdigit g = true -> Py.isdigit h = true ->
  Py.split_char "-" [a; b; c; d; "-"; e; f; "-"; g; h]%char
  = [[a; b; c; d]; [e; f]; [g; h]].
Proof.
  intros Ha Hb Hc Hd He Hf Hg Hh. unfold Py.split_char. cbn [Py.fields].
  rewrite (isdigit_not_dash a Ha), (isdigit_not_dash b Hb),
    (isdigit_not_dash c Hc), (isdigit_not_dash d Hd),
    (isdigit_not_dash e He), (isdigit_not_dash f Hf),
    (isdigit_not_dash g Hg), (isdigit_not_dash h Hh).
  reflexivity.
Qed.

Lemma split_year_month a b c d e f :
  Py.isdigit a = true -> Py.isdigit b = true -> Py.isdigit c = true ->
  Py.isdigit d = true -> Py.isdigit e = true -> Py.isdigit f = true ->
  Py.split_char "-" [a; b; c; d; "-"; e; f]%char = [[a; b; c; d]; [e; f]].
Proof.
  intros Ha Hb Hc Hd He Hf. unfold Py.split_char. cbn [Py.fields].
  rewrite (isdigit_not_dash a Ha), (isdigit_not_dash b Hb),
    (isdigit_not_dash c Hc), (isdigit_not_dash d Hd),
    (isdigit_not_dash e He), (isdigit_not_dash f Hf).
  reflexivity.
Qed.

(** A full date between a text that opens it and a text that closes it is
    the date that is parsed. *)
Lemma parse_full_date pre post a b c d e f g h :
  opens_token pre -> closes_token post ->
  year_start [a; b; c; d] = true ->
  Py.isdigit e = true -> Py.isdigit f = true ->
  Py.isdigit g = true -> Py.isdigit h = true ->
  parse_publication_date
    (Some (pre ++ [a; b; c; d; "-"; e; f; "-"; g; h]%char ++ post))
  = (dt <-- mk_date (Py.int [a; b; c; d]) (Py.int [e; f]) (Py.int [g; h]) ;;;
     Ok (Some dt)).
Proof.
  intros Hpre Hpost Hy He Hf Hg Hh.
  pose proof (year_start_chars _ _ _ _ _ Hy) as (Ha & Hb & Hc & Hd).
  assert (Hb' : Py.isdigit b = true) by (destruct Hb as [->| ->]; reflexivity).
  unfold parse_publication_date. cbn [Py.otruthy or_empty app].
  rewrite truthy_app_token. cbn [negb].
  change (pre ++ a :: b :: c :: d :: "-"%char :: e :: f :: "-"%char :: g :: h :: post)
    with (pre ++ (a :: [b; c; d; "-"; e; f; "-"; g]%char ++ [h]) ++ post).
  rewrite strip_around by (apply isdigit_not_space; assumption).
  apply opens_token_lstrip in Hpre. apply closes_token_rstrip in Hpost.
  set (pre' := Py.lstrip pre) in *. set (post' := Py.rstrip post) in *.
  rewrite iso_date_re_headed.
  destruct (search_opens_token
              (seqs [dash; digit; digit; dash; digit; digit; WordB]) pre'
              (([a; b; c; d; "-"; e; f; "-"; g; h]%char) ++ post') Hpre)
    as (pv & Hpv & Hs).
  change (a :: [b; c; d; "-"%char; e; f; "-"%char; g] ++ [h])
    with [a; b; c; d; "-"%char; e; f; "-"%char; g; h].
  rewrite Hs, <- iso_date_re_headed.
  rewrite iso_at_iso_token by assumption.
  unfold group0. cbn [subject m_start m_end].
  rewrite span_token by reflexivity.
  unfold fromisoformat. rewrite split_full_date by assumption.
  cbn [length Nat.eqb andb app forallb].
  rewrite Ha, Hb', Hc, Hd, He, Hf, Hg, Hh. reflexivity.
Qed.

(** A year and month between such texts, when no dash follows and the text
    after shows no year, is parsed as the first day of that month. *)
Lemma parse_year_month pre post a b c d e f :
  opens_token pre -> closes_short_token post ->
  year_start [a; b; c; d] = true ->
  Py.isdigit e = true -> Py.isdigit f = true ->
  parse_publication_date (Some (pre ++ [a; b; c; d; "-"; e; f]%char ++ post))
  = (dt <-- mk_date (Py.int [a; b; c; d]) (Py.int [e; f]) 1 ;;; Ok (Some dt)).
Proof.
  intros Hpre Hpost Hy He Hf.
  pose proof (year_start_chars _ _ _ _ _ Hy) as (Ha & Hb & Hc & Hd).
  assert (Hb' : Py.isdigit b = true) by (destruct Hb as [->| ->]; reflexivity).
  unfold parse_publication_date. cbn [Py.otruthy or_empty app].
  rewrite truthy_app_token. cbn [negb].
  change (pre ++ a :: b :: c :: d :: "-"%char :: e :: f :: post)
    with (pre ++ (a :: [b; c; d; "-"; e]%char ++ [f]) ++ post).
  rewrite strip_around by (apply isdigit_not_space; assumption).
  apply opens_token_lstrip in Hpre. apply closes_short_token_rstrip in Hpost.
  set (pre' := Py.lstrip pre) in *. set (post' := Py.rstrip post) in *.
  change (a :: [b; c; d; "-"%char; e] ++ [f])
    with [a; b; c; d; "-"%char; e; f].
  rewrite iso_date_re_headed.
  destruct (search_opens_token
              (seqs [dash; digit; digit; dash; digit; digit; WordB]) pre'
              (([a; b; c; d; "-"; e; f]%char) ++ post') Hpre)
    as (pv & Hpv & ->).
  rewrite <- iso_date_re_headed, iso_at_year_month_token by assumption.
  rewrite year_month_re_headed.
  destruct (search_opens_token (seqs [dash; digit; digit; WordB]) pre'
              (([a; b; c; d; "-"; e; f]%char) ++ post') Hpre)
    as (pv' & Hpv' & ->).
  rewrite <- year_month_re_headed, year_month_at_year_month_token
    by assumption.
  unfold group0. cbn [subject m_start m_end].
  rewrite span_token by reflexivity.
  rewrite split_year_month by assumption. reflexivity.
Qed.

(** A bare year between such texts is parsed as the first day of that
    year. *)
Lemma parse_bare_year pre post a b c d :
  opens_token pre -> closes_short_token post ->
  year_start [a; b; c; d] = true ->
  parse_publication_date (Some (pre ++ [a; b; c; d] ++ post))
  = (dt <-- mk_date (Py.int [a; b; c; d]) 1 1 ;;; Ok (Some dt)).
Proof.
  intros Hpre Hpost Hy.
  pose proof (year_start_chars _ _ _ _ _ Hy) as (Ha & Hb & Hc & Hd).
  unfold parse_publication_date. cbn [Py.otruthy or_empty app].
  rewrite truthy_app_token. cbn [negb].
  change (pre ++ a :: b :: c :: d :: post)
    with (pre ++ (a :: [b; c] ++ [d]) ++ post).
  rewrite strip_around by (apply isdigit_not_space; assumption).
  apply opens_token_lstrip in Hpre. apply closes_short_token_rstrip in Hpost.
  set (pre' := Py.lstrip pre) in *. set (post' := Py.rstrip post) in *.
  change (a :: [b; c] ++ [d]) with [a; b; c; d].
  change iso_date_re
    with (year_headed
            (Seq dash (seqs [digit; digit; dash; digit; digit; WordB]))).
  destruct (search_opens_token
              (Seq dash (seqs [digit; digit; dash; digit; digit; WordB]))
              pre' ([a; b; c; d] ++ post') Hpre)
    as (pv & Hpv & ->).
  rewrite dashed_at_year_token by assumption.
  change year_month_re
    with (year_headed (Seq dash (seqs [digit; digit; WordB]))).
  destruct (search_opens_token (Seq dash (seqs [digit; digit; WordB]))
              pre' ([a; b; c; d] ++ post') Hpre)
    as (pv' & Hpv' & ->).
  rewrite dashed_at_year_token by assumption.
  rewrite year_re_headed.
  destruct (search_opens_token WordB pre' ([a; b; c; d] ++ post') Hpre)
    as (pv'' & Hpv'' & ->).
  rewrite <- year_re_headed, year_at_year_token by assumption.
  unfold group0. cbn [subject m_start m_end].
  rewrite span_token by reflexivity. reflexivity.
Qed.

End TokenParse.

(** What [contains_year] decides. *)
Lemma contains_year_spec s :
  contains_year s = true <->
  exists pre a b c d post,
    s = pre ++ a :: b :: c :: d :: post /\ year_start [a; b; c; d] = true.
Proof.
  split.
  - induction s as [|x s IH]; [discriminate|].
    cbn [contains_year]. rewrite orb_true_iff. intros [H|H].
    + destruct s as [|y [|z [|w s]]]; try discriminate H.
      exists [], x, y, z, w, s. split; [reflexivity | exact H].
    + destruct (IH H) as (pre & a & b & c & d & post & -> & Hy).
      exists (x :: pre), a, b, c, d, post. split; [reflexivity | exact Hy].
  - intros (pre & a & b & c & d & post & -> & Hy).
    destruct (contains_year (pre ++ a :: b :: c :: d :: post)) eqn:E;
      [reflexivity|].
    apply contains_year_app_r in E. cbn [contains_year] in E.
    apply orb_false_iff in E as [E _]. unfold year_start in *. congruence.
Qed.

(** C5. Date parsing tries the full date, then year and month, then the
    bare year, and the first pattern that matches decides. The inputs
    ["2020-03-15"], ["2020-03"] and ["2020"] give 15 March 2020, 1 March 2020
    and 1 January 2020. More generally a text that contains a full date
    after a piece without a year, set off from the words around it, gives
    that date; a year and month, or a bare year, so placed gives the first
    day of the month, or of the year, when the text after it shows no year.
    A full date wins over a year-month or a bare year that stands earlier
    in the text, and a year-month over an earlier bare year. An absent input
    and every input in which no year of the form 19xx or 20xx occurs give
    no result. *)
Theorem parse_publication_date_patterns :
  parse_publication_date (Some (py "2020-03-15")) = Ok (Some (Date 2020 3 15))
  /\ parse_publication_date (Some (py "2020-03")) = Ok (Some (Date 2020 3 1))
  /\ parse_publication_date (Some (py "2020")) = Ok (Some (Date 2020 1 1))
  /\ (forall pre post a b c d e f g h,
        opens_token pre -> closes_token post ->
        year_start [a; b; c; d] = true ->
        Py.isdigit e = true -> Py.isdigit f = true ->
        Py.isdigit g = true -> Py.isdigit h = true ->
        parse_publication_date
          (Some (pre ++ [a; b; c; d; "-"; e; f; "-"; g; h]%char ++ post))
        = (dt <-- mk_date (Py.int [a; b; c; d]) (Py.int [e; f])
                    (Py.int [g; h]) ;;;
           Ok (Some dt)))
  /\ (forall pre post a b c d e f,
        opens_token pre -> closes_short_token post ->
        year_start [a; b; c; d] = true ->
        Py.isdigit e = true -> Py.isdigit f = true ->
        parse_publication_date
          (Some (pre ++ [a; b; c; d; "-"; e; f]%char ++ post))
        = (dt <-- mk_date (Py.int [a; b; c; d]) (Py.int [e; f]) 1 ;;;
           Ok (Some dt)))
  /\ (forall pre post a b c d,
        opens_token pre -> closes_short_token post ->
        year_start [a; b; c; d] = true ->
        parse_publication_date (Some (pre ++ [a; b; c; d] ++ post))
        = (dt <-- mk_date (Py.int [a; b; c; d]) 1 1 ;;; Ok (Some dt)))
  /\ parse_publication_date (Some (py "2019, 2020-03 (online 2021-04-05)"))
     = Ok (Some (Date 2021 4 5))
  /\ parse_publication_date (Some (py "2019, 2020-03"))
     = Ok (Some (Date 2020 3 1))
  /\ parse_publication_date None = Ok None
  /\ forall s, contains_year s = false ->
       parse_publication_date (Some s) = Ok None.
Proof.
  do 3 (split; [reflexivity|]).
  split; [exact parse_full_date|].
  split; [exact parse_year_month|].
  split; [exact parse_bare_year|].
  do 3 (split; [reflexivity|]).
  exact parse_publication_date_no_year.
Qed.

Lemma parse_publication_date_patterns_witness :
  parse_publication_date (Some (py "Published 2020-03-15."))
    = Ok (Some (Date 2020 3 15))
  /\ parse_publication_date (Some (py "(2020-03)")) = Ok (Some (Date 2020 3 1))
  /\ parse_publication_date (Some (py "Copyright 2020 by the authors"))
     = Ok (Some (Date 2020 1 1))
  /\ parse_publication_date (Some (py "n.d., vol. 12")) = Ok None.
Proof.
  destruct parse_publication_date_patterns
    as (_ & _ & _ & Hfull & Hym & Hy & _ & _ & _ & Hnone).
  split; [|split; [|split]].
  - exact (Hfull (py "Published ") (py ".")
             "2" "0" "2" "0" "0" "3" "1" "5"
             (conj eq_refl eq_refl) eq_refl eq_refl
             eq_refl eq_refl eq_refl eq_refl)%char.
  - refine (Hym (py "(") (py ")") "2" "0" "2" "0" "0" "3"
              (conj eq_refl eq_refl) (conj eq_refl (conj _ eq_refl))
              eq_refl eq_refl eq_refl)%char.
    discriminate.
  - refine (Hy (py "Copyright ") (py " by the authors") "2" "0" "2" "0"
              (conj eq_refl eq_refl) (conj eq_refl (conj _ eq_refl))
              eq_refl)%char.
    discriminate.
  - apply Hnone. reflexivity.
Defined.

(* ================================================================== *)
(** * Properties of the heuristic author rule *)

Section AuthorFacts.

Lemma eqc_sym a b : Py.eqc a b = Py.eqc b a.
Proof. unfold Py.eqc. apply Ascii.eqb_sym. Qed.

Lemma lstrip_head s c s' :
  Py.lstrip s = c :: s' -> Py.isspace c = false.
Proof.
  induction s as [|x s IH]; simpl; [discriminate|].
  destruct (Py.isspace x) eqn:E; [exact IH|]. intros [= <- _]. exact E.
Qed.

Lemma lstrip_all_space s : Py.lstrip s = [] -> forallb Py.isspace s = true.
Proof.
  induction s as [|x s IH]; simpl; [reflexivity|].
  destruct (Py.isspace x); [exact IH | discriminate].
Qed.

Lemma rstrip_last s c s' :
  Py.rstrip s = s' ++ [c] -> Py.isspace c = false.
Proof.
  unfold Py.rstrip. intros H.
  apply (f_equal (@rev ascii)) in H.
  rewrite rev_involutive, rev_app_distr in H. simpl in H.
  eapply lstrip_head, H.
Qed.

Lemma rstrip_head c s :
  Py.isspace c = false -> exists t, Py.rstrip (c :: s) = c :: t.
Proof.
  intros Hc. unfold Py.rstrip.
  destruct (lstrip_suffix (rev (c :: s))) as [a Ha].
  destruct (Py.lstrip (rev (c :: s))) as [|x l] eqn:E.
  - apply lstrip_all_space in E. rewrite forallb_forall in E.
    specialize (E c). rewrite <- in_rev in E.
    rewrite E in Hc by (left; reflexivity). discriminate.
  - apply (f_equal (@rev ascii)) in Ha.
    rewrite rev_involutive, rev_app_distr in Ha.
    destruct (rev (x :: l)) as [|y t] eqn:Er.
    + apply (f_equal (@length ascii)) in Er. rewrite length_rev in Er.
      discriminate.
    + simpl in Ha. injection Ha as <- _. eauto.
Qed.

(** A stripped string is empty or starts and ends with a character that
    is not whitespace; stripping it again changes nothing. *)
Lemma strip_idempotent s : Py.strip (Py.strip s) = Py.strip s.
Proof.
  apply strip_id.
  - intros c s' E. unfold Py.strip in E.
    destruct (Py.lstrip s) as [|x l] eqn:El; [discriminate|].
    apply lstrip_head in El.
    destruct (rstrip_head x l El) as [t Ht]. rewrite Ht in E.
    injection E as <- _. exact El.
  - intros c s' E. unfold Py.strip in E. eapply rstrip_last, E.
Qed.

Lemma replace_semicolon_cons c s :
  Py.replace (py ";") (py ",") (c :: s)
  = (if Py.eqc ";" c then ","%char else c)
      :: Py.replace (py ";") (py ",") s.
Proof.
  unfold Py.replace. cbn [Py.replace_go py list_ascii_of_string Py.startswith].
  rewrite andb_true_r. destruct (Py.eqc ";" c); reflexivity.
Qed.

(** The two replacements and the split of [split_authors] cut the line at
    the separators, read from the left. *)
Lemma split_replace_fields skip s :
  Py.split_char ","
    (Py.replace (py ";") (py ",") (Py.replace_go (py " and ") (py ",") skip s))
  = separator_fields skip s.
Proof.
  revert skip. induction s as [|c s IH]; intros skip; [reflexivity|].
  cbn [Py.replace_go separator_fields]. destruct skip as [|k]; [|apply IH].
  destruct (Py.startswith (py " and ") (c :: s)).
  - change (py "," ++ ?x) with (","%char :: x).
    rewrite replace_semicolon_cons.
    change (length (py " and ") - 1)%nat with 4%nat.
    change (Py.eqc ";" ",") with false. cbv iota.
    unfold Py.split_char in *. cbn [Py.fields].
    change (Py.eqc "," ",") with true. cbv iota. rewrite IH. reflexivity.
  - rewrite replace_semicolon_cons.
    unfold Py.split_char in *. cbn [Py.fields].
    rewrite (eqc_sym c ","), (eqc_sym c ";").
    destruct (Py.eqc ";" c) eqn:Esemi.
    + change (Py.eqc "," ",") with true. cbv iota.
      rewrite orb_true_r, IH. reflexivity.
    + rewrite orb_false_r. destruct (Py.eqc "," c); rewrite IH; reflexivity.
Qed.

Lemma split_authors_eq line : split_authors line = split_on_separators line.
Proof.
  unfold split_authors, split_on_separators, Py.replace at 2.
  rewrite split_replace_fields. reflexivity.
Qed.

Lemma split_authors_parts line part :
  In part (split_authors line) -> part <> [] /\ Py.strip part = part.
Proof.
  unfold split_authors. intros H.
  apply List.filter_In in H as [H Ht].
  apply List.in_map_iff in H as (x & <- & _). split.
  - intros E. rewrite E in Ht. discriminate.
  - apply strip_idempotent.
Qed.

Lemma labelled_authors_none lines :
  (forall l, In l lines -> Re.search authors_re l = None) ->
  labelled_authors lines = None.
Proof.
  induction lines as [|l lines IH]; intros H; [reflexivity|].
  cbn [labelled_authors]. rewrite (H l) by (left; reflexivity).
  apply IH. intros l' Hl'. apply H. right. exact Hl'.
Qed.

Lemma labelled_authors_first pre line post m :
  (forall l, In l pre -> Re.search authors_re l = None) ->
  Re.search authors_re line = Some m ->
  labelled_authors (pre ++ line :: post) = Some (split_authors (Re.group1 m)).
Proof.
  intros Hpre Hm. induction pre as [|l pre IH]; cbn [labelled_authors app].
  - rewrite Hm. reflexivity.
  - rewrite (Hpre l) by (left; reflexivity).
    apply IH. intros l' Hl'. apply Hpre. right. exact Hl'.
Qed.

End AuthorFacts.

(** C3 (as the code has it). The author line is cut at commas, semicolons
    and the five characters [" and "] in lower case, each part is trimmed and
    the empty parts are dropped: ["Jane Doe and John Smith"] gives two
    authors, ["Jane Doe AND John Smith"] one. The line is the remainder of
    the first of the first five lines that carries the label, and otherwise
    the second line when it has at most 120 characters. *)
Theorem split_authors_lowercase_and :
  (forall line, split_authors line = split_on_separators line)
  /\ (forall line part, In part (split_authors line) ->
        part <> [] /\ Py.strip part = part)
  /\ split_authors (py "Jane Doe and John Smith")
     = [py "Jane Doe"; py "John Smith"]
  /\ split_authors (py "Jane Doe AND John Smith")
     = [py "Jane Doe AND John Smith"]
  /\ extract_authors
       [py "A Study of Things";
        py "AUTHORS - Jane Doe, John Smith; Ann Lee and Bo Li"]
     = [py "Jane Doe"; py "John Smith"; py "Ann Lee"; py "Bo Li"]
  /\ (forall pre line post m,
        (length pre < 5)%nat ->
        (forall l, In l pre -> Re.search authors_re l = None) ->
        Re.search authors_re line = Some m ->
        extract_authors (pre ++ line :: post) = split_authors (Re.group1 m))
  /\ (forall lines second,
        (forall l, In l (take 5 lines) -> Re.search authors_re l = None) ->
        lines !! 1%nat = Some second ->
        (length second <= 120)%nat ->
        extract_authors lines = split_authors second).
Proof.
  split; [exact split_authors_eq|].
  split; [exact split_authors_parts|].
  do 3 (split; [reflexivity|]).
  split.
  - intros pre line post m Hlen Hpre Hm. unfold extract_authors.
    rewrite take_app, (take_ge pre) by lia.
    destruct (5 - length pre)%nat as [|k] eqn:E; [lia|]. cbn [take].
    rewrite (labelled_authors_first pre line _ m) by assumption. reflexivity.
  - intros lines second Hnone Hsecond Hlen. unfold extract_authors.
    rewrite labelled_authors_none by assumption. rewrite Hsecond.
    apply Nat.leb_le in Hlen. rewrite Hlen. reflexivity.
Qed.

Lemma split_authors_lowercase_and_witness :
  extract_authors [py "A Study of Things"; py "Jane Doe and John Smith"]
  = [py "Jane Doe"; py "John Smith"].
Proof.
  destruct split_authors_lowercase_and as (_ & _ & _ & _ & _ & _ & H).
  rewrite (H [py "A Study of Things"; py "Jane Doe and John Smith"]
             (py "Jane Doe and John Smith")).
  - reflexivity.
  - intros l [<-|[<-|[]]]; reflexivity.
  - reflexivity.
  - simpl. lia.
Defined.

(** C3 as the spec words it fails: the upper-case word is no separator,
    whichever of the two rules supplies the line. *)
Lemma uppercase_and_not_split :
  extract_authors [py "A Study of Things"; py "Jane Doe AND John Smith"]
    = [py "Jane Doe AND John Smith"]
  /\ extract_authors [py "Authors: Jane Doe AND John Smith"]
    = [py "Jane Doe AND John Smith"]
  /\ [py "Jane Doe AND John Smith"] <> [py "Jane Doe"; py "John Smith"].
Proof.
  split; [reflexivity|]. split; [reflexivity|]. discriminate.
Qed.

(* ================================================================== *)
(** * The matcher finds matches only *)

Section MatcherFacts.
Import Re.

Lemma star_sound greedy p k s pv ps g res :
  star greedy p k pv ps g s = Some res ->
  exists st', matches (Star greedy p) (MState pv s ps g) st' /\ k st' = Some res.
Proof.
  revert pv ps. induction s as [|c s IH]; intros pv ps; cbn [star].
  - intros H. eexists. split; [apply matches_star_stop | exact H].
  - destruct (p c) eqn:Hc.
    + assert (Hstep : star greedy p k (Some c) (S ps) g s = Some res ->
        exists st', matches (Star greedy p) (MState pv (c :: s) ps g) st'
                    /\ k st' = Some res).
      { intros H. apply IH in H as (st' & Hm & Hk).
        exists st'. split; [|exact Hk]. apply matches_star_step; assumption. }
      assert (Hstop : k (MState pv (c :: s) ps g) = Some res ->
        exists st', matches (Star greedy p) (MState pv (c :: s) ps g) st'
                    /\ k st' = Some res).
      { intros H. eexists. split; [apply matches_star_stop | exact H]. }
      destruct greedy.
      * destruct (star true p k (Some c) (S ps) g s) eqn:E.
        -- intros [= ->]. apply Hstep. reflexivity.
        -- exact Hstop.
      * destruct (k (MState pv (c :: s) ps g)) eqn:E.
        -- intros [= ->]. apply Hstop. reflexivity.
        -- exact Hstep.
    + intros H. eexists. split; [apply matches_star_stop | exact H].
Qed.

(** Soundness: a result of the matcher went through a match of the
    pattern. *)
Lemma rmatch_sound r st k res :
  rmatch r st k = Some res ->
  exists st', matches r st st' /\ k st' = Some res.
Proof.
  revert st k res. induction r as [p| |r1 IH1 r2 IH2|r1 IH1 r2 IH2|greedy p| |r IH];
    intros st k res; cbn [rmatch].
  - destruct st as [pv [|c s] ps g]; cbn [rest pos grp]; [discriminate|].
    destruct (p c) eqn:Hc; [|discriminate].
    intros H. eexists. split; [apply matches_chr, Hc | exact H].
  - intros H. exists st. split; [apply matches_eps | exact H].
  - intros H. apply IH1 in H as (st2 & H1 & H).
    apply IH2 in H as (st3 & H2 & H).
    exists st3. split; [eapply matches_seq; eassumption | exact H].
  - destruct (rmatch r1 st k) eqn:E.
    + intros [= ->]. apply IH1 in E as (st' & H1 & H).
      exists st'. split; [apply matches_alt_l, H1 | exact H].
    + intros H. apply IH2 in H as (st' & H2 & H).
      exists st'. split; [apply matches_alt_r, H2 | exact H].
  - destruct st as [pv s ps g]. cbn [prev rest pos grp]. apply star_sound.
  - destruct (at_boundary st) eqn:Hb; [|discriminate].
    intros H. exists st. split; [apply matches_wordb, Hb | exact H].
  - intros H. apply IH in H as (st' & H1 & H).
    eexists. split; [apply matches_group, H1 | exact H].
Qed.

(** A match consumes a piece of the text and advances the offset by its
    length. *)
Lemma matches_consumes r st st' :
  matches r st st' ->
  exists w, rest st = w ++ rest st' /\ pos st' = (pos st + length w)%nat.
Proof.
  induction 1 as [p c s pv ps g Hc|st|r1 r2 st1 st2 st3 _ IH1 _ IH2
                  |r1 r2 st st' _ IH|r1 r2 st st' _ IH|greedy p st
                  |greedy p c s pv ps g st' Hc _ IH|st Hb|r st st' _ IH];
    cbn [rest pos] in *.
  - exists [c]. split; [reflexivity | simpl; lia].
  - exists []. split; [reflexivity | simpl; lia].
  - destruct IH1 as (w1 & E1 & P1), IH2 as (w2 & E2 & P2).
    exists (w1 ++ w2). rewrite E1, E2, <- app_assoc, length_app.
    split; [reflexivity | lia].
  - exact IH.
  - exact IH.
  - exists []. split; [reflexivity | simpl; lia].
  - destruct IH as (w & E & P). exists (c :: w). rewrite E.
    split; [reflexivity | simpl; lia].
  - exists []. split; [reflexivity | simpl; lia].
  - exact IH.
Qed.

Lemma matches_aligned whole r st st' :
  matches r st st' -> aligned whole st -> aligned whole st'.
Proof.
  intros H Ha. apply matches_consumes in H as (w & E & P).
  unfold aligned in *. rewrite P, <- drop_drop, <- Ha, E.
  rewrite drop_app_length. reflexivity.
Qed.

(** A group around a pattern that takes at least one character captures a
    non-empty piece of the subject. *)
Lemma matches_group_plus whole greedy p st st' :
  matches (Group (plus greedy p)) st st' ->
  aligned whole st ->
  exists a b, grp st' = Some (a, b) /\ span whole a b <> [].
Proof.
  intros H Ha. inversion H as [| | | | | | | |r0 st0 st1 Hm]; subst.
  cbn [grp]. exists (pos st), (pos st1). split; [reflexivity|].
  unfold plus in Hm.
  inversion Hm as [| |r1 r2 s1 s2 s3 Hc Hs| | | | | |]; subst.
  inversion Hc; subst.
  apply matches_consumes in Hs as (w & _ & P).
  unfold span, aligned in *. cbn [rest pos] in *. rewrite <- Ha.
  replace (ps + 1 + length w - ps)%nat with (S (length w)) in * by lia.
  replace (pos st1 - ps)%nat with (S (length w)) by lia.
  discriminate.
Qed.

Lemma search_from_sound r whole pv ps s m :
  search_from r whole pv ps s = Some m ->
  s = drop ps whole ->
  exists st st',
    aligned whole st /\ matches r st st'
    /\ m = MatchObj whole (pos st) (pos st') (grp st').
Proof.
  revert pv ps. induction s as [|c s IH]; intros pv ps; cbn [search_from].
  - destruct (rmatch r _ Some) as [st'|] eqn:E; [|discriminate].
    intros [= <-] Hs. apply rmatch_sound in E as (st2 & Hm & [= ->]).
    eexists _, st'. split; [|split; [exact Hm | reflexivity]]. exact Hs.
  - destruct (rmatch r _ Some) as [st'|] eqn:E.
    + intros [= <-] Hs. apply rmatch_sound in E as (st2 & Hm & [= ->]).
      eexists _, st'. split; [|split; [exact Hm | reflexivity]]. exact Hs.
    + intros H Hs. apply (IH (Some c) (S ps) H).
      rewrite <- Nat.add_1_r, <- drop_drop, <- Hs. reflexivity.
Qed.

End MatcherFacts.

(* ================================================================== *)
(** * The heuristic extractor always returns *)

Section HeuristicTotal.
Import Re.

Lemma matches_seq_inv r1 r2 st st' :
  matches (Seq r1 r2) st st' ->
  exists st2, matches r1 st st2 /\ matches r2 st2 st'.
Proof. intros H. inversion H; subst. eauto. Qed.

(** The tail of the label patterns captures a non-empty remainder. *)
Lemma label_tail_group whole st st' :
  matches (seqs label_tail) st st' -> aligned whole st ->
  exists a b, grp st' = Some (a, b) /\ span whole a b <> [].
Proof.
  unfold label_tail. cbn [seqs]. intros H Ha.
  apply matches_seq_inv in H as (st1 & H1 & H).
  apply matches_seq_inv in H as (st2 & H2 & H).
  apply matches_seq_inv in H as (st3 & H3 & H).
  apply (matches_group_plus whole) in H; [exact H|].
  eapply matches_aligned; [exact H3|].
  eapply matches_aligned; [exact H2|].
  eapply matches_aligned; [exact H1 | exact Ha].
Qed.

Lemma keywords_re_group text m :
  search keywords_re text = Some m -> group1 m <> [].
Proof.
  intros H. apply search_from_sound in H as (st & st' & Ha & Hm & ->);
    [|reflexivity].
  change keywords_re with (Seq
    (Alt (Seq (liti "Keyword") (opt (Chr (isi "s"))))
         (Seq (liti "Index Term") (opt (Chr (isi "s")))))
    (seqs label_tail)) in Hm.
  apply matches_seq_inv in Hm as (st1 & H1 & H).
  apply (label_tail_group text) in H as (a & b & Hg & Hne);
    [|eapply matches_aligned; eassumption].
  unfold group1. cbn [m_grp subject]. rewrite Hg. exact Hne.
Qed.

Lemma authors_re_group line m :
  search authors_re line = Some m -> group1 m <> [].
Proof.
  intros H. apply search_from_sound in H as (st & st' & Ha & Hm & ->);
    [|reflexivity].
  change authors_re with (Seq (liti "Author")
    (Seq (opt (Chr (isi "s"))) (seqs label_tail))) in Hm.
  apply matches_seq_inv in Hm as (st1 & H1 & H).
  apply matches_seq_inv in H as (st2 & H2 & H).
  apply (label_tail_group line) in H as (a & b & Hg & Hne).
  - unfold group1. cbn [m_grp subject]. rewrite Hg. exact Hne.
  - eapply matches_aligned; [exact H2|].
    eapply matches_aligned; eassumption.
Qed.

Lemma splitlines_go_nonempty cur s :
  cur <> [] \/ s <> [] -> Py.splitlines_go cur s <> [].
Proof.
  revert cur. induction s as [|c s IH]; intros cur H; cbn [Py.splitlines_go].
  - destruct H as [H|H]; [|congruence]. destruct cur; [congruence|discriminate].
  - destruct (Py.eqc c "013").
    + destruct s as [|d s]; [discriminate|]. destruct (Py.eqc d "010"); discriminate.
    + destruct (Py.islinebreak c); [discriminate|].
      apply IH. left. discriminate.
Qed.

Lemma extract_keywords_returns text : exists l, extract_keywords text = Ok l.
Proof.
  unfold extract_keywords.
  destruct (search keywords_re text) as [m|] eqn:E; [|eauto].
  apply keywords_re_group in E.
  destruct (Py.splitlines (group1 m)) as [|line rest] eqn:El; [|eauto].
  exfalso. revert El. apply splitlines_go_nonempty. right. exact E.
Qed.

(** The heuristic extractor returns a record for every text. *)
Lemma extract_metadata_returns text : exists m, extract_metadata text = Ok m.
Proof.
  unfold extract_metadata.
  destruct (extract_keywords_returns text) as [l ->]. cbn [bind]. eauto.
Qed.

End HeuristicTotal.

(* ================================================================== *)
(** * The records of the two extractors *)

Section RecordFacts.

Lemma grobid_record_inv root m :
  grobid_record root = Ok m ->
  exists year publication_date,
    extract_dates root = Ok (year, publication_date)
    /\ m !! "year" = Some (of_opt_int year)
    /\ m !! "publication_date" = Some (of_opt_date publication_date)
    /\ m !! "authors" = Some (list_or_none (al_authors (collect_authors root)))
    /\ m !! "affiliations"
       = Some (list_or_none (sorted_set (al_affiliations (collect_authors root))))
    /\ m !! "countries"
       = Some (list_or_none (sorted_set (al_countries (collect_authors root))))
    /\ m !! "keywords" = Some (list_or_none (collect_keywords root))
    /\ m !! "raw_text_snippet" = None
    /\ m <> ∅.
Proof.
  unfold grobid_record.
  destruct (extract_dates root) as [[year publication_date]|e] eqn:E;
    [|discriminate].
  cbn [bind fst snd]. intros [= <-].
  exists year, publication_date.
  split; [reflexivity|].
  repeat (split; [reflexivity|]).
  apply insert_non_empty.
Qed.

Lemma extract_metadata_inv text m :
  extract_metadata text = Ok m ->
  exists keywords,
    extract_keywords text = Ok keywords
    /\ m !! "year" = Some (of_opt_int (extract_year text))
    /\ m !! "publication_date" = Some VNone
    /\ m !! "authors" <> Some (VList [])
    /\ m !! "affiliations" = Some VNone
    /\ m !! "countries" = Some VNone
    /\ m !! "keywords" = Some (list_or_none keywords).
Proof.
  unfold extract_metadata.
  destruct (extract_keywords text) as [keywords|e]; [|discriminate].
  cbn [bind]. intros [= <-]. exists keywords.
  split; [reflexivity|].
  repeat (split; [reflexivity|]).
  split; [|split; [reflexivity|split; reflexivity]].
  match goal with
  | |- ?m !! "authors" <> _ =>
      change (m !! "authors") with (Some (list_or_none (extract_authors
        (map Py.strip
           (List.filter (fun line => Py.truthy (Py.strip line))
              (Py.splitlines text))))))
  end.
  destruct (extract_authors _); discriminate.
Qed.

Section WithParser.
Variable fromstring : str -> option ET.Element.

Lemma extract_metadata_grobid_none posted r :
  extract_metadata_grobid fromstring posted = Ok r ->
  (r = None <-> no_result fromstring posted).
Proof.
  unfold extract_metadata_grobid, no_result.
  destruct posted as [status_code text|e].
  - destruct (raises_for_status status_code).
    + intros [= <-]. tauto.
    + destruct (fromstring text) as [root|].
      * destruct (grobid_record root); [|discriminate].
        cbn [bind]. intros [= <-].
        split; [discriminate|]. intros [?|?]; discriminate.
      * intros [= <-]. tauto.
  - destruct (is_RequestException e); [|discriminate].
    intros [= <-]. tauto.
Qed.

Lemma extract_metadata_grobid_truthy posted m :
  extract_metadata_grobid fromstring posted = Ok (Some m) ->
  dict_truthy m = true
  /\ exists status_code text root,
       posted = Response status_code text
       /\ fromstring text = Some root /\ grobid_record root = Ok m.
Proof.
  unfold extract_metadata_grobid.
  destruct posted as [status_code text|e].
  - destruct (raises_for_status status_code); [discriminate|].
    destruct (fromstring text) as [root|] eqn:Ef; [|discriminate].
    destruct (grobid_record root) as [m'|] eqn:Er; [|discriminate].
    cbn [bind]. intros [= <-]. split; [|eauto 6].
    apply grobid_record_inv in Er as (_ & _ & _ & _ & _ & _ & _ & _ & _ & _ & Hne).
    unfold dict_truthy. rewrite bool_decide_eq_false_2 by exact Hne. reflexivity.
  - destruct (is_RequestException e); discriminate.
Qed.

(** What the selector of [main] does with the outcome of the structured
    call. *)
Lemma select_metadata_structured text posted r :
  extract_metadata_grobid fromstring posted = Ok r ->
  select_metadata fromstring true text posted =
    match r with
    | Some m => Ok (Structured, m)
    | None => m <-- extract_metadata text ;;; Ok (Heuristic, m)
    end.
Proof.
  intros H. unfold select_metadata. rewrite H. cbn [bind].
  destruct r as [m|]; [|reflexivity].
  apply extract_metadata_grobid_truthy in H as [H _].
  cbn [metadata_truthy]. rewrite H. reflexivity.
Qed.

Lemma select_metadata_heuristic text posted :
  select_metadata fromstring false text posted =
    (m <-- extract_metadata text ;;; Ok (Heuristic, m)).
Proof. reflexivity. Qed.

End WithParser.

End RecordFacts.

Lemma grobid_record_empty_tei : grobid_record empty_tei = Ok absent_record.
Proof. reflexivity. Qed.

(** C1. When the availability check succeeded with the service enabled and
    the structured call returned, the document gets its record, and that
    record is the one of the heuristic extractor exactly when the structured
    call returned no result, which it does exactly on a transport failure,
    a status of the 4xx or 5xx class or a body that does not parse; a
    structured record is used as it is, also the one whose fields are all
    absent. *)
Theorem heuristic_fallback_iff_no_result :
  (forall fromstring no_grobid probe opened posted text r,
      use_grobid no_grobid probe = Ok true ->
      extract_text_from_pdf opened 2 = Ok text ->
      extract_metadata_grobid fromstring posted = Ok r ->
      no_grobid = false
      /\ (r = None <-> no_result fromstring posted)
      /\ exists sel,
           process_document fromstring true opened posted = Ok sel
           /\ (fst sel = Heuristic <-> r = None)
           /\ (forall m, r = Some m ->
                 sel = (Structured, attach_snippet text m))
           /\ (r = None ->
                 exists m, extract_metadata text = Ok m
                           /\ sel = (Heuristic, attach_snippet text m)))
  /\ (grobid_record empty_tei = Ok absent_record
      /\ (forall k v, absent_record !! k = Some v -> v = VNone)
      /\ forall opened text body,
           extract_text_from_pdf opened 2 = Ok text ->
           process_document (fun _ => Some empty_tei) true opened
             (Response 200 body)
           = Ok (Structured, attach_snippet text absent_record)).
Proof.
  split.
  - intros fromstring no_grobid probe opened posted text r Hu Ht Hr.
    split; [destruct no_grobid; [discriminate Hu | reflexivity]|].
    split; [apply extract_metadata_grobid_none, Hr|].
    unfold process_document. rewrite Ht. cbn [bind].
    rewrite (select_metadata_structured fromstring text posted r Hr).
    destruct r as [m|].
    + eexists. split; [reflexivity|]. cbn [fst snd].
      split; [split; discriminate|]. split; [|discriminate].
      intros m' [= <-]. reflexivity.
    + destruct (extract_metadata_returns text) as [m ->].
      eexists. split; [reflexivity|]. cbn [fst snd].
      split; [tauto|]. split; [discriminate|]. eauto.
  - split; [exact grobid_record_empty_tei|]. split.
    + change (map_Forall (fun _ v => v = VNone) absent_record).
      unfold absent_record.
      repeat (apply map_Forall_insert_2; [reflexivity|]).
      apply map_Forall_empty.
    + intros opened text body Ht. unfold process_document. rewrite Ht.
      cbn [bind].
      rewrite (select_metadata_structured _ text _ (Some absent_record)).
      * reflexivity.
      * unfold extract_metadata_grobid.
        change (raises_for_status 200) with false. cbv iota.
        rewrite grobid_record_empty_tei. reflexivity.
Qed.

Lemma heuristic_fallback_iff_no_result_witness :
  exists sel,
    process_document (fun _ => None) true (Raise PdfReadError)
      (Response 200 (py "not xml")) = Ok sel
    /\ fst sel = Heuristic.
Proof.
  destruct (proj1 heuristic_fallback_iff_no_result (fun _ => None) false
              (Response 200 []) (Raise PdfReadError)
              (Response 200 (py "not xml")) [] None
              eq_refl eq_refl eq_refl)
    as (_ & _ & sel & Hp & Hh & _).
  exists sel. split; [exact Hp|]. apply Hh. reflexivity.
Defined.

(* ================================================================== *)
(** * The record handed to the writer *)

Section FinalRecord.
Variable fromstring : str -> option ET.Element.

Lemma process_document_inv use opened posted sel :
  process_document fromstring use opened posted = Ok sel ->
  exists text m,
    extract_text_from_pdf opened 2 = Ok text
    /\ select_metadata fromstring use text posted = Ok (fst sel, m)
    /\ snd sel = attach_snippet text m.
Proof.
  unfold process_document.
  destruct (extract_text_from_pdf opened 2) as [text|] eqn:Et;
    [|discriminate].
  cbn [bind].
  destruct (select_metadata fromstring use text posted) as [[src m]|] eqn:Es;
    [|discriminate].
  cbn [bind fst snd]. intros [= <-]. exists text, m.
  split; [reflexivity | split; [exact Es | reflexivity]].
Qed.

(** The record that the selector returns comes from one of the two
    extractors. *)
Lemma select_metadata_inv use text posted src m :
  select_metadata fromstring use text posted = Ok (src, m) ->
  (src = Structured /\ use = true
   /\ extract_metadata_grobid fromstring posted = Ok (Some m))
  \/ (src = Heuristic /\ extract_metadata text = Ok m).
Proof.
  destruct use.
  - destruct (extract_metadata_grobid fromstring posted) as [r|] eqn:E.
    + rewrite (select_metadata_structured fromstring text posted r E).
      destruct r as [m'|].
      * intros [= <- <-]. left. auto.
      * destruct (extract_metadata text); [|discriminate].
        intros [= <- <-]. right. auto.
    + unfold select_metadata. rewrite E. discriminate.
  - rewrite select_metadata_heuristic.
    destruct (extract_metadata text); [|discriminate].
    intros [= <- <-]. right. auto.
Qed.

Lemma attach_snippet_lookup text m :
  attach_snippet text m !! "raw_text_snippet"
  = Some (if Py.truthy text then VStr (Py.strip (take 500 text)) else VNone).
Proof.
  unfold attach_snippet, snippet. rewrite lookup_insert_eq.
  destruct (Py.truthy text); reflexivity.
Qed.

Lemma attach_snippet_frame text m k :
  k <> "raw_text_snippet" -> attach_snippet text m !! k = m !! k.
Proof. intros Hk. unfold attach_snippet. apply lookup_insert_ne. congruence. Qed.

End FinalRecord.

(** C8 (as the code has it). For every processed document the snippet field
    of the record is overwritten with the first 500 characters of the
    extracted text with leading and trailing whitespace removed, and with no
    value when the text is empty, whichever extractor produced the record;
    every other field is that extractor's. *)
Theorem snippet_overwrite_frame fromstring use opened posted sel :
  process_document fromstring use opened posted = Ok sel ->
  exists text m,
    extract_text_from_pdf opened 2 = Ok text
    /\ select_metadata fromstring use text posted = Ok (fst sel, m)
    /\ snd sel !! "raw_text_snippet"
       = Some (if Py.truthy text then VStr (Py.strip (take 500 text))
               else VNone)
    /\ forall k, k <> "raw_text_snippet" -> snd sel !! k = m !! k.
Proof.
  intros H. apply process_document_inv in H as (text & m & Ht & Hs & ->).
  exists text, m. split; [exact Ht|]. split; [exact Hs|]. split.
  - apply attach_snippet_lookup.
  - intros k Hk. apply attach_snippet_frame, Hk.
Qed.

Lemma snippet_overwrite_frame_witness :
  snd padded_record !! "raw_text_snippet" = Some (VStr (py "abc"))
  /\ snd padded_record !! "title" = Some (VStr (py "abc")).
Proof.
  destruct (snippet_overwrite_frame (fun _ => None) false padded_pdf
              (HttpRaises RequestException) padded_record eq_refl)
    as (text & m & Ht & Hs & Hsnip & Hframe).
  injection Ht as <-. split.
  - exact Hsnip.
  - rewrite Hframe by discriminate. injection Hs as <-. reflexivity.
Defined.

(** C8 as the spec words it fails: the snippet of the text [" abc"] is
    ["abc"], which is not the first 500 characters of that text. *)
Lemma snippet_is_not_the_prefix :
  extract_text_from_pdf padded_pdf 2 = Ok (py " abc")
  /\ process_document (fun _ => None) false padded_pdf
       (HttpRaises RequestException) = Ok padded_record
  /\ snd padded_record !! "raw_text_snippet" = Some (VStr (py "abc"))
  /\ snd padded_record !! "raw_text_snippet"
     <> Some (VStr (take 500 (py " abc"))).
Proof.
  split; [reflexivity|]. split; [reflexivity|]. split; [reflexivity|].
  discriminate.
Qed.

Section ListFields.
Variable fromstring : str -> option ET.Element.

Lemma list_or_none_nonempty l : list_or_none l <> VList [].
Proof. destruct l; discriminate. Qed.

(** The list fields of the record handed to the writer are absent or
    non-empty. *)
Lemma list_fields_never_empty use opened posted sel k :
  process_document fromstring use opened posted = Ok sel ->
  In k ["authors"; "affiliations"; "countries"; "keywords"] ->
  snd sel !! k <> Some (VList []).
Proof.
  intros H Hk. apply process_document_inv in H as (text & m & _ & Hs & ->).
  rewrite attach_snippet_frame
    by (intros ->; repeat destruct Hk as [Hk|Hk]; discriminate || easy).
  destruct (fst sel) eqn:Esrc;
    apply select_metadata_inv in Hs as [(Hsrc & _ & Hg)|(Hsrc & Hh)];
    try discriminate.
  - apply extract_metadata_grobid_truthy in Hg
      as (_ & code & body & root & _ & _ & Hr).
    apply grobid_record_inv in Hr
      as (y & d & _ & _ & _ & Hau & Haf & Hco & Hkw & _).
    destruct Hk as [<-|[<-|[<-|[<-|[]]]]];
      rewrite ?Hau, ?Haf, ?Hco, ?Hkw; intros [= E];
      eapply list_or_none_nonempty, E.
  - apply extract_metadata_inv in Hh
      as (kw & _ & _ & _ & Hau & Haf & Hco & Hkw).
    destruct Hk as [<-|[<-|[<-|[<-|[]]]]];
      rewrite ?Haf, ?Hco, ?Hkw; try discriminate; try exact Hau.
    intros [= E]. eapply list_or_none_nonempty, E.
Qed.

End ListFields.

(** C6, where the code departs from it. A page whose text is one space
    gives a record whose snippet is the empty string, and a response whose
    title node is empty gives a record whose title is the empty string. *)
Theorem empty_string_fields :
  extract_text_from_pdf blank_pdf 2 = Ok (py " ")
  /\ process_document (fun _ => None) false blank_pdf
       (HttpRaises RequestException) = Ok blank_record
  /\ fst blank_record = Heuristic
  /\ snd blank_record !! "raw_text_snippet" = Some (VStr [])
  /\ process_document (fun _ => Some untitled_tei) true (Raise PdfReadError)
       (Response 200 []) = Ok untitled_record
  /\ fst untitled_record = Structured
  /\ snd untitled_record !! "title" = Some (VStr []).
Proof. repeat (split; [reflexivity|]). reflexivity. Qed.

(* ================================================================== *)
(** * Year and publication date *)

Section Dates.

Lemma publication_stmt_loop_date dates year0 year d :
  publication_stmt_loop dates year0 None = Ok (year, Some d) ->
  year = Some (date_year d).
Proof.
  revert year0. induction dates as [|date_el dates IH]; intros year0.
  - discriminate.
  - cbn [publication_stmt_loop].
    destruct (parse_publication_date (date_source date_el)) as [[d'|]|];
      cbn [bind]; [intros [= <- <-]; reflexivity | | discriminate].
    repeat match goal with
           | |- context [if ?t then _ else _] => destruct t
           end; try discriminate; apply IH.
Qed.

Lemma imprint_loop_date dates year0 year d :
  imprint_loop dates year0 None = Ok (year, Some d) ->
  year = Some (date_year d).
Proof.
  induction dates as [|date_el dates IH]; [discriminate|].
  cbn [imprint_loop].
  destruct (parse_publication_date (date_source date_el)) as [[d'|]|];
    cbn [bind]; [intros [= <- <-]; reflexivity | exact IH | discriminate].
Qed.

Lemma extract_dates_year root year d :
  extract_dates root = Ok (year, Some d) -> year = Some (date_year d).
Proof.
  unfold extract_dates.
  destruct (publication_stmt_loop _ None None) as [[y1 [d1|]]|] eqn:E;
    cbn [bind snd fst]; [| |discriminate].
  - intros [= <- <-]. eapply publication_stmt_loop_date, E.
  - apply imprint_loop_date.
Qed.

End Dates.

(** C7. In the record of either extractor, and in the record handed to the
    writer, a year and a publication date that are both set agree: the year
    is the year of the date. So it is for the response whose publication
    statement gave the bare year 2020 before its imprint gave the date
    2021-05-06: the record has the year 2021. *)
Theorem year_is_year_of_publication_date :
  (forall fromstring use text posted src m y d,
      select_metadata fromstring use text posted = Ok (src, m) ->
      m !! "year" = Some (VInt y) ->
      m !! "publication_date" = Some (VDate d) ->
      y = date_year d)
  /\ (forall fromstring use opened posted sel y d,
      process_document fromstring use opened posted = Ok sel ->
      snd sel !! "year" = Some (VInt y) ->
      snd sel !! "publication_date" = Some (VDate d) ->
      y = date_year d)
  /\ (publication_stmt_loop (publication_stmt_dates imprint_date_tei) None None
        = Ok (Some 2020, None)
      /\ extract_dates imprint_date_tei
         = Ok (Some 2021, Some (Date 2021 5 6))).
Proof.
  assert (Hsel : forall fromstring use text posted src m y d,
      select_metadata fromstring use text posted = Ok (src, m) ->
      m !! "year" = Some (VInt y) ->
      m !! "publication_date" = Some (VDate d) ->
      y = date_year d).
  { intros fromstring use text posted src m y d Hs Hy Hd.
    apply select_metadata_inv in Hs as [(_ & _ & Hg)|(_ & Hh)].
    - apply extract_metadata_grobid_truthy in Hg
        as (_ & code & body & root & _ & _ & Hr).
      apply grobid_record_inv in Hr as (year & pd & He & Hy' & Hd' & _).
      rewrite Hy' in Hy. rewrite Hd' in Hd.
      destruct pd as [d'|]; [|discriminate]. injection Hd as ->.
      apply extract_dates_year in He. subst year. injection Hy as <-.
      reflexivity.
    - apply extract_metadata_inv in Hh as (kw & _ & _ & Hd' & _).
      rewrite Hd' in Hd. discriminate. }
  split; [exact Hsel|]. split.
  - intros fromstring use opened posted sel y d Hp Hy Hd.
    apply process_document_inv in Hp as (text & m & _ & Hs & E).
    rewrite E in Hy, Hd.
    rewrite attach_snippet_frame in Hy, Hd by discriminate.
    eapply Hsel; eassumption.
  - split; reflexivity.
Qed.

Lemma year_is_year_of_publication_date_witness :
  snd imprint_date_record !! "year" = Some (VInt 2021)
  /\ snd imprint_date_record !! "publication_date"
     = Some (VDate (Date 2021 5 6))
  /\ (2021 : Z) = date_year (Date 2021 5 6).
Proof.
  split; [reflexivity|]. split; [reflexivity|].
  exact (proj1 (proj2 year_is_year_of_publication_date)
           (fun _ => Some imprint_date_tei) true (Raise PdfReadError)
           (Response 200 []) imprint_date_record
           2021 (Date 2021 5 6) eq_refl eq_refl eq_refl).
Defined.

(* ================================================================== *)
(** * The order of strings and [sorted(set(...))] *)

Section StringOrder.

Lemma code_inj a b : Py.code a = Py.code b -> a = b.
Proof.
  unfold Py.code. intros H.
  rewrite <- (ascii_N_embedding a), <- (ascii_N_embedding b), H. reflexivity.
Qed.

Lemma ltb_irrefl a : Py.ltb a a = false.
Proof.
  induction a as [|x a IH]; [reflexivity|]. cbn [Py.ltb].
  rewrite N.ltb_irrefl, N.eqb_refl, IH. reflexivity.
Qed.

Lemma ltb_cons x a y b :
  Py.ltb (x :: a) (y :: b) = true <->
  (Py.code x < Py.code y)%N \/ (Py.code x = Py.code y /\ Py.ltb a b = true).
Proof.
  cbn [Py.ltb].
  rewrite orb_true_iff, andb_true_iff, N.ltb_lt, N.eqb_eq. reflexivity.
Qed.

Lemma ltb_trans a b c :
  Py.ltb a b = true -> Py.ltb b c = true -> Py.ltb a c = true.
Proof.
  revert b c. induction a as [|x a IH]; intros [|y b] [|z c];
    try discriminate; try reflexivity.
  rewrite !ltb_cons. intros [H1|[H1 H1']] [H2|[H2 H2']].
  - left. lia.
  - left. lia.
  - left. lia.
  - right. split; [lia|]. eapply IH; eassumption.
Qed.

Lemma ltb_trichotomy a b :
  Py.ltb a b = false -> Py.ltb b a = false -> a = b.
Proof.
  revert b. induction a as [|x a IH]; intros [|y b];
    try discriminate; try reflexivity.
  cbn [Py.ltb]. rewrite !orb_false_iff, !andb_false_iff.
  rewrite !N.ltb_ge, !N.eqb_neq.
  intros [H1 H1'] [H2 H2'].
  assert (Hc : Py.code x = Py.code y) by lia.
  apply code_inj in Hc. subst y. f_equal.
  apply IH; [destruct H1' | destruct H2']; congruence.
Qed.

#[local] Instance str_le_total : Total str_le.
Proof.
  intros a b. unfold str_le, Py.leb.
  destruct (Py.ltb b a) eqn:E1; [|left; reflexivity].
  right. destruct (Py.ltb a b) eqn:E2; [|reflexivity].
  pose proof (ltb_trans a b a E2 E1) as H. rewrite ltb_irrefl in H.
  discriminate.
Qed.

#[local] Instance str_le_trans : Transitive str_le.
Proof.
  intros a b c. unfold str_le, Py.leb. rewrite !negb_true_iff.
  intros Hba Hcb. destruct (Py.ltb c a) eqn:Hca; [|reflexivity].
  destruct (Py.ltb a b) eqn:Hab.
  - rewrite (ltb_trans c a b Hca Hab) in Hcb. discriminate.
  - rewrite (ltb_trichotomy a b Hab Hba) in Hca. congruence.
Qed.

Lemma str_le_lt a b : str_le a b -> a <> b -> str_lt a b.
Proof.
  unfold str_le, str_lt, Py.leb. rewrite negb_true_iff. intros Hba Hne.
  destruct (Py.ltb a b) eqn:Hab; [reflexivity|].
  destruct Hne. apply ltb_trichotomy; assumption.
Qed.

Lemma StronglySorted_strict (l : list str) :
  StronglySorted str_le l -> NoDup l -> StronglySorted str_lt l.
Proof.
  induction 1 as [|a l Hl IH Ha]; intros Hnd; [constructor|].
  apply NoDup_cons in Hnd as [Hnotin Hnd].
  constructor; [apply IH, Hnd|].
  rewrite List.Forall_forall in Ha |- *. intros x Hx.
  apply str_le_lt; [apply Ha, Hx|].
  intros ->. apply Hnotin. apply list_elem_of_In, Hx.
Qed.

(** [sorted(set(l))] is strictly increasing and has the elements of
    [l]. *)
Lemma sorted_set_spec (l : list str) :
  StronglySorted str_lt (sorted_set l)
  /\ forall x, In x (sorted_set l) <-> In x l.
Proof.
  unfold sorted_set.
  pose proof (merge_sort_Permutation str_le (remove_dups l)) as Hp.
  split.
  - apply StronglySorted_strict.
    + apply StronglySorted_merge_sort; apply _.
    + rewrite Hp. apply NoDup_remove_dups.
  - intros x. rewrite <- !list_elem_of_In, Hp. apply elem_of_remove_dups.
Qed.

End StringOrder.

Section SortedSetFacts.

Lemma str_lt_irrefl a : ~ str_lt a a.
Proof. unfold str_lt. rewrite ltb_irrefl. discriminate. Qed.

Lemma str_lt_asym a b : str_lt a b -> str_lt b a -> False.
Proof.
  unfold str_lt. intros H1 H2. pose proof (ltb_trans a b a H1 H2) as H.
  rewrite ltb_irrefl in H. discriminate.
Qed.

(** A strictly increasing list is determined by its elements. *)
Lemma StronglySorted_str_lt_unique (l1 l2 : list str) :
  StronglySorted str_lt l1 -> StronglySorted str_lt l2 ->
  (forall x, In x l1 <-> In x l2) -> l1 = l2.
Proof.
  intros H1. revert l2. induction H1 as [|a l1 Hs1 IH Ha]; intros l2 H2 Hm.
  - destruct l2 as [|b l2]; [reflexivity|].
    destruct (proj2 (Hm b) (or_introl eq_refl)).
  - destruct H2 as [|b l2 Hs2 Hb];
      [destruct (proj1 (Hm a) (or_introl eq_refl))|].
    rewrite List.Forall_forall in Ha, Hb.
    assert (Eab : a = b).
    { destruct (proj1 (Hm a) (or_introl eq_refl)) as [E|Hin]; [auto|].
      destruct (proj2 (Hm b) (or_introl eq_refl)) as [E|Hin']; [auto|].
      destruct (str_lt_asym a b); [apply Ha, Hin' | apply Hb, Hin]. }
    subst b. f_equal. apply IH; [exact Hs2|].
    intros x. split; intros Hx.
    + destruct (proj1 (Hm x) (or_intror Hx)) as [E|Hin]; [|exact Hin].
      subst x. destruct (str_lt_irrefl a). apply Ha, Hx.
    + destruct (proj2 (Hm x) (or_intror Hx)) as [E|Hin]; [|exact Hin].
      subst x. destruct (str_lt_irrefl a). apply Hb, Hx.
Qed.

(** [sorted(set(l))] depends on the set of the elements of [l] only. *)
Lemma sorted_set_members (l l' : list str) :
  (forall x, In x l <-> In x l') -> sorted_set l = sorted_set l'.
Proof.
  intros H. destruct (sorted_set_spec l) as [Hs Hm].
  destruct (sorted_set_spec l') as [Hs' Hm'].
  apply StronglySorted_str_lt_unique; [exact Hs | exact Hs'|].
  intros x. rewrite Hm, Hm'. apply H.
Qed.

Lemma sorted_set_nil (l : list str) : sorted_set l = [] <-> l = [].
Proof.
  destruct (sorted_set_spec l) as [_ Hm]. split.
  - intros E. destruct l as [|a l]; [reflexivity|].
    pose proof (proj2 (Hm a) (or_introl eq_refl)) as Hin.
    rewrite E in Hin. destruct Hin.
  - intros ->. reflexivity.
Qed.

(** What the structured record stores under a key whose value is
    [sorted(set(collected)) or None]. *)
Lemma stored_sorted_set (m : gmap string value) key collected :
  m !! key = Some (list_or_none (sorted_set collected)) ->
  (collected = [] -> m !! key = Some VNone)
  /\ (collected <> [] ->
      exists l,
        m !! key = Some (VList l)
        /\ l = sorted_set collected
        /\ StronglySorted str_lt l
        /\ forall x, In x l <-> In x collected).
Proof.
  intros H. split.
  - intros ->. exact H.
  - intros Hne. exists (sorted_set collected).
    split; [|split; [reflexivity | apply sorted_set_spec]].
    rewrite H. destruct (sorted_set collected) eqn:E; [|reflexivity].
    destruct (Hne (proj1 (sorted_set_nil collected) E)).
Qed.

End SortedSetFacts.

(** C9. A record of the structured path stores, under the affiliations and
    under the countries, nothing when no value was collected and otherwise
    the list of the distinct collected values in strictly increasing order:
    no value twice, none lost, none added. The stored list depends on the
    set of the collected values only, not on their order or their number:
    whenever the collected values are ["MIT"], ["MIT"] and ["Stanford"], in
    any order and any number of times, the record stores ["MIT"],
    ["Stanford"]. *)
Theorem affiliations_countries_sorted_set :
  (forall root m key collected,
      grobid_record root = Ok m ->
      (key = "affiliations"
       /\ collected = al_affiliations (collect_authors root))
      \/ (key = "countries"
          /\ collected = al_countries (collect_authors root)) ->
      (collected = [] -> m !! key = Some VNone)
      /\ (collected <> [] ->
          exists l,
            m !! key = Some (VList l)
            /\ l = sorted_set collected
            /\ StronglySorted str_lt l
            /\ forall x, In x l <-> In x collected))
  /\ (forall collected collected' : list str,
        (forall x, In x collected <-> In x collected') ->
        sorted_set collected = sorted_set collected')
  /\ (forall root m key collected,
        grobid_record root = Ok m ->
        (key = "affiliations"
         /\ collected = al_affiliations (collect_authors root))
        \/ (key = "countries"
            /\ collected = al_countries (collect_authors root)) ->
        (forall x, In x collected
                   <-> In x [py "MIT"; py "MIT"; py "Stanford"]) ->
        m !! key = Some (VList [py "MIT"; py "Stanford"])).
Proof.
  assert (Hstored : forall root m key collected,
             grobid_record root = Ok m ->
             (key = "affiliations"
              /\ collected = al_affiliations (collect_authors root))
             \/ (key = "countries"
                 /\ collected = al_countries (collect_authors root)) ->
             m !! key = Some (list_or_none (sorted_set collected))).
  { intros root m key collected Hr Hkey.
    apply grobid_record_inv in Hr as (_ & _ & _ & _ & _ & _ & Haf & Hco & _).
    destruct Hkey as [[-> ->]|[-> ->]]; assumption. }
  split; [|split].
  - intros root m key collected Hr Hkey.
    apply stored_sorted_set. eapply Hstored; eassumption.
  - exact sorted_set_members.
  - intros root m key collected Hr Hkey Hm.
    rewrite (Hstored root m key collected Hr Hkey).
    rewrite (sorted_set_members collected
               [py "MIT"; py "MIT"; py "Stanford"] Hm).
    reflexivity.
Qed.

Lemma affiliations_countries_sorted_set_witness :
  match grobid_record affiliated_tei with
  | Ok m => m
  | Raise _ => ∅
  end !! "affiliations" = Some (VList [py "MIT"; py "Stanford"])
  /\ al_affiliations (collect_authors affiliated_tei)
     = [py "Stanford"; py "MIT"; py "MIT"].
Proof.
  split; [|reflexivity].
  destruct (proj1 affiliations_countries_sorted_set affiliated_tei
              (match grobid_record affiliated_tei with
               | Ok m => m
               | Raise _ => ∅
               end)
              "affiliations"
              (al_affiliations (collect_authors affiliated_tei)) eq_refl
              (or_introl (conj eq_refl eq_refl)))
    as [_ H].
  destruct (H ltac:(discriminate)) as (l & Hl & El & _).
  rewrite Hl, El. reflexivity.
Defined.


(* ================================================================== *)
(** * The search for the publication date *)

Section DateSearch.





End DateSearch.




(* ================================================================== *)
(** * The text extractor *)

Section TextExtractor.

Lemma text_chunks_readable ps :
  pages_readable ps -> text_chunks ps = Ok (page_texts ps).
Proof.
  induction ps as [|p ps IH]; intros H; [reflexivity|].
  destruct (H p (or_introl eq_refl)) as [t ->].
  cbn [text_chunks bind]. rewrite IH by (intros q Hq; apply H; right; exact Hq).
  cbn [bind]. unfold page_texts. cbn [flat_map].
  destruct t as [[|c t]|]; reflexivity.
Qed.

Lemma text_chunks_raises ps e :
  text_chunks ps = Raise e ->
  exists pre post,
    ps = pre ++ Page (Raise e) :: post /\ pages_readable pre.
Proof.
  induction ps as [|[[t|e']] ps IH]; [discriminate| |].
  - cbn [text_chunks bind].
    destruct (text_chunks ps) as [chunks|e''] eqn:E; [discriminate|].
    cbn [bind]. intros [= ->].
    destruct (IH eq_refl) as (pre & post & -> & Hpre).
    exists (Page (Ok t) :: pre), post. split; [reflexivity|].
    intros q [<-|Hq]; [eauto | apply Hpre, Hq].
  - cbn [text_chunks bind]. intros [= ->].
    exists [], ps. split; [reflexivity|]. intros q [].
Qed.

End TextExtractor.

(** C2 (as the code has it). The text extractor returns the empty string
    when the construction of the reader raises the read error of the PDF
    library, and the texts of the first pages of the limit that are not
    empty, joined by newlines, when the reader is constructed and those
    pages yield their text. It raises exactly what the construction raises
    otherwise, what listing the pages raises, or what the first page of
    those that fails raises. *)
Theorem extract_text_from_pdf_outcomes opened max_pages :
  (forall e, opened = Raise e -> is_PdfReadError e = true ->
     extract_text_from_pdf opened max_pages = Ok [])
  /\ (forall ps, opened = Ok (Reader (Ok ps)) ->
        pages_readable (Py.slice_to max_pages ps) ->
        extract_text_from_pdf opened max_pages
        = Ok (Py.join (py (String "010" ""))
                (page_texts (Py.slice_to max_pages ps))))
  /\ (forall e, extract_text_from_pdf opened max_pages = Raise e <->
        (opened = Raise e /\ is_PdfReadError e = false)
        \/ opened = Ok (Reader (Raise e))
        \/ exists ps pre post,
             opened = Ok (Reader (Ok ps))
             /\ Py.slice_to max_pages ps = pre ++ Page (Raise e) :: post
             /\ pages_readable pre).
Proof.
  split; [|split].
  - intros e -> He. cbn [extract_text_from_pdf]. rewrite He. reflexivity.
  - intros ps -> Hps. cbn [extract_text_from_pdf bind].
    rewrite text_chunks_readable by exact Hps. reflexivity.
  - intros e. split.
    + destruct opened as [[[ps|e']]|e']; cbn [extract_text_from_pdf bind].
      * destruct (text_chunks _) as [chunks|e''] eqn:E; [discriminate|].
        cbn [bind]. intros [= ->].
        apply text_chunks_raises in E as (pre & post & E & Hpre).
        right. right. exists ps, pre, post. auto.
      * intros [= ->]. right. left. reflexivity.
      * destruct (is_PdfReadError e') eqn:E; [discriminate|].
        intros [= ->]. left. auto.
    + intros [[-> He]|[->|(ps & pre & post & -> & Hs & Hpre)]];
        cbn [extract_text_from_pdf bind].
      * rewrite He. reflexivity.
      * reflexivity.
      * rewrite Hs. clear Hs.
        assert (Hc : text_chunks (pre ++ Page (Raise e) :: post) = Raise e).
        { induction pre as [|p pre IH]; [reflexivity|].
          destruct (Hpre p (or_introl eq_refl)) as [t ->].
          cbn [app text_chunks bind].
          rewrite IH by (intros q Hq; apply Hpre; right; exact Hq).
          reflexivity. }
        rewrite Hc. reflexivity.
Qed.

Lemma extract_text_from_pdf_outcomes_witness :
  extract_text_from_pdf (Raise PdfReadError) 2 = Ok []
  /\ extract_text_from_pdf
       (Ok (Reader (Ok [Page (Ok (Some (py "one"))); Page (Ok None);
                        Page (Ok (Some (py "three")))]))) 2
     = Ok (py "one").
Proof.
  split.
  - apply (proj1 (extract_text_from_pdf_outcomes (Raise PdfReadError) 2)
             PdfReadError); reflexivity.
  - refine (proj1 (proj2 (extract_text_from_pdf_outcomes _ 2)) _ eq_refl _).
    intros p [<-|[<-|[]]]; eauto.
Defined.

(** C2 as the spec words it fails: a file that is not there and a page
    whose text extraction fails make the extractor raise. *)
Lemma extract_text_from_pdf_raises :
  extract_text_from_pdf (Raise OSError) 2 = Raise OSError
  /\ extract_text_from_pdf
       (Ok (Reader (Ok [Page (Ok (Some (py "one"))); Page (Raise OtherError)])))
       2
     = Raise OtherError
  /\ forall s : str, Raise OSError <> Ok s.
Proof. split; [reflexivity|]. split; [reflexivity|]. discriminate. Qed.

(* ================================================================== *)
(** * The keys of the records and the writer *)

Section RecordKeys.

Lemma grobid_record_dom root m :
  grobid_record root = Ok m ->
  dom m = list_to_set
            ["title"; "document_type"; "publication_date"; "journal_title";
             "book_title"; "publisher"; "authors"; "affiliations";
             "countries"; "abstract"; "year"; "keywords"].
Proof.
  unfold grobid_record. destruct (extract_dates root); [|discriminate].
  cbn [bind]. intros [= <-]. rewrite !dom_insert_L, dom_empty_L.
  cbn [list_to_set foldr]. reflexivity.
Qed.

Lemma extract_metadata_dom text m :
  extract_metadata text = Ok m -> dom m = list_to_set insert_columns.
Proof.
  unfold extract_metadata. destruct (extract_keywords text); [|discriminate].
  cbn [bind]. intros [= <-]. rewrite !dom_insert_L, dom_empty_L.
  unfold insert_columns. cbn [list_to_set foldr]. reflexivity.
Qed.

Lemma lookup_keys_inr metadata keys vs :
  lookup_keys metadata keys = inr vs <->
  Forall2 (fun k v => metadata !! k = Some v) keys vs.
Proof.
  revert vs. induction keys as [|k keys IH]; intros vs; cbn [lookup_keys].
  - split; [intros [= <-]; constructor | intros H; inversion H; reflexivity].
  - destruct (metadata !! k) as [v|] eqn:Ek.
    + destruct (lookup_keys metadata keys) as [missing|vs'] eqn:El.
      * split; [discriminate|]. intros H. inversion H as [|? ? ? ? _ H']; subst.
        apply IH in H'. discriminate.
      * split.
        -- intros [= <-]. constructor; [exact Ek | apply IH; reflexivity].
        -- intros H. inversion H as [|? v' ? vs'' Hv H']; subst.
           apply IH in H'. congruence.
    + split; [discriminate|]. intros H. inversion H; subst. congruence.
Qed.

Lemma lookup_keys_inl metadata keys missing :
  lookup_keys metadata keys = inl missing ->
  In missing keys /\ metadata !! missing = None.
Proof.
  induction keys as [|k keys IH]; cbn [lookup_keys]; [discriminate|].
  destruct (metadata !! k) as [v|] eqn:Ek.
  - destruct (lookup_keys metadata keys) as [missing'|vs']; [|discriminate].
    intros [= <-]. destruct (IH eq_refl) as [Hin Hm]. split; [right|]; auto.
  - intros [= <-]. split; [left; reflexivity | exact Ek].
Qed.

Lemma lookup_keys_dom metadata keys :
  (forall k, In k keys -> k ∈ dom metadata) ->
  exists vs, lookup_keys metadata keys = inr vs.
Proof.
  intros H. destruct (lookup_keys metadata keys) as [missing|vs] eqn:E; [|eauto].
  apply lookup_keys_inl in E as [Hin Hm]. apply H in Hin.
  apply elem_of_dom in Hin as [v Hv]. congruence.
Qed.

Lemma attach_snippet_dom text m :
  dom (attach_snippet text m) = {[ "raw_text_snippet" ]} ∪ dom m.
Proof. unfold attach_snippet. apply dom_insert_L. Qed.

Section WithParser.
Variable fromstring : str -> option ET.Element.

Lemma process_document_dom use opened posted sel :
  process_document fromstring use opened posted = Ok sel ->
  dom (snd sel) = list_to_set insert_columns.
Proof.
  intros H. apply process_document_inv in H as (text & m & _ & Hs & ->).
  rewrite attach_snippet_dom.
  apply select_metadata_inv in Hs as [(_ & _ & Hg)|(_ & Hh)].
  - apply extract_metadata_grobid_truthy in Hg
      as (_ & code & body & root & _ & _ & Hr).
    rewrite (grobid_record_dom root m Hr). unfold insert_columns.
    cbn [list_to_set foldr]. set_solver.
  - rewrite (extract_metadata_dom text m Hh). unfold insert_columns.
    cbn [list_to_set foldr]. set_solver.
Qed.

End WithParser.

End RecordKeys.

(** X1. The record handed to the writer has exactly the thirteen metadata
    columns of the statement as its keys, whichever extractor produced it,
    so building the parameters of the statement never raises [KeyError];
    the record of the structured extractor alone lacks the snippet, and on
    it the writer would raise. *)
Theorem writer_finds_every_key :
  (forall fromstring use opened posted sel,
      process_document fromstring use opened posted = Ok sel ->
      dom (snd sel) = list_to_set insert_columns
      /\ exists params,
           upsert_params (snd sel) = inr params
           /\ Forall2 (fun k v => snd sel !! k = Some v) insert_columns params)
  /\ (forall root m,
        grobid_record root = Ok m ->
        upsert_params m = inl "raw_text_snippet").
Proof.
  split.
  - intros fromstring use opened posted sel H.
    pose proof (process_document_dom fromstring use opened posted sel H) as Hd.
    split; [exact Hd|].
    destruct (lookup_keys_dom (snd sel) insert_columns) as [params Hp].
    + intros k Hk. rewrite Hd. apply elem_of_list_to_set, list_elem_of_In, Hk.
    + exists params. split; [exact Hp|]. apply lookup_keys_inr, Hp.
  - intros root m. unfold grobid_record.
    destruct (extract_dates root); [|discriminate].
    cbn [bind]. intros [= <-]. reflexivity.
Qed.

Lemma writer_finds_every_key_witness :
  exists params, upsert_params (snd padded_record) = inr params.
Proof.
  destruct (proj1 writer_finds_every_key (fun _ => None) false padded_pdf
              (HttpRaises RequestException) padded_record eq_refl)
    as (_ & params & Hp & _).
  exists params. exact Hp.
Defined.

(* ================================================================== *)
(** * The writer *)

Section Writer.

Lemma insert_columns_names c :
  c ∈ insert_columns ->
  c <> "file_path" /\ c <> "processed_at" /\ c <> "updated_at".
Proof.
  intros H. apply list_elem_of_In in H. unfold insert_columns in H.
  repeat (destruct H as [<-|H]; [repeat split; discriminate|]). destruct H.
Qed.

Lemma zip_columns_lookup (metadata : gmap string value) keys vs c :
  Forall2 (fun k v => metadata !! k = Some v) keys vs ->
  (list_to_map (zip keys vs) : gmap string value) !! c
  = if decide (c ∈ keys) then metadata !! c else None.
Proof.
  induction 1 as [|k v keys vs Hk _ IH]; cbn [zip zip_with list_to_map foldr].
  - rewrite lookup_empty. destruct (decide (c ∈ [])) as [i|]; [|reflexivity].
    apply elem_of_nil in i. destruct i.
  - cbn [uncurry]. destruct (decide (k = c)) as [->|Hne].
    + rewrite lookup_insert_eq. destruct (decide (c ∈ c :: keys)) as [_|n].
      * symmetry. exact Hk.
      * destruct n. left.
    + rewrite lookup_insert_ne by exact Hne. rewrite IH.
      destruct (decide (c ∈ keys)) as [i|n], (decide (c ∈ k :: keys))
        as [i'|n']; try reflexivity.
      * destruct n'. right. exact i.
      * apply elem_of_cons in i' as [->|i']; [congruence | contradiction].
Qed.

(** The columns of the row that the [INSERT] proposes. *)
Lemma excluded_row_lookup (metadata : gmap string value) path params now c :
  Forall2 (fun k v => metadata !! k = Some v) insert_columns params ->
  excluded_row path params now !! c
  = if decide (c = "file_path") then Some (VStr (py path))
    else if decide (c = "processed_at") then Some (timestamp now)
    else if decide (c = "updated_at") then Some (timestamp now)
    else if decide (c ∈ insert_columns) then metadata !! c
    else None.
Proof.
  intros H. unfold excluded_row.
  destruct (decide (c = "file_path")) as [->|N1];
    [apply lookup_insert_eq | rewrite lookup_insert_ne by congruence].
  destruct (decide (c = "processed_at")) as [->|N2];
    [apply lookup_insert_eq | rewrite lookup_insert_ne by congruence].
  destruct (decide (c = "updated_at")) as [->|N3];
    [apply lookup_insert_eq | rewrite lookup_insert_ne by congruence].
  apply zip_columns_lookup, H.
Qed.

Lemma foldr_update_lookup (old excluded : gmap string value) cols c :
  foldr (fun c r => match excluded !! c with
                    | Some v => <[c := v]> r
                    | None => r
                    end) old cols !! c
  = if decide (c ∈ cols)
    then match excluded !! c with Some v => Some v | None => old !! c end
    else old !! c.
Proof.
  induction cols as [|k cols IH]; cbn [foldr].
  - destruct (decide (c ∈ [])) as [i|]; [|reflexivity].
    apply elem_of_nil in i. destruct i.
  - destruct (decide (k = c)) as [->|Hne].
    + destruct (decide (c ∈ c :: cols)) as [_|n];
        [|destruct n; left].
      destruct (excluded !! c) as [v|] eqn:E; [apply lookup_insert_eq|].
      rewrite IH. destruct (decide (c ∈ cols)); reflexivity.
    + assert (Hin : c ∈ k :: cols <-> c ∈ cols)
        by (rewrite elem_of_cons; split; [intros [?|?]; [congruence|assumption]
                                         | right; assumption]).
      destruct (excluded !! k); [rewrite lookup_insert_ne by exact Hne|];
        rewrite IH;
        destruct (decide (c ∈ cols)), (decide (c ∈ k :: cols));
        try reflexivity; tauto.
Qed.

(** The columns of a stored row after [DO UPDATE]. *)
Lemma do_update_lookup (old excluded : gmap string value) now c :
  do_update old excluded now !! c
  = if decide (c = "processed_at") then Some (timestamp now)
    else if decide (c = "updated_at") then Some (timestamp now)
    else if decide (c ∈ update_columns)
         then match excluded !! c with Some v => Some v | None => old !! c end
         else old !! c.
Proof.
  unfold do_update.
  destruct (decide (c = "processed_at")) as [->|N2];
    [apply lookup_insert_eq | rewrite lookup_insert_ne by congruence].
  destruct (decide (c = "updated_at")) as [->|N3];
    [apply lookup_insert_eq | rewrite lookup_insert_ne by congruence].
  apply foldr_update_lookup.
Qed.

Lemma execute_upsert_row conn path params now :
  execute_upsert conn path params now
  = <[path := row_after (conn !! path) (excluded_row path params now) now]> conn.
Proof. unfold execute_upsert. destruct (conn !! path); reflexivity. Qed.

(** The metadata columns and the timestamps of the row after the
    statement, whatever was stored. *)
Lemma row_after_lookup (metadata : gmap string value) o path params now c :
  Forall2 (fun k v => metadata !! k = Some v) insert_columns params ->
  row_after o (excluded_row path params now) now !! c
  = if decide (c = "processed_at") then Some (timestamp now)
    else if decide (c = "updated_at") then Some (timestamp now)
    else if decide (c ∈ insert_columns) then metadata !! c
    else match o with
         | None => if decide (c = "file_path") then Some (VStr (py path))
                   else None
         | Some old => old !! c
         end.
Proof.
  intros H. destruct o as [old|]; cbn [row_after].
  - rewrite do_update_lookup.
    change update_columns with insert_columns.
    destruct (decide (c = "processed_at")); [reflexivity|].
    destruct (decide (c = "updated_at")); [reflexivity|].
    destruct (decide (c ∈ insert_columns)) as [i|]; [|reflexivity].
    rewrite (excluded_row_lookup metadata) by exact H.
    destruct (insert_columns_names c i) as (N1 & N2 & N3).
    rewrite !decide_False by assumption. rewrite decide_True by exact i.
    destruct (metadata !! c) eqn:E; [reflexivity|].
    exfalso. clear -H i E.
    induction H as [|k v ks vs Hk _ IH]; [apply elem_of_nil in i; exact i|].
    apply elem_of_cons in i as [->|i]; [congruence | auto].
  - rewrite (excluded_row_lookup metadata) by exact H.
    destruct (decide (c = "processed_at")) as [->|]; [reflexivity|].
    destruct (decide (c = "updated_at")) as [->|]; [reflexivity|].
    destruct (decide (c ∈ insert_columns)) as [i|].
    + destruct (insert_columns_names c i) as (N1 & _).
      rewrite decide_False by assumption. reflexivity.
    + destruct (decide (c = "file_path")); reflexivity.
Qed.

(** A row that the statement wrote is overwritten by the next one as the
    row before it would have been. *)
Lemma row_after_twice (m1 m2 : gmap string value) o path ps1 ps2 now1 now2 :
  Forall2 (fun k v => m1 !! k = Some v) insert_columns ps1 ->
  Forall2 (fun k v => m2 !! k = Some v) insert_columns ps2 ->
  row_after (Some (row_after o (excluded_row path ps1 now1) now1))
    (excluded_row path ps2 now2) now2
  = row_after o (excluded_row path ps2 now2) now2.
Proof.
  intros H1 H2. apply map_eq. intros c.
  rewrite (row_after_lookup m2 o path ps2 now2) by exact H2.
  rewrite (row_after_lookup m2 (Some _) path ps2 now2) by exact H2.
  destruct (decide (c = "processed_at")); [reflexivity|].
  destruct (decide (c = "updated_at")); [reflexivity|].
  destruct (decide (c ∈ insert_columns)); [reflexivity|].
  rewrite (row_after_lookup m1) by exact H1.
  rewrite !decide_False by assumption. reflexivity.
Qed.

End Writer.

Lemma upsert_paper_written conn path metadata now :
  upsert_paper conn path metadata Written now
  = match upsert_params metadata with
    | inl missing => inl (KeyError missing)
    | inr params => inr (execute_upsert conn path params now)
    end.
Proof. reflexivity. Qed.

Lemma upsert_paper_goes_through conn path metadata written now conn' :
  upsert_paper conn path metadata written now = inr conn' ->
  written = Written.
Proof.
  unfold upsert_paper. destruct written as [|e|e]; [reflexivity|discriminate|].
  destruct (upsert_params metadata); discriminate.
Qed.

Lemma upsert_paper_inr conn path metadata written now conn' :
  upsert_paper conn path metadata written now = inr conn' ->
  exists params,
    Forall2 (fun k v => metadata !! k = Some v) insert_columns params
    /\ conn' = <[path := row_after (conn !! path)
                           (excluded_row path params now) now]> conn.
Proof.
  intros H. pose proof (upsert_paper_goes_through _ _ _ _ _ _ H) as ->.
  rewrite upsert_paper_written in H.
  destruct (upsert_params metadata) as [missing|params] eqn:E; [discriminate|].
  injection H as <-. exists params. split; [apply lookup_keys_inr, E|].
  apply execute_upsert_row.
Qed.

(** X2. A write that goes through stores, under the path, the value of each
    of the thirteen metadata keys in the column of that name and the time of
    the statement in both timestamps, whether or not a row was there; a row
    that was there keeps its other columns, and the rows of the other paths
    are untouched. *)
Theorem upsert_paper_stores_record conn path metadata written now conn' :
  upsert_paper conn path metadata written now = inr conn' ->
  (forall p, p <> path -> conn' !! p = conn !! p)
  /\ exists r,
       conn' !! path = Some r
       /\ (forall c, c ∈ insert_columns ->
             r !! c = metadata !! c /\ is_Some (metadata !! c))
       /\ r !! "processed_at" = Some (timestamp now)
       /\ r !! "updated_at" = Some (timestamp now)
       /\ (conn !! path = None -> r !! "file_path" = Some (VStr (py path)))
       /\ (forall old c,
             conn !! path = Some old -> c ∉ insert_columns ->
             c <> "processed_at" -> c <> "updated_at" ->
             r !! c = old !! c).
Proof.
  intros H. apply upsert_paper_inr in H as (params & Hp & ->). split.
  - intros p Hne. apply lookup_insert_ne. congruence.
  - eexists. split; [apply lookup_insert_eq|].
    split; [|split; [|split; [|split]]].
    + intros c Hc. destruct (insert_columns_names c Hc) as (N1 & N2 & N3).
      rewrite (row_after_lookup metadata) by exact Hp.
      rewrite !decide_False by assumption. rewrite decide_True by exact Hc.
      split; [reflexivity|].
      clear -Hp Hc. induction Hp as [|k v ks vs Hk _ IH];
        [apply elem_of_nil in Hc; destruct Hc|].
      apply elem_of_cons in Hc as [->|Hc]; [eauto | auto].
    + rewrite (row_after_lookup metadata) by exact Hp. reflexivity.
    + rewrite (row_after_lookup metadata) by exact Hp. reflexivity.
    + intros ->. rewrite (row_after_lookup metadata) by exact Hp. reflexivity.
    + intros old c -> Hc N2 N3.
      rewrite (row_after_lookup metadata) by exact Hp.
      rewrite !decide_False by assumption. reflexivity.
Qed.

Lemma upsert_paper_stores_record_witness :
  exists conn' r,
    upsert_paper ∅ "a.pdf" (snd padded_record) Written 7 = inr conn'
    /\ conn' !! "a.pdf" = Some r
    /\ r !! "title" = Some (VStr (py "abc"))
    /\ r !! "updated_at" = Some (VInt 7).
Proof.
  destruct (upsert_params (snd padded_record)) as [k|params] eqn:E;
    [discriminate E|].
  assert (Hu : upsert_paper ∅ "a.pdf" (snd padded_record) Written 7
               = inr (execute_upsert ∅ "a.pdf" params 7))
    by (unfold upsert_paper; rewrite E; reflexivity).
  destruct (upsert_paper_stores_record _ _ _ _ _ _ Hu)
    as (_ & r & Hr & Hc & _ & Hup & _).
  exists (execute_upsert ∅ "a.pdf" params 7), r.
  split; [exact Hu|]. split; [exact Hr|]. split; [|exact Hup].
  rewrite (proj1 (Hc "title" ltac:(unfold insert_columns; left))).
  reflexivity.
Defined.

(** X3. The writer keeps nothing of an earlier write to the same path: a
    write after another one leaves the table that it alone would have left,
    so that the last write wins; writes to different paths commute. *)
Theorem upsert_paper_last_write_wins :
  (forall conn path m1 m2 written1 written2 now1 now2 conn1,
      upsert_paper conn path m1 written1 now1 = inr conn1 ->
      upsert_paper conn1 path m2 written2 now2
      = upsert_paper conn path m2 written2 now2)
  /\ (forall conn p1 p2 m1 m2 written1 written2 now conn1 conn2,
        p1 <> p2 ->
        upsert_paper conn p1 m1 written1 now = inr conn1 ->
        upsert_paper conn p2 m2 written2 now = inr conn2 ->
        upsert_paper conn1 p2 m2 written2 now
        = upsert_paper conn2 p1 m1 written1 now).
Proof.
  split.
  - intros conn path m1 m2 written1 written2 now1 now2 conn1 H1.
    apply upsert_paper_inr in H1 as (ps1 & Hp1 & ->).
    unfold upsert_paper. destruct written2 as [|e|e]; [|reflexivity|].
    + destruct (upsert_params m2) as [missing|ps2] eqn:E; [reflexivity|].
      f_equal. rewrite !execute_upsert_row, lookup_insert_eq, insert_insert_eq.
      f_equal. apply (row_after_twice m1 m2); [exact Hp1|].
      apply lookup_keys_inr, E.
    + destruct (upsert_params m2); reflexivity.
  - intros conn p1 p2 m1 m2 written1 written2 now conn1 conn2 Hne H1 H2.
    pose proof (upsert_paper_goes_through _ _ _ _ _ _ H1) as ->.
    pose proof (upsert_paper_goes_through _ _ _ _ _ _ H2) as ->.
    apply upsert_paper_inr in H1 as (ps1 & Hp1 & ->).
    apply upsert_paper_inr in H2 as (ps2 & Hp2 & ->).
    apply lookup_keys_inr in Hp1, Hp2.
    change (lookup_keys m1 insert_columns) with (upsert_params m1) in Hp1.
    change (lookup_keys m2 insert_columns) with (upsert_params m2) in Hp2.
    unfold upsert_paper. rewrite Hp1, Hp2. f_equal.
    rewrite !execute_upsert_row.
    rewrite !lookup_insert_ne by congruence.
    apply insert_insert_ne. congruence.
Qed.

Lemma upsert_paper_last_write_wins_witness :
  upsert_paper
    (match upsert_paper ∅ "a.pdf" (snd padded_record) Written 7 with
     | inr t => t
     | inl _ => ∅
     end) "a.pdf" (snd blank_record) Written 9
  = upsert_paper ∅ "a.pdf" (snd blank_record) Written 9.
Proof.
  apply (proj1 upsert_paper_last_write_wins ∅ "a.pdf" (snd padded_record)
           (snd blank_record) Written Written 7 9).
  destruct (upsert_paper ∅ "a.pdf" (snd padded_record) Written 7)
    as [k|t] eqn:E; [|reflexivity].
  exfalso. unfold upsert_paper in E.
  destruct (upsert_params (snd padded_record)) eqn:E'; discriminate.
Defined.

(* ================================================================== *)
(** * The batch *)

Section BatchFacts.
Variable fromstring : str -> option ET.Element.
Variable executes : nat -> write_outcome.

Lemma upsert_params_final use opened posted sel :
  process_document fromstring use opened posted = Ok sel ->
  exists params, upsert_params (snd sel) = inr params.
Proof.
  intros H. apply process_document_dom in H.
  apply (lookup_keys_dom (snd sel) insert_columns).
  intros k Hk. rewrite H. apply elem_of_list_to_set, list_elem_of_In, Hk.
Qed.

(** The write of a final record ends as the database calls end. *)
Lemma upsert_paper_final use opened posted sel conn path written now :
  process_document fromstring use opened posted = Ok sel ->
  match write_raises written with
  | Some e => upsert_paper conn path (snd sel) written now = inl (Escaped e)
  | None => exists conn',
              upsert_paper conn path (snd sel) written now = inr conn'
  end.
Proof.
  intros H. destruct (upsert_params_final use opened posted sel H)
    as [params Hp].
  unfold upsert_paper. rewrite Hp. destruct written; cbn; eauto.
Qed.

(** One turn of the loop that goes through. *)
Lemma process_files_cons use dry_run now pdf pdf_files conn processed res :
  process_files fromstring executes use dry_run now (pdf :: pdf_files) conn processed
    = inr res ->
  exists sel conn',
    process_document fromstring use (pdf_opened pdf) (pdf_posted pdf) = Ok sel
    /\ process_files fromstring executes use dry_run now pdf_files conn' (S processed)
       = inr res
    /\ (dry_run = true -> conn' = conn)
    /\ (dry_run = false ->
        exists t t', conn = Some t /\ conn' = Some t'
          /\ upsert_paper t (pdf_path pdf) (snd sel) (executes processed) now
             = inr t').
Proof.
  cbn [process_files].
  destruct (process_document fromstring use (pdf_opened pdf) (pdf_posted pdf))
    as [sel|e] eqn:Ep; [|discriminate].
  destruct dry_run.
  - intros H. exists sel, conn. repeat split; auto; discriminate.
  - destruct conn as [t|]; [|discriminate].
    destruct (upsert_paper t (pdf_path pdf) (snd sel) (executes processed) now)
      as [k|t'] eqn:Eu; [discriminate|].
    intros H. exists sel, (Some t'). repeat split; auto; [discriminate|].
    intros _. eauto.
Qed.

Lemma process_files_count use dry_run now pdf_files conn processed conn' n :
  process_files fromstring executes use dry_run now pdf_files conn processed
    = inr (conn', n) ->
  n = (processed + length pdf_files)%nat.
Proof.
  revert conn processed. induction pdf_files as [|pdf pdf_files IH];
    intros conn processed H.
  - cbn in H. injection H as _ <-. simpl. lia.
  - apply process_files_cons in H as (sel & c & _ & H & _).
    apply IH in H. simpl. lia.
Qed.

Lemma process_files_dry_run use now pdf_files conn processed conn' n :
  process_files fromstring executes use true now pdf_files conn processed
    = inr (conn', n) ->
  conn' = conn.
Proof.
  revert processed. induction pdf_files as [|pdf pdf_files IH];
    intros processed H.
  - cbn in H. congruence.
  - apply process_files_cons in H as (sel & c & _ & H & Hc & _).
    rewrite (Hc eq_refl) in H. eapply IH, H.
Qed.

Lemma process_files_no_key_error use dry_run now pdf_files conn processed key :
  process_files fromstring executes use dry_run now pdf_files conn processed
    <> inl (KeyError key).
Proof.
  revert conn processed. induction pdf_files as [|pdf pdf_files IH];
    intros conn processed; cbn [process_files]; [discriminate|].
  destruct (process_document fromstring use (pdf_opened pdf) (pdf_posted pdf))
    as [sel|e] eqn:Ep; [|discriminate].
  destruct dry_run; [apply IH|].
  destruct conn as [t|]; [|discriminate].
  pose proof (upsert_paper_final use _ _ sel t (pdf_path pdf)
                (executes processed) now Ep) as Hw.
  destruct (write_raises (executes processed)) as [e|].
  - rewrite Hw. discriminate.
  - destruct Hw as [t' ->]. apply IH.
Qed.

(** The table after the loop: the rows of the paths that are not in the
    batch are those of before, and the row of a file is the record of that
    file unless a later file has the same path. *)
Lemma process_files_table use now pdf_files t processed t' n :
  process_files fromstring executes use false now pdf_files (Some t) processed
    = inr (Some t', n) ->
  (forall p, p ∉ map pdf_path pdf_files -> t' !! p = t !! p)
  /\ forall earlier pdf later,
       pdf_files = earlier ++ pdf :: later ->
       pdf_path pdf ∉ map pdf_path later ->
       exists sel r,
         process_document fromstring use (pdf_opened pdf) (pdf_posted pdf)
           = Ok sel
         /\ t' !! pdf_path pdf = Some r
         /\ (forall c, c ∈ insert_columns -> r !! c = snd sel !! c)
         /\ r !! "processed_at" = Some (timestamp now)
         /\ r !! "updated_at" = Some (timestamp now).
Proof.
  revert t processed. induction pdf_files as [|pdf0 pdf_files IH];
    intros t processed H.
  - cbn in H. injection H as <- _. split; [reflexivity|].
    intros [|? ?] ? ? E; discriminate E.
  - apply process_files_cons in H as (sel & c & Hp & H & _ & Hc).
    destruct (Hc eq_refl) as (t0 & t1 & [= <-] & -> & Hu). clear Hc.
    destruct (IH t1 _ H) as [Hframe Hrows]. clear IH.
    apply upsert_paper_inr in Hu as (params & Hparams & Ht1).
    split.
    + intros p Hp'. cbn [map] in Hp'. apply not_elem_of_cons in Hp' as [Hne Hp'].
      rewrite (Hframe p Hp'), Ht1. apply lookup_insert_ne. congruence.
    + intros earlier pdf later E Hlater.
      destruct earlier as [|pdf1 earlier]; cbn [app] in E.
      * injection E as <- <-. exists sel.
        rewrite (Hframe _ Hlater), Ht1, lookup_insert_eq.
        eexists. split; [exact Hp|]. split; [reflexivity|].
        split; [|split].
        -- intros c Hcol.
           destruct (insert_columns_names c Hcol) as (N1 & N2 & N3).
           rewrite (row_after_lookup (snd sel)) by exact Hparams.
           rewrite !decide_False by assumption.
           rewrite decide_True by exact Hcol. reflexivity.
        -- rewrite (row_after_lookup (snd sel)) by exact Hparams. reflexivity.
        -- rewrite (row_after_lookup (snd sel)) by exact Hparams. reflexivity.
      * injection E as <- ->. apply (Hrows earlier pdf later eq_refl Hlater).
Qed.

End BatchFacts.

Section Rerun.
Variable fromstring : str -> option ET.Element.
Variable executes : nat -> write_outcome.

Lemma row_equiv_refl p o : row_equiv p o o.
Proof. intros m params now _. reflexivity. Qed.

Lemma row_equiv_trans p o1 o2 o3 :
  row_equiv p o1 o2 -> row_equiv p o2 o3 -> row_equiv p o1 o3.
Proof.
  intros H12 H23 m params now H.
  rewrite (H12 m params now H). apply (H23 m params now H).
Qed.

Lemma row_equiv_written (m1 : gmap string value) p o ps1 now1 :
  Forall2 (fun k v => m1 !! k = Some v) insert_columns ps1 ->
  row_equiv p (Some (row_after o (excluded_row p ps1 now1) now1)) o.
Proof. intros H1 m2 ps2 now2 H2. apply (row_after_twice m1 m2); assumption. Qed.

(** The loop does not tell apart two tables that differ only in rows it
    will overwrite. *)
Lemma process_files_same_up_to use now pdf_files ta tb processed :
  same_up_to pdf_files ta tb ->
  process_files fromstring executes use false now pdf_files (Some ta) processed
  = process_files fromstring executes use false now pdf_files (Some tb) processed.
Proof.
  revert ta tb processed. induction pdf_files as [|pdf pdf_files IH];
    intros ta tb processed Hinv.
  - cbn [process_files]. do 3 f_equal. apply map_eq. intros p.
    destruct (Hinv p) as [H|[H _]]; [exact H|].
    cbn in H. apply elem_of_nil in H. destruct H.
  - cbn [process_files].
    destruct (process_document fromstring use (pdf_opened pdf) (pdf_posted pdf))
      as [sel|e]; [|reflexivity].
    unfold upsert_paper. destruct (executes processed) as [|e|e];
      [|reflexivity|destruct (upsert_params (snd sel)); reflexivity].
    destruct (upsert_params (snd sel)) as [k|params] eqn:E; [reflexivity|].
    apply IH. rewrite !execute_upsert_row.
    assert (Hrow : row_after (ta !! pdf_path pdf)
                     (excluded_row (pdf_path pdf) params now) now
                   = row_after (tb !! pdf_path pdf)
                       (excluded_row (pdf_path pdf) params now) now).
    { destruct (Hinv (pdf_path pdf)) as [->|[_ H]]; [reflexivity|].
      apply (H (snd sel)). apply lookup_keys_inr, E. }
    rewrite Hrow. intros p.
    destruct (decide (p = pdf_path pdf)) as [->|Hne].
    + left. rewrite !lookup_insert_eq. reflexivity.
    + rewrite !lookup_insert_ne by congruence.
      destruct (Hinv p) as [H|[Hin H]]; [left; exact H|right].
      split; [|exact H]. cbn [map] in Hin.
      apply elem_of_cons in Hin as [->|Hin]; [congruence | exact Hin].
Qed.

(** The table that the loop leaves differs from the one it started on only
    in rows that the same batch overwrites. *)
Lemma process_files_leaves_same_up_to use now pdf_files t processed t' n :
  process_files fromstring executes use false now pdf_files (Some t) processed
    = inr (Some t', n) ->
  same_up_to pdf_files t' t.
Proof.
  revert t processed. induction pdf_files as [|pdf pdf_files IH];
    intros t processed H.
  - cbn in H. injection H as <- _. intros p. left. reflexivity.
  - apply process_files_cons in H as (sel & c & Hp & H & _ & Hc).
    destruct (Hc eq_refl) as (t0 & t1 & [= <-] & -> & Hu). clear Hc.
    apply IH in H. clear IH.
    apply upsert_paper_inr in Hu as (params & Hparams & ->).
    intros p. cbn [map].
    destruct (decide (p = pdf_path pdf)) as [->|Hne].
    + right. split; [left|].
      assert (H1 : row_equiv (pdf_path pdf)
                     (Some (row_after (t !! pdf_path pdf)
                              (excluded_row (pdf_path pdf) params now) now))
                     (t !! pdf_path pdf))
        by (apply (row_equiv_written (snd sel)), Hparams).
      destruct (H (pdf_path pdf)) as [E|[_ He]].
      * rewrite E, lookup_insert_eq. exact H1.
      * rewrite lookup_insert_eq in He.
        eapply row_equiv_trans; [exact He | exact H1].
    + destruct (H p) as [E|[Hin He]].
      * left. rewrite E. apply lookup_insert_ne. congruence.
      * right. split; [right; exact Hin|].
        rewrite lookup_insert_ne in He by congruence. exact He.
Qed.

End Rerun.

(** X4. When [main] returns after processing, it counted every file of the
    batch. In a dry run nothing is committed. Otherwise the committed table
    keeps the rows of the paths outside the batch and holds, for every file
    whose path no later file has, the record of that file in the metadata
    columns and the time of the run in both timestamps. [main] never ends
    in a [KeyError]. *)
Theorem main_writes_every_record
    fromstring executes no_grobid dry_run probe connect commits now pdf_files :
  (forall key,
      main fromstring executes no_grobid dry_run probe connect commits now
        pdf_files <> inl (KeyError key))
  /\ forall processed committed,
       main fromstring executes no_grobid dry_run probe connect commits now
         pdf_files = inr (Processed processed committed) ->
       processed = length pdf_files
       /\ (dry_run = true -> committed = None)
       /\ (dry_run = false ->
           exists use t0 t,
             use_grobid no_grobid probe = Ok use
             /\ connect = Ok t0 /\ committed = Some t
             /\ (forall p, p ∉ map pdf_path pdf_files -> t !! p = t0 !! p)
             /\ forall earlier pdf later,
                  pdf_files = earlier ++ pdf :: later ->
                  pdf_path pdf ∉ map pdf_path later ->
                  exists sel r,
                    process_document fromstring use (pdf_opened pdf)
                      (pdf_posted pdf) = Ok sel
                    /\ t !! pdf_path pdf = Some r
                    /\ (forall c, c ∈ insert_columns ->
                          r !! c = snd sel !! c)
                    /\ r !! "processed_at" = Some (timestamp now)
                    /\ r !! "updated_at" = Some (timestamp now)).
Proof.
  unfold main. destruct pdf_files as [|pdf0 pdf_files'] eqn:Efiles.
  { split; [discriminate|]. discriminate. }
  rewrite <- Efiles. clear Efiles.
  destruct dry_run; cbn [negb].
  - destruct (use_grobid no_grobid probe) as [use|e];
      [|split; [discriminate|discriminate]].
    destruct (process_files fromstring executes use true now pdf_files None 0)
      as [err|[conn' n]] eqn:E.
    + split; [|discriminate]. intros key [= ->].
      eapply process_files_no_key_error, E.
    + pose proof (process_files_dry_run _ _ _ _ _ _ _ _ _ E) as ->.
      split; [discriminate|]. intros processed committed [= <- <-].
      split; [apply process_files_count in E; exact E|].
      split; [reflexivity | discriminate].
  - destruct connect as [t0|e]; cbn [bind];
      [|split; [discriminate|discriminate]].
    destruct (use_grobid no_grobid probe) as [use|e];
      [|split; [discriminate|discriminate]].
    destruct (process_files fromstring executes use false now pdf_files
                (Some t0) 0) as [err|[conn' n]] eqn:E.
    + split; [|discriminate]. intros key [= ->].
      eapply process_files_no_key_error, E.
    + assert (Hc : exists t, conn' = Some t).
      { clear -E. revert E. generalize 0%nat. generalize t0.
        induction pdf_files as [|pdf pdf_files IH]; intros t k E.
        - cbn in E. injection E as <- _. eauto.
        - apply process_files_cons in E as (sel & c & _ & E & _ & Hc).
          destruct (Hc eq_refl) as (? & t1 & _ & -> & _).
          eapply IH, E. }
      destruct Hc as [t ->].
      destruct commits as [e|]; [split; discriminate|].
      split; [discriminate|]. intros processed committed [= <- <-].
      split; [apply process_files_count in E; exact E|].
      split; [discriminate|]. intros _.
      exists use, t0, t. split; [reflexivity|]. split; [reflexivity|].
      split; [reflexivity|]. eapply process_files_table, E.
Qed.

Lemma main_writes_every_record_witness :
  exists r,
    one_file_table !! "a.pdf" = Some r
    /\ r !! "title" = Some (VStr (py "abc"))
    /\ r !! "updated_at" = Some (VInt 7).
Proof.
  destruct (proj2 (main_writes_every_record (fun _ => None)
                     (fun _ => Written) true false
                     (HttpRaises OSError) (Ok ∅) None 7 one_file_batch)
              1%nat (Some one_file_table) eq_refl)
    as (_ & _ & Hrows).
  destruct (Hrows eq_refl) as (use & t0 & t & Hu & _ & Ht & _ & Hrow).
  injection Hu as <-. injection Ht as <-.
  destruct (Hrow [] (PdfFile "a.pdf" padded_pdf (HttpRaises RequestException))
              [] eq_refl ltac:(apply not_elem_of_nil))
    as (sel & r & Hsel & Hr & Hc & _ & Hup).
  exists r. split; [exact Hr|]. split; [|exact Hup].
  rewrite (Hc "title" ltac:(unfold insert_columns; left)).
  injection Hsel as <-. reflexivity.
Defined.

(** X5. Running [main] again on the same batch, after a run that
    committed, leaves the table that a single run at the later time leaves:
    ingestion is idempotent up to the timestamps. This holds whatever the
    database calls of the second run come to: it ends as the single run at
    that time, with those calls, ends. *)
Theorem main_rerun_idempotent
    fromstring executes executes' no_grobid probe commits commits' t0 t1
    now1 now2 pdf_files processed :
  main fromstring executes no_grobid false probe (Ok t0) commits now1
    pdf_files = inr (Processed processed (Some t1)) ->
  main fromstring executes' no_grobid false probe (Ok t1) commits' now2
    pdf_files
  = main fromstring executes' no_grobid false probe (Ok t0) commits' now2
      pdf_files.
Proof.
  unfold main. destruct pdf_files as [|pdf0 pdf_files'] eqn:Efiles;
    [discriminate|].
  rewrite <- Efiles. clear Efiles. cbn [negb bind].
  destruct (use_grobid no_grobid probe) as [use|e]; [|discriminate].
  destruct (process_files fromstring executes use false now1 pdf_files
              (Some t0) 0) as [err|[conn' n]] eqn:E; [discriminate|].
  intros H.
  assert (conn' = Some t1) as ->
    by (destruct conn' as [t|]; [destruct commits|]; congruence).
  apply process_files_leaves_same_up_to in E.
  rewrite (process_files_same_up_to fromstring executes' use now2 pdf_files
             t1 t0 0 E).
  reflexivity.
Qed.

Lemma main_rerun_idempotent_witness :
  main (fun _ => None) (fun _ => Written) true false (HttpRaises OSError)
    (Ok one_file_table) None 9 one_file_batch
  = main (fun _ => None) (fun _ => Written) true false (HttpRaises OSError)
      (Ok ∅) None 9 one_file_batch.
Proof.
  exact (main_rerun_idempotent (fun _ => None) (fun _ => Written)
           (fun _ => Written) true (HttpRaises OSError) None None
           ∅ one_file_table 7 9 one_file_batch 1 eq_refl).
Defined.

(* ================================================================== *)
(** * The exceptions that escape *)

Section Escapes.

Lemma mk_date_raises y m d e : mk_date y m d = Raise e -> e = ValueError.
Proof. unfold mk_date. destruct (_ && _); [discriminate|]. congruence. Qed.

Lemma fromisoformat_raises s e : fromisoformat s = Raise e -> e = ValueError.
Proof.
  unfold fromisoformat.
  destruct (Py.split_char "-" s) as [|y [|m [|d [|x l]]]]; try congruence.
  destruct (_ && _); [apply mk_date_raises | congruence].
Qed.

Lemma parse_publication_date_raises value e :
  parse_publication_date value = Raise e -> e = ValueError.
Proof.
  unfold parse_publication_date.
  destruct (negb (Py.otruthy value)); [discriminate|].
  destruct (Re.search iso_date_re _) as [m|].
  - destruct (fromisoformat _) eqn:E; [discriminate|].
    cbn [bind]. intros [= <-]. eapply fromisoformat_raises, E.
  - destruct (Re.search year_month_re _) as [m|].
    + destruct (Py.split_char "-" _) as [|y [|mo [|x l]]]; try congruence.
      destruct (mk_date _ _ _) eqn:E; [discriminate|].
      cbn [bind]. intros [= <-]. eapply mk_date_raises, E.
    + destruct (Re.search year_re _) as [m|]; [|discriminate].
      destruct (mk_date _ _ _) eqn:E; [discriminate|].
      cbn [bind]. intros [= <-]. eapply mk_date_raises, E.
Qed.

Lemma publication_stmt_loop_raises dates year pd e :
  publication_stmt_loop dates year pd = Raise e -> e = ValueError.
Proof.
  revert year pd. induction dates as [|date_el dates IH]; intros year pd;
    [discriminate|].
  cbn [publication_stmt_loop].
  destruct (parse_publication_date (date_source date_el)) as [[d|]|e'] eqn:Ep;
    cbn [bind]; [discriminate| |].
  - repeat match goal with
           | |- context [if ?t then _ else _] => destruct t
           end; try discriminate; apply IH.
  - intros [= <-]. eapply parse_publication_date_raises, Ep.
Qed.

Lemma imprint_loop_raises dates year pd e :
  imprint_loop dates year pd = Raise e -> e = ValueError.
Proof.
  revert year pd. induction dates as [|date_el dates IH]; intros year pd;
    [discriminate|].
  cbn [imprint_loop].
  destruct (parse_publication_date (date_source date_el)) as [[d|]|e'] eqn:Ep;
    cbn [bind]; [discriminate|apply IH|].
  intros [= <-]. eapply parse_publication_date_raises, Ep.
Qed.

Lemma extract_dates_raises root e :
  extract_dates root = Raise e -> e = ValueError.
Proof.
  unfold extract_dates.
  destruct (publication_stmt_loop _ None None) as [[y [d|]]|e'] eqn:E;
    cbn [bind snd fst]; [discriminate| |].
  - apply imprint_loop_raises.
  - intros [= <-]. eapply publication_stmt_loop_raises, E.
Qed.

Lemma grobid_record_raises root e :
  grobid_record root = Raise e <-> extract_dates root = Raise e.
Proof.
  unfold grobid_record. destruct (extract_dates root); cbn [bind].
  - split; discriminate.
  - split; intros [= <-]; reflexivity.
Qed.

End Escapes.

(* ================================================================== *)
(** * The range of the years and dates *)

Lemma mk_date_in_calendar y m d :
  mk_date y m d = if in_calendar y m d then Ok (Date y m d) else Raise ValueError.
Proof. reflexivity. Qed.

Section DateRange.
Import Re.

(** A match of a pattern with the year head: the matched text is a year of
    the two centuries followed by what the rest of the pattern took. *)
Lemma search_from_year_headed R whole pre s pv m :
  whole = pre ++ s ->
  search_from (year_headed R) whole pv (length pre) s = Some m ->
  exists a b c d w st st',
    year_start [a; b; c; d] = true
    /\ group0 m = a :: b :: c :: d :: w
    /\ matches R st st' /\ rest st = w ++ rest st'.
Proof.
  revert pre pv m. induction s as [|x s IH]; intros pre pv m Hw Hs.
  - cbn [search_from] in Hs.
    destruct (rmatch _ _ _) eqn:E; [|discriminate].
    apply year_headed_inv in E as (? & ? & ? & ? & ? & E & _). discriminate E.
  - cbn [search_from] in Hs.
    destruct (rmatch _ _ _) as [st'|] eqn:E.
    + injection Hs as <-.
      apply year_headed_inv in E as (a & b & c & d & tl & Hr & Hy & _ & Hk).
      cbn [rest pos grp] in Hr, Hy, Hk.
      apply rmatch_sound in Hk as (st2 & Hm & [= ->]).
      destruct (matches_consumes _ _ _ Hm) as (w & Hrest & Hpos).
      cbn [rest pos] in Hrest, Hpos.
      exists a, b, c, d, w, (MState (Some d) tl (4 + length pre) None), st'.
      split; [rewrite Hr in Hy; exact Hy|].
      split; [|split; [exact Hm | exact Hrest]].
      unfold group0, span. cbn [subject m_start m_end].
      rewrite Hw, drop_app_length, Hr, Hrest, Hpos.
      replace (4 + length pre + length w - length pre)%nat
        with (4 + length w)%nat by lia.
      cbn [Nat.add take]. rewrite take_app_length. reflexivity.
    + apply (IH (pre ++ [x]) (Some x)).
      * rewrite Hw, <- app_assoc. reflexivity.
      * rewrite length_app. simpl. rewrite Nat.add_1_r. exact Hs.
Qed.

Lemma matches_chr_inv p st st' :
  matches (Chr p) st st' ->
  exists c, rest st = c :: rest st' /\ p c = true.
Proof. intros H. inversion H; subst. cbn [rest]. eauto. Qed.

Lemma matches_wordb_inv st st' : matches WordB st st' -> st' = st.
Proof. intros H. inversion H; subst. reflexivity. Qed.

Lemma exactly_dash c : exactly "-" c = true -> c = "-"%char.
Proof. unfold exactly, Py.eqc. intros H. apply Ascii.eqb_eq in H. auto. Qed.

Lemma matches_month_tail st st' :
  matches (seqs [dash; digit; digit; WordB]) st st' ->
  exists e f,
    rest st = "-"%char :: e :: f :: rest st'
    /\ Py.isdigit e = true /\ Py.isdigit f = true.
Proof.
  cbn [seqs]. intros H.
  apply matches_seq_inv in H as (s1 & H1 & H).
  apply matches_seq_inv in H as (s2 & H2 & H).
  apply matches_seq_inv in H as (s3 & H3 & H).
  apply matches_wordb_inv in H. subst st'.
  apply matches_chr_inv in H1 as (x & -> & Hx).
  apply matches_chr_inv in H2 as (e & -> & He).
  apply matches_chr_inv in H3 as (f & -> & Hf).
  apply exactly_dash in Hx. subst x. eauto.
Qed.

Lemma matches_day_tail st st' :
  matches (seqs [dash; digit; digit; dash; digit; digit; WordB]) st st' ->
  exists e f g h,
    rest st = "-"%char :: e :: f :: "-"%char :: g :: h :: rest st'
    /\ Py.isdigit e = true /\ Py.isdigit f = true
    /\ Py.isdigit g = true /\ Py.isdigit h = true.
Proof.
  change (seqs [dash; digit; digit; dash; digit; digit; WordB])
    with (Seq dash (Seq digit (Seq digit (seqs [dash; digit; digit; WordB])))).
  intros H.
  apply matches_seq_inv in H as (s1 & H1 & H).
  apply matches_seq_inv in H as (s2 & H2 & H).
  apply matches_seq_inv in H as (s3 & H3 & H).
  apply matches_month_tail in H as (g & h & Hr & Hg & Hh).
  apply matches_chr_inv in H1 as (x & -> & Hx).
  apply matches_chr_inv in H2 as (e & -> & He).
  apply matches_chr_inv in H3 as (f & -> & Hf).
  apply exactly_dash in Hx. subst x. rewrite Hr. eauto 10.
Qed.

Lemma mk_date_ok y m d dt :
  mk_date y m d = Ok dt -> dt = Date y m d /\ in_calendar y m d = true.
Proof.
  rewrite mk_date_in_calendar. destruct (in_calendar y m d); [|discriminate].
  intros [= <-]. auto.
Qed.

(** A date that the parser returns is a date of the calendar in the years
    1900 to 2099. *)
Lemma parse_publication_date_range value dt :
  parse_publication_date value = Ok (Some dt) ->
  1900 <= date_year dt <= 2099
  /\ in_calendar (date_year dt) (date_month dt) (date_day dt) = true.
Proof.
  unfold parse_publication_date.
  destruct (negb (Py.otruthy value)); [discriminate|].
  set (v := Py.strip (or_empty value)).
  destruct (search iso_date_re v) as [m|] eqn:E1.
  { rewrite iso_date_re_headed in E1.
    apply (search_from_year_headed _ v [] v None m eq_refl) in E1
      as (a & b & c & d & w & st & st' & Hy & -> & Hm & Hr).
    apply matches_day_tail in Hm as (e & f & g & h & Hr' & He & Hf & Hg & Hh).
    rewrite Hr in Hr'.
    change ("-"%char :: e :: f :: "-"%char :: g :: h :: rest st')
      with ([ "-"; e; f; "-"; g; h ]%char ++ rest st') in Hr'.
    apply app_inv_tail in Hr'. subst w.
    pose proof (year_start_chars _ _ _ _ _ Hy) as (Ha & Hb & Hc & Hd).
    assert (Hb' : Py.isdigit b = true) by (destruct Hb as [->| ->]; reflexivity).
    unfold fromisoformat. rewrite split_full_date by assumption.
    cbn [length Nat.eqb andb app forallb].
    rewrite Ha, Hb', Hc, Hd, He, Hf, Hg, Hh. cbn [andb].
    destruct (mk_date _ _ _) as [dt'|] eqn:Ed; [|discriminate].
    cbn [bind]. intros [= <-]. apply mk_date_ok in Ed as [-> Hcal].
    cbn [date_year date_month date_day]. split; [|exact Hcal].
    apply year_start_int, Hy. }
  destruct (search year_month_re v) as [m|] eqn:E2.
  { rewrite year_month_re_headed in E2.
    apply (search_from_year_headed _ v [] v None m eq_refl) in E2
      as (a & b & c & d & w & st & st' & Hy & -> & Hm & Hr).
    apply matches_month_tail in Hm as (e & f & Hr' & He & Hf).
    rewrite Hr in Hr'.
    change ("-"%char :: e :: f :: rest st')
      with ([ "-"; e; f ]%char ++ rest st') in Hr'.
    apply app_inv_tail in Hr'. subst w.
    pose proof (year_start_chars _ _ _ _ _ Hy) as (Ha & Hb & Hc & Hd).
    assert (Hb' : Py.isdigit b = true) by (destruct Hb as [->| ->]; reflexivity).
    rewrite split_year_month by assumption.
    destruct (mk_date _ _ _) as [dt'|] eqn:Ed; [|discriminate].
    cbn [bind]. intros [= <-]. apply mk_date_ok in Ed as [-> Hcal].
    cbn [date_year date_month date_day]. split; [|exact Hcal].
    apply year_start_int, Hy. }
  destruct (search year_re v) as [m|] eqn:E3; [|discriminate].
  rewrite year_re_headed in E3.
  apply (search_from_year_headed _ v [] v None m eq_refl) in E3
    as (a & b & c & d & w & st & st' & Hy & -> & Hm & Hr).
  apply matches_wordb_inv in Hm. subst st'.
  assert (w = []) as ->.
  { apply (app_inv_tail (rest st)). symmetry. exact Hr. }
  destruct (mk_date _ _ _) as [dt'|] eqn:Ed; [|discriminate].
  cbn [bind]. intros [= <-]. apply mk_date_ok in Ed as [-> Hcal].
  cbn [date_year date_month date_day]. split; [|exact Hcal].
  apply year_start_int, Hy.
Qed.

End DateRange.

Section LoopRange.

Lemma year_in_range_date d :
  1900 <= date_year d <= 2099 -> year_in_range (Some (date_year d)).
Proof. intros H y [= <-]. exact H. Qed.

Lemma year_in_range_extract_year s : year_in_range (extract_year s).
Proof. intros y H. eapply extract_year_range, H. Qed.

Lemma publication_stmt_loop_range dates year0 year pd :
  year_in_range year0 ->
  publication_stmt_loop dates year0 None = Ok (year, pd) ->
  year_in_range year /\ date_in_range pd.
Proof.
  revert year0. induction dates as [|date_el dates IH]; intros year0 H0.
  - cbn [publication_stmt_loop]. intros [= <- <-]. split; [exact H0|].
    intros d Hd. discriminate.
  - cbn [publication_stmt_loop].
    destruct (parse_publication_date (date_source date_el)) as [[d|]|] eqn:Ep;
      cbn [bind]; [| |discriminate].
    + intros [= <- <-]. apply parse_publication_date_range in Ep.
      split; [apply year_in_range_date, Ep|]. intros d' [= <-]. exact Ep.
    + assert (Hnone : date_in_range None) by (intros d Hd; discriminate).
      assert (H1 : year_in_range
                (if Py.otruthy (ET.text date_el)
                 then extract_year (or_empty (ET.text date_el)) else year0))
        by (destruct (Py.otruthy _); [apply year_in_range_extract_year|exact H0]).
      destruct (_ && _); [intros [= <- <-]; auto|].
      assert (H2 : year_in_range
                (if Py.otruthy (ET.get date_el "when")
                 then extract_year (or_empty (ET.get date_el "when"))
                 else if Py.otruthy (ET.text date_el)
                      then extract_year (or_empty (ET.text date_el)) else year0))
        by (destruct (Py.otruthy (ET.get _ _));
            [apply year_in_range_extract_year|exact H1]).
      destruct (_ && _); [intros [= <- <-]; auto|].
      apply IH, H2.
Qed.

Lemma imprint_loop_range dates year0 year pd :
  year_in_range year0 ->
  imprint_loop dates year0 None = Ok (year, pd) ->
  year_in_range year /\ date_in_range pd.
Proof.
  intros H0. induction dates as [|date_el dates IH].
  - cbn [imprint_loop]. intros [= <- <-]. split; [exact H0|].
    intros d Hd. discriminate.
  - cbn [imprint_loop].
    destruct (parse_publication_date (date_source date_el)) as [[d|]|] eqn:Ep;
      cbn [bind]; [|exact IH|discriminate].
    intros [= <- <-]. apply parse_publication_date_range in Ep.
    split; [apply year_in_range_date, Ep|]. intros d' [= <-]. exact Ep.
Qed.

Lemma extract_dates_range root year pd :
  extract_dates root = Ok (year, pd) ->
  year_in_range year /\ date_in_range pd.
Proof.
  unfold extract_dates.
  destruct (publication_stmt_loop _ None None) as [[y1 d1]|] eqn:E;
    [|discriminate].
  apply publication_stmt_loop_range in E as [Hy Hd];
    [|intros y Hy; discriminate].
  cbn [bind snd fst]. destruct d1 as [d1|].
  - intros [= <- <-]. auto.
  - apply imprint_loop_range, Hy.
Qed.

End LoopRange.

(** X9. In the record handed to the writer the year is absent or an integer
    from 1900 to 2099, and the publication date is absent or a date of the
    calendar whose year is in that range. *)
Theorem record_dates_in_range fromstring use opened posted sel :
  process_document fromstring use opened posted = Ok sel ->
  exists year publication_date,
    snd sel !! "year" = Some (of_opt_int year)
    /\ snd sel !! "publication_date" = Some (of_opt_date publication_date)
    /\ year_in_range year /\ date_in_range publication_date.
Proof.
  intros H. apply process_document_inv in H as (text & m & _ & Hs & ->).
  rewrite !attach_snippet_frame by discriminate.
  apply select_metadata_inv in Hs as [(_ & _ & Hg)|(_ & Hh)].
  - apply extract_metadata_grobid_truthy in Hg
      as (_ & code & body & root & _ & _ & Hr).
    apply grobid_record_inv in Hr as (year & pd & Hd & Hy & Hp & _).
    exists year, pd. split; [exact Hy|]. split; [exact Hp|].
    exact (extract_dates_range root year pd Hd).
  - apply extract_metadata_inv in Hh as (kw & _ & Hy & Hp & _).
    exists (extract_year text), None. split; [exact Hy|]. split; [exact Hp|].
    split; [apply year_in_range_extract_year|]. intros d Hd. discriminate.
Qed.

Lemma record_dates_in_range_witness :
  exists year publication_date,
    snd imprint_date_record !! "year" = Some (of_opt_int year)
    /\ snd imprint_date_record !! "publication_date"
       = Some (of_opt_date publication_date)
    /\ year_in_range year /\ date_in_range publication_date.
Proof.
  exact (record_dates_in_range (fun _ => Some imprint_date_tei) true
           (Raise PdfReadError) (Response 200 []) imprint_date_record eq_refl).
Defined.

(* ================================================================== *)
(** * Years as words, and the [when] attribute in the date loop *)

Section YearWords.
Import Re.

Lemma isspace_not_word c : Py.isspace c = true -> Py.isword c = false.
Proof.
  destruct c as [[] [] [] [] [] [] [] []]; vm_compute; congruence.
Qed.

Lemma year_start_space c s : Py.isspace c = true -> year_start (c :: s) = false.
Proof.
  intros Hc. destruct (year_start (c :: s)) eqn:E; [|reflexivity].
  destruct s as [|x [|y [|z tl]]]; try discriminate E.
  apply year_start_chars in E as (Ha & _).
  apply isdigit_not_space in Ha. congruence.
Qed.

Lemma year_start_digits s :
  year_start s = true ->
  exists a b c d tl,
    s = a :: b :: c :: d :: tl
    /\ Py.isspace a = false /\ Py.isspace b = false
    /\ Py.isspace c = false /\ Py.isspace d = false
    /\ Py.isword a = true /\ Py.isword d = true.
Proof.
  intros H. destruct s as [|a [|b [|c [|d tl]]]]; try discriminate H.
  pose proof (year_start_chars _ _ _ _ _ H) as (Ha & Hb & Hc & Hd).
  exists a, b, c, d, tl. split; [reflexivity|].
  repeat split; try (apply isdigit_not_space; assumption);
    try (apply isdigit_isword; assumption).
  destruct Hb as [->| ->]; reflexivity.
Qed.

(** The pattern of a year alone matches at a position exactly when a year
    stands there as a word. *)
Lemma rmatch_year_word pv s ps g :
  rmatch (year_headed WordB) (MState pv s ps g) Some = None
  <-> year_at pv s = false.
Proof.
  destruct (year_at pv s) eqn:Ha.
  - split; [intros H|discriminate]. exfalso. revert Ha. unfold year_at.
    rewrite !andb_true_iff, !negb_true_iff. intros [[Hpv Hy] Hn].
    destruct (year_start_digits s Hy)
      as (a & b & c & d & tl & -> & _ & _ & _ & _ & _ & Hd).
    rewrite year_headed_eq in H by assumption.
    cbn [rmatch] in H. unfold at_boundary in H. cbn [prev rest] in H.
    change (drop 4 (a :: b :: c :: d :: tl)) with tl in Hn.
    change (is_word_opt (Some d)) with (Py.isword d) in H.
    rewrite Hd, Hn in H. discriminate H.
  - split; [reflexivity|]. intros _.
    destruct (rmatch _ _ _) as [res|] eqn:E; [exfalso|reflexivity].
    apply year_headed_inv in E as (a & b & c & d & tl & Hr & Hy & Hb & Hk).
    cbn [rest pos grp prev] in Hr, Hy, Hb, Hk. subst s.
    destruct (year_start_digits _ Hy)
      as (a' & b' & c' & d' & tl' & [= <- <- <- <- <-] & _ & _ & _ & _ & Hwa & Hwd).
    unfold at_boundary in Hb. cbn [prev rest head is_word_opt] in Hb.
    rewrite Hwa in Hb.
    cbn [rmatch] in Hk. unfold at_boundary in Hk. cbn [prev rest] in Hk.
    change (is_word_opt (Some d)) with (Py.isword d) in Hk. rewrite Hwd in Hk.
    unfold year_at in Ha.
    change (drop 4 (a :: b :: c :: d :: tl)) with tl in Ha. rewrite Hy in Ha.
    destruct (is_word_opt pv); [discriminate Hb|].
    destruct (is_word_opt (head tl)); [discriminate Hk | discriminate Ha].
Qed.

Lemma search_year_re_none whole pv ps s :
  search_from year_re whole pv ps s = None <-> year_word_from pv s = false.
Proof.
  rewrite year_re_headed. revert pv ps.
  induction s as [|x s IH]; intros pv ps.
  - cbn [search_from year_word_from]. rewrite orb_false_r.
    rewrite <- (rmatch_year_word pv [] ps None).
    destruct (rmatch _ _ _); split; congruence.
  - rewrite search_from_cons. cbn [year_word_from].
    rewrite orb_false_iff, <- (rmatch_year_word pv (x :: s) ps None),
      <- (IH (Some x) (S ps)).
    destruct (rmatch _ _ _); [split; [discriminate | intros [H _]; discriminate]|].
    tauto.
Qed.

(** Where a pattern that goes on with a dash after the year matches, a year
    stands as a word. *)
Lemma search_dashed_year_word R whole pv ps s m :
  search_from (year_headed (Seq dash R)) whole pv ps s = Some m ->
  year_word_from pv s = true.
Proof.
  revert pv ps. induction s as [|x s IH]; intros pv ps.
  - cbn [search_from].
    destruct (rmatch _ _ _) eqn:E; [|discriminate].
    apply year_headed_inv in E as (? & ? & ? & ? & ? & E & _). discriminate E.
  - rewrite search_from_cons. cbn [year_word_from].
    destruct (rmatch _ _ _) as [res|] eqn:E.
    + intros _. apply orb_true_iff. left.
      apply year_headed_inv in E as (a & b & c & d & tl & Hr & Hy & Hb & Hk).
      cbn [rest pos grp prev] in Hr, Hy, Hb, Hk.
      destruct (year_start_digits _ Hy)
        as (a' & b' & c' & d' & tl' & E' & _ & _ & _ & _ & Hwa & _).
      rewrite Hr in E'. injection E' as <- <- <- <- <-.
      unfold at_boundary in Hb. cbn [prev rest] in Hb. rewrite Hr in Hb.
      cbn [head is_word_opt] in Hb. rewrite Hwa in Hb.
      unfold year_at. rewrite Hy, Hr.
      change (drop 4 (a :: b :: c :: d :: tl)) with tl.
      destruct (is_word_opt pv); [discriminate Hb|].
      cbn [rmatch rest] in Hk. destruct tl as [|y tl]; [discriminate Hk|].
      unfold dash in Hk. cbn [rmatch rest] in Hk.
      destruct (exactly "-" y) eqn:Hd; [|discriminate Hk].
      unfold exactly, Py.eqc in Hd. apply Ascii.eqb_eq in Hd. subst y.
      reflexivity.
    + intros H. apply IH in H. rewrite H. apply orb_true_r.
Qed.

Lemma year_at_prev pv pv' s :
  is_word_opt pv = is_word_opt pv' -> year_at pv s = year_at pv' s.
Proof. intros H. unfold year_at. rewrite H. reflexivity. Qed.

Lemma year_word_from_prev pv pv' s :
  is_word_opt pv = is_word_opt pv' ->
  year_word_from pv s = year_word_from pv' s.
Proof.
  intros H. destruct s; cbn [year_word_from];
    rewrite (year_at_prev pv pv') by exact H; reflexivity.
Qed.

Lemma year_at_space pv c s : Py.isspace c = true -> year_at pv (c :: s) = false.
Proof.
  intros Hc. unfold year_at. rewrite year_start_space by exact Hc.
  apply andb_false_intro1, andb_false_r.
Qed.

Lemma year_word_from_lstrip s :
  year_word_from None (Py.lstrip s) = year_word_from None s.
Proof.
  induction s as [|c s IH]; [reflexivity|].
  cbn [Py.lstrip]. destruct (Py.isspace c) eqn:Hc; [|reflexivity].
  cbn [year_word_from]. rewrite year_at_space by exact Hc. cbn [orb].
  rewrite IH. apply year_word_from_prev.
  cbn [is_word_opt]. symmetry. apply isspace_not_word, Hc.
Qed.

Lemma year_word_from_spaces pv b :
  forallb Py.isspace b = true -> year_word_from pv b = false.
Proof.
  revert pv. induction b as [|c b IH]; intros pv Hb.
  - cbn [year_word_from]. unfold year_at. cbn [year_start].
    rewrite andb_false_r. reflexivity.
  - cbn [forallb] in Hb. apply andb_true_iff in Hb as [Hc Hb].
    cbn [year_word_from]. rewrite year_at_space by exact Hc. apply IH, Hb.
Qed.

Lemma head_spaces b :
  forallb Py.isspace b = true -> is_word_opt (head b) = false.
Proof.
  destruct b as [|c b]; [reflexivity|]. cbn [forallb head is_word_opt].
  intros H. apply andb_true_iff in H as [Hc _]. apply isspace_not_word, Hc.
Qed.

Lemma year_start_app_spaces v b :
  forallb Py.isspace b = true -> year_start (v ++ b) = year_start v.
Proof.
  intros Hb. destruct (year_start v) eqn:Ev.
  - destruct (year_start_digits v Ev) as (a & x & c & d & tl & -> & _).
    exact Ev.
  - destruct (year_start (v ++ b)) eqn:E; [exfalso|reflexivity].
    destruct (year_start_digits _ E)
      as (a & x & c & d & tl & Hs & Ha & Hx & Hc & Hd & _).
    rewrite forallb_forall in Hb.
    assert (Hin : forall y, In y b -> Py.isspace y = true) by exact Hb.
    destruct v as [|v1 [|v2 [|v3 [|v4 v]]]]; cbn [app] in Hs.
    + rewrite Hs in Hin. rewrite (Hin a) in Ha by (left; reflexivity).
      discriminate.
    + destruct b as [|b1 b]; [discriminate Hs|]. injection Hs as -> -> Hs.
      rewrite (Hin x) in Hx by (left; reflexivity). discriminate.
    + destruct b as [|b1 b]; [discriminate Hs|]. injection Hs as -> -> -> Hs.
      rewrite (Hin c) in Hc by (left; reflexivity). discriminate.
    + destruct b as [|b1 b]; [discriminate Hs|]. injection Hs as -> -> -> -> Hs.
      rewrite (Hin d) in Hd by (left; reflexivity). discriminate.
    + change (year_start (v1 :: v2 :: v3 :: v4 :: v))
        with (year_start ((v1 :: v2 :: v3 :: v4 :: v) ++ b)) in Ev.
      congruence.
Qed.

Lemma year_at_app_spaces pv v b :
  forallb Py.isspace b = true -> year_at pv (v ++ b) = year_at pv v.
Proof.
  intros Hb. unfold year_at. rewrite year_start_app_spaces by exact Hb.
  destruct (year_start v) eqn:Ev; [|rewrite !andb_false_r; reflexivity].
  destruct (year_start_digits v Ev) as (a & x & c & d & tl & -> & _).
  change (drop 4 ((a :: x :: c :: d :: tl) ++ b)) with (tl ++ b).
  change (drop 4 (a :: x :: c :: d :: tl)) with tl.
  destruct tl as [|t tl]; [|reflexivity].
  cbn [app head]. rewrite head_spaces by exact Hb. reflexivity.
Qed.

Lemma year_word_from_app_spaces pv v b :
  forallb Py.isspace b = true ->
  year_word_from pv (v ++ b) = year_word_from pv v.
Proof.
  intros Hb. revert pv. induction v as [|x v IH]; intros pv.
  - cbn [app]. rewrite year_word_from_spaces by exact Hb.
    cbn [year_word_from]. unfold year_at. cbn [year_start].
    rewrite andb_false_r. reflexivity.
  - change ((x :: v) ++ b) with (x :: (v ++ b)). cbn [year_word_from].
    rewrite IH. f_equal.
    change (x :: (v ++ b)) with ((x :: v) ++ b).
    apply year_at_app_spaces, Hb.
Qed.

Lemma lstrip_spaces s :
  exists a, s = a ++ Py.lstrip s /\ forallb Py.isspace a = true.
Proof.
  induction s as [|c s (a & IH & Ha)]; [exists []; auto|].
  cbn [Py.lstrip]. destruct (Py.isspace c) eqn:Hc.
  - exists (c :: a). cbn [app forallb]. rewrite Hc, Ha. split; [congruence | reflexivity].
  - exists []. auto.
Qed.

Lemma rstrip_spaces s :
  exists b, s = Py.rstrip s ++ b /\ forallb Py.isspace b = true.
Proof.
  unfold Py.rstrip. destruct (lstrip_spaces (rev s)) as (a & Ha & Hsp).
  exists (rev a). split.
  - rewrite <- rev_app_distr, <- Ha. symmetry. apply rev_involutive.
  - rewrite forallb_forall in *. intros x Hx. apply Hsp, in_rev, Hx.
Qed.

Lemma year_word_from_strip s :
  year_word_from None (Py.strip s) = year_word_from None s.
Proof.
  unfold Py.strip.
  destruct (rstrip_spaces (Py.lstrip s)) as (b & Hb & Hsp).
  rewrite <- (year_word_from_lstrip s). rewrite Hb at 2.
  symmetry. apply year_word_from_app_spaces, Hsp.
Qed.

Lemma extract_year_none s :
  extract_year s = None <-> year_word_from None s = false.
Proof.
  unfold extract_year, search. rewrite <- (search_year_re_none s None 0%nat s).
  destruct (search_from _ _ _ _ _); split; congruence.
Qed.

Lemma parse_publication_date_none s :
  parse_publication_date (Some s) = Ok None <-> extract_year s = None.
Proof.
  rewrite extract_year_none, <- year_word_from_strip.
  unfold parse_publication_date. cbn [Py.otruthy or_empty].
  destruct s as [|c s]; [cbn; tauto|]. cbn [Py.truthy negb].
  set (v := Py.strip (c :: s)).
  destruct (search iso_date_re v) as [m|] eqn:E1.
  { change iso_date_re
      with (year_headed
              (Seq dash (seqs [digit; digit; dash; digit; digit; WordB]))) in E1.
    apply search_dashed_year_word in E1. rewrite E1.
    destruct (fromisoformat _); split; discriminate. }
  destruct (search year_month_re v) as [m|] eqn:E2.
  { change year_month_re
      with (year_headed (Seq dash (seqs [digit; digit; WordB]))) in E2.
    apply search_dashed_year_word in E2. rewrite E2.
    destruct (Py.split_char _ _) as [|y [|mo [|z l]]]; try (split; discriminate).
    destruct (mk_date _ _ _); split; discriminate. }
  destruct (search year_re v) as [m|] eqn:E3.
  - assert (year_word_from None v = true) as ->.
    { destruct (year_word_from None v) eqn:E; [reflexivity|].
      apply (search_year_re_none v None 0%nat v) in E.
      unfold search in E3. congruence. }
    destruct (mk_date _ _ _); split; discriminate.
  - apply (search_year_re_none v None 0%nat v) in E3. rewrite E3. tauto.
Qed.

End YearWords.

(** X10. The date parser returns nothing on a string exactly when
    [extract_year] finds no year in it. Hence, in the loop over the date
    nodes of the publication statement, the year of the [when] attribute
    (lines 186-190) is never taken: when control reaches it the attribute
    holds no year. A node without a parsable date contributes the year of
    its text or nothing, and the loop goes on with no year. *)
Theorem when_attribute_year_never_taken :
  (forall s, parse_publication_date (Some s) = Ok None <-> extract_year s = None)
  /\ (forall date_el,
        parse_publication_date (date_source date_el) = Ok None ->
        Py.otruthy (ET.get date_el "when") = true ->
        extract_year (or_empty (ET.get date_el "when")) = None)
  /\ (forall date_el dates,
        parse_publication_date (date_source date_el) = Ok None ->
        publication_stmt_loop (date_el :: dates) None None
        = match (if Py.otruthy (ET.text date_el)
                 then extract_year (or_empty (ET.text date_el)) else None) with
          | Some y => Ok (Some y, None)
          | None => publication_stmt_loop dates None None
          end).
Proof.
  assert (Hwhen : forall date_el,
             parse_publication_date (date_source date_el) = Ok None ->
             Py.otruthy (ET.get date_el "when") = true ->
             extract_year (or_empty (ET.get date_el "when")) = None).
  { intros date_el Hp Hw. unfold date_source, Py.or_else in Hp.
    rewrite Hw in Hp. destruct (ET.get date_el "when") as [w|]; [|discriminate Hw].
    apply parse_publication_date_none, Hp. }
  split; [exact parse_publication_date_none|]. split; [exact Hwhen|].
  intros date_el dates Hp. cbn [publication_stmt_loop]. rewrite Hp. cbn [bind].
  specialize (Hwhen date_el Hp).
  destruct (Py.otruthy (ET.text date_el)) eqn:Ht; cbn [andb].
  - destruct (extract_year (or_empty (ET.text date_el))) as [y|] eqn:Ey.
    + pose proof (extract_year_range _ _ Ey) as Hr.
      cbn [int_truthy]. destruct (y =? 0) eqn:E0; [lia|]. reflexivity.
    + cbn [int_truthy].
      destruct (Py.otruthy (ET.get date_el "when")); [|reflexivity].
      rewrite Hwhen by reflexivity. reflexivity.
  - destruct (Py.otruthy (ET.get date_el "when")); [|reflexivity].
    rewrite Hwhen by reflexivity. reflexivity.
Qed.

(* ================================================================== *)
(** * The date node on which the parser raises *)

Section RaisingDates.
Import Re.

Lemma search_iso_shape v m :
  search iso_date_re v = Some m ->
  exists a b c d e f g h,
    group0 m = [a; b; c; d; "-"; e; f; "-"; g; h]%char
    /\ fromisoformat (group0 m)
       = mk_date (Py.int [a; b; c; d]) (Py.int [e; f]) (Py.int [g; h]).
Proof.
  intros E1. rewrite iso_date_re_headed in E1.
  apply (search_from_year_headed _ v [] v None m eq_refl) in E1
    as (a & b & c & d & w & st & st' & Hy & Hg0 & Hm & Hr).
  apply matches_day_tail in Hm as (e & f & g & h & Hr' & He & Hf & Hg & Hh).
  rewrite Hr in Hr'.
  change ("-"%char :: e :: f :: "-"%char :: g :: h :: rest st')
    with ([ "-"; e; f; "-"; g; h ]%char ++ rest st') in Hr'.
  apply app_inv_tail in Hr'. subst w.
  exists a, b, c, d, e, f, g, h. split; [exact Hg0|]. rewrite Hg0.
  pose proof (year_start_chars _ _ _ _ _ Hy) as (Ha & Hb & Hc & Hd).
  assert (Hb' : Py.isdigit b = true) by (destruct Hb as [->| ->]; reflexivity).
  unfold fromisoformat. rewrite split_full_date by assumption.
  cbn [length Nat.eqb andb app forallb].
  rewrite Ha, Hb', Hc, Hd, He, Hf, Hg, Hh. reflexivity.
Qed.

Lemma search_year_month_shape v m :
  search year_month_re v = Some m ->
  exists a b c d e f,
    group0 m = [a; b; c; d; "-"; e; f]%char
    /\ Py.split_char "-" (group0 m) = [[a; b; c; d]; [e; f]].
Proof.
  intros E2. rewrite year_month_re_headed in E2.
  apply (search_from_year_headed _ v [] v None m eq_refl) in E2
    as (a & b & c & d & w & st & st' & Hy & Hg0 & Hm & Hr).
  apply matches_month_tail in Hm as (e & f & Hr' & He & Hf).
  rewrite Hr in Hr'.
  change ("-"%char :: e :: f :: rest st')
    with ([ "-"; e; f ]%char ++ rest st') in Hr'.
  apply app_inv_tail in Hr'. subst w.
  exists a, b, c, d, e, f. split; [exact Hg0|]. rewrite Hg0.
  pose proof (year_start_chars _ _ _ _ _ Hy) as (Ha & Hb & Hc & Hd).
  assert (Hb' : Py.isdigit b = true) by (destruct Hb as [->| ->]; reflexivity).
  apply split_year_month; assumption.
Qed.

Lemma search_year_date v m :
  search year_re v = Some m ->
  exists dt, mk_date (Py.int (group0 m)) 1 1 = Ok dt.
Proof.
  intros E3. rewrite year_re_headed in E3.
  apply (search_from_year_headed _ v [] v None m eq_refl) in E3
    as (a & b & c & d & w & st & st' & Hy & Hg0 & Hm & Hr).
  apply matches_wordb_inv in Hm. subst st'.
  assert (w = []) as ->
    by (apply (app_inv_tail (rest st)); symmetry; exact Hr).
  rewrite Hg0, mk_date_in_calendar.
  pose proof (year_start_int _ _ _ _ Hy) as Hrange.
  assert (in_calendar (Py.int [a; b; c; d]) 1 1 = true) as ->; [|eauto].
  generalize dependent (Py.int [a; b; c; d]). intros y Hrange.
  unfold in_calendar. change (days_in_month y 1) with 31.
  rewrite !andb_true_iff, !Z.leb_le. lia.
Qed.

(** The date parser raises exactly on a string in which the token it reads
    denotes no date; it raises [ValueError]. *)
Lemma parse_publication_date_raises_iff value e :
  parse_publication_date value = Raise e <->
  e = ValueError
  /\ exists s, value = Some s /\ s <> [] /\ reads_no_date (Py.strip s).
Proof.
  destruct value as [s|].
  2:{ split; [discriminate|]. intros (_ & s & H & _). discriminate. }
  assert (H : parse_publication_date (Some s) = Raise e <->
              e = ValueError /\ s <> [] /\ reads_no_date (Py.strip s)).
  2:{ rewrite H. split.
      - intros (-> & Hne & Hno). eauto.
      - intros (-> & s' & [= <-] & Hne & Hno). auto. }
  unfold parse_publication_date, reads_no_date.
  cbn [Py.otruthy negb or_empty].
  destruct s as [|c s]; cbn [Py.truthy negb].
  { split; [discriminate|]. intros (_ & H & _). congruence. }
  destruct (search iso_date_re (Py.strip (c :: s))) as [m|] eqn:E1.
  { destruct (search_iso_shape _ m E1)
      as (a & b & c' & d & e' & f & g & h & Hg0 & ->).
    rewrite mk_date_in_calendar.
    destruct (in_calendar _ _ _) eqn:Hcal; cbn [bind].
    - split; [discriminate|].
      intros (_ & _ & [H|[H _]]); [|discriminate].
      destruct H as (m' & a1 & b1 & c1 & d1 & e1 & f1 & g1 & h1 & [= <-] & Hg1
                     & Hc1).
      rewrite Hg0 in Hg1. injection Hg1 as <- <- <- <- <- <- <- <-.
      congruence.
    - split.
      + intros [= <-]. split; [reflexivity|]. split; [discriminate|].
        left. exists m, a, b, c', d, e', f, g, h. auto.
      + intros [-> _]. reflexivity. }
  destruct (search year_month_re (Py.strip (c :: s))) as [m|] eqn:E2.
  { destruct (search_year_month_shape _ m E2)
      as (a & b & c' & d & e' & f & Hg0 & ->).
    rewrite mk_date_in_calendar.
    destruct (in_calendar _ _ _) eqn:Hcal; cbn [bind].
    - split; [discriminate|].
      intros (_ & _ & [H|[_ H]]).
      + destruct H as (m' & ? & ? & ? & ? & ? & ? & ? & ? & H & _).
        discriminate.
      + destruct H as (m' & a1 & b1 & c1 & d1 & e1 & f1 & [= <-] & Hg1 & Hc1).
        rewrite Hg0 in Hg1. injection Hg1 as <- <- <- <- <- <-.
        congruence.
    - split.
      + intros [= <-]. split; [reflexivity|]. split; [discriminate|].
        right. split; [reflexivity|]. exists m, a, b, c', d, e', f. auto.
      + intros [-> _]. reflexivity. }
  destruct (search year_re (Py.strip (c :: s))) as [m|] eqn:E3.
  - destruct (search_year_date _ m E3) as [dt ->]. cbn [bind].
    split; [discriminate|].
    intros (_ & _ & [H|[_ H]]).
    + destruct H as (m' & ? & ? & ? & ? & ? & ? & ? & ? & H & _).
      discriminate.
    + destruct H as (m' & ? & ? & ? & ? & ? & ? & H & _). discriminate.
  - split; [discriminate|].
    intros (_ & _ & [H|[_ H]]).
    + destruct H as (m' & ? & ? & ? & ? & ? & ? & ? & ? & H & _).
      discriminate.
    + destruct H as (m' & ? & ? & ? & ? & ? & ? & H & _). discriminate.
Qed.

End RaisingDates.

Section ReachedNodes.

(** One turn of the publication-statement loop at a node without a
    parsable date: the year of its text ends the loop, and nothing else
    does. *)
Lemma publication_stmt_loop_step date_el dates :
  parse_publication_date (date_source date_el) = Ok None ->
  publication_stmt_loop (date_el :: dates) None None
  = match (if Py.otruthy (ET.text date_el)
           then extract_year (or_empty (ET.text date_el)) else None) with
    | Some y => Ok (Some y, None)
    | None => publication_stmt_loop dates None None
    end.
Proof.
  intros Hp. cbn [publication_stmt_loop]. rewrite Hp. cbn [bind].
  assert (Hwhen : Py.otruthy (ET.get date_el "when") = true ->
                  extract_year (or_empty (ET.get date_el "when")) = None).
  { intros Hw. unfold date_source, Py.or_else in Hp. rewrite Hw in Hp.
    destruct (ET.get date_el "when") as [w|]; [|discriminate Hw].
    apply parse_publication_date_none, Hp. }
  destruct (Py.otruthy (ET.text date_el)) eqn:Ht; cbn [andb].
  - destruct (extract_year (or_empty (ET.text date_el))) as [y|] eqn:Ey.
    + pose proof (extract_year_range _ _ Ey) as Hr.
      cbn [int_truthy]. destruct (y =? 0) eqn:E0; [lia|]. reflexivity.
    + cbn [int_truthy].
      destruct (Py.otruthy (ET.get date_el "when")); [|reflexivity].
      rewrite Hwhen by reflexivity. reflexivity.
  - destruct (Py.otruthy (ET.get date_el "when")); [|reflexivity].
    rewrite Hwhen by reflexivity. reflexivity.
Qed.

Lemma or_empty_falsy o : Py.otruthy o = false -> or_empty o = [].
Proof. destruct o as [[|c s]|]; [reflexivity|discriminate|reflexivity]. Qed.

(** The loop goes on past a node exactly when the node yields nothing. *)
Lemma publication_stmt_loop_goes_on date_el :
  parse_publication_date (date_source date_el) = Ok None ->
  (if Py.otruthy (ET.text date_el)
   then extract_year (or_empty (ET.text date_el)) else None) = None ->
  yields_nothing date_el.
Proof.
  intros Hp Hy. split; [exact Hp|]. split.
  - destruct (Py.otruthy (ET.text date_el)) eqn:Ht; [exact Hy|].
    rewrite or_empty_falsy by exact Ht. reflexivity.
  - destruct (Py.otruthy (ET.get date_el "when")) eqn:Hw.
    + unfold date_source, Py.or_else in Hp. rewrite Hw in Hp.
      destruct (ET.get date_el "when") as [w|]; [|discriminate Hw].
      apply parse_publication_date_none, Hp.
    + rewrite or_empty_falsy by exact Hw. reflexivity.
Qed.

Lemma publication_stmt_loop_skip date_el dates :
  yields_nothing date_el ->
  publication_stmt_loop (date_el :: dates) None None
  = publication_stmt_loop dates None None.
Proof.
  intros (Hp & Ht & _). rewrite publication_stmt_loop_step by exact Hp.
  rewrite Ht. destruct (Py.otruthy (ET.text date_el)); reflexivity.
Qed.

Lemma publication_stmt_loop_raises_iff dates e :
  publication_stmt_loop dates None None = Raise e <->
  exists pre date_el post,
    dates = pre ++ date_el :: post
    /\ Forall yields_nothing pre
    /\ parse_publication_date (date_source date_el) = Raise e.
Proof.
  split.
  - induction dates as [|x dates IH]; [discriminate|].
    destruct (parse_publication_date (date_source x)) as [[d|]|e'] eqn:Hp.
    + cbn [publication_stmt_loop]. rewrite Hp. discriminate.
    + rewrite publication_stmt_loop_step by exact Hp.
      destruct (if Py.otruthy (ET.text x) then _ else _) as [y|] eqn:Hy;
        [discriminate|].
      intros H. destruct (IH H) as (pre & date_el & post & -> & Hpre & Hd).
      exists (x :: pre), date_el, post. split; [reflexivity|].
      split; [|exact Hd].
      constructor; [apply publication_stmt_loop_goes_on; assumption|exact Hpre].
    + cbn [publication_stmt_loop]. rewrite Hp. cbn [bind]. intros [= <-].
      exists [], x, dates. split; [reflexivity|]. split; [constructor|exact Hp].
  - intros (pre & date_el & post & -> & Hpre & Hd).
    induction Hpre as [|x pre Hx _ IH]; cbn [app].
    + cbn [publication_stmt_loop]. rewrite Hd. reflexivity.
    + rewrite publication_stmt_loop_skip by exact Hx. exact IH.
Qed.

Lemma imprint_loop_raises_iff dates year0 e :
  imprint_loop dates year0 None = Raise e <->
  exists pre date_el post,
    dates = pre ++ date_el :: post
    /\ Forall gives_no_date pre
    /\ parse_publication_date (date_source date_el) = Raise e.
Proof.
  split.
  - induction dates as [|x dates IH]; [discriminate|].
    cbn [imprint_loop].
    destruct (parse_publication_date (date_source x)) as [[d|]|e'] eqn:Hp;
      cbn [bind]; [discriminate| |].
    + intros H. destruct (IH H) as (pre & date_el & post & -> & Hpre & Hd).
      exists (x :: pre), date_el, post. split; [reflexivity|].
      split; [constructor; assumption | exact Hd].
    + intros [= <-]. exists [], x, dates.
      split; [reflexivity|]. split; [constructor|exact Hp].
  - intros (pre & date_el & post & -> & Hpre & Hd).
    induction Hpre as [|x pre Hx _ IH]; cbn [app imprint_loop].
    + rewrite Hd. reflexivity.
    + unfold gives_no_date in Hx. rewrite Hx. exact IH.
Qed.

(** The date loops raise exactly when they reach a node on whose string the
    parser raises. *)
Lemma extract_dates_raises_iff root e :
  extract_dates root = Raise e <->
  exists date_el,
    date_loops_reach root date_el
    /\ parse_publication_date (date_source date_el) = Raise e.
Proof.
  unfold extract_dates, date_loops_reach.
  destruct (publication_stmt_loop (publication_stmt_dates root) None None)
    as [[year [d|]]|e'] eqn:E; cbn [bind snd fst].
  - split; [discriminate|].
    intros (date_el & [(pre & post & Hd & Hpre)|(y & pre & post & H & _)] & Hr);
      [|discriminate].
    assert (Hc : publication_stmt_loop (publication_stmt_dates root) None None
                 = Raise e)
      by (apply publication_stmt_loop_raises_iff; eauto 6).
    congruence.
  - rewrite imprint_loop_raises_iff. split.
    + intros (pre & date_el & post & Hd & Hpre & Hr).
      exists date_el. split; [|exact Hr]. right. eauto 6.
    + intros (date_el & [(pre & post & Hd & Hpre)|(y & pre & post & _ & Hd & Hpre)]
              & Hr).
      * assert (Hc : publication_stmt_loop (publication_stmt_dates root)
                       None None = Raise e)
          by (apply publication_stmt_loop_raises_iff; eauto 6).
        congruence.
      * eauto 6.
  - split.
    + intros [= <-]. apply publication_stmt_loop_raises_iff in E
        as (pre & date_el & post & Hd & Hpre & Hr).
      exists date_el. split; [|exact Hr]. left. eauto.
    + intros (date_el & [(pre & post & Hd & Hpre)|(y & pre & post & H & _)] & Hr);
        [|discriminate].
      assert (Hc : publication_stmt_loop (publication_stmt_dates root) None None
                   = Raise e)
        by (apply publication_stmt_loop_raises_iff; eauto 6).
      congruence.
Qed.

End ReachedNodes.

Lemma process_document_raises_dates fromstring use opened posted e :
  process_document fromstring use opened posted = Raise e <->
  extract_text_from_pdf opened 2 = Raise e
  \/ ((exists text, extract_text_from_pdf opened 2 = Ok text)
      /\ use = true
      /\ ((posted = HttpRaises e /\ is_RequestException e = false)
          \/ (e = ValueError
              /\ exists status_code body root,
                   posted = Response status_code body
                   /\ raises_for_status status_code = false
                   /\ fromstring body = Some root
                   /\ extract_dates root = Raise ValueError))).
Proof.
  unfold process_document.
  destruct (extract_text_from_pdf opened 2) as [text|e0] eqn:Et; cbn [bind].
  2:{ split; [intros [= <-]; left; reflexivity|].
      intros [[= <-]|[[text' Ht] _]]; [reflexivity | discriminate]. }
  destruct use.
  - destruct (extract_metadata_grobid fromstring posted) as [r|e0] eqn:Eg.
    + rewrite (select_metadata_structured fromstring text posted r Eg).
      destruct r as [m|]; cbn [bind].
      * split; [discriminate|].
        intros [H|(_ & _ & [[-> He]|(-> & c & b & root & -> & Hs & Hf & Hd)])];
          [discriminate| |].
        -- cbn in Eg. rewrite He in Eg. discriminate.
        -- cbn in Eg. rewrite Hs, Hf in Eg.
           apply grobid_record_raises in Hd. rewrite Hd in Eg. discriminate.
      * destruct (extract_metadata_returns text) as [m ->]. cbn [bind].
        split; [discriminate|].
        intros [H|(_ & _ & [[-> He]|(-> & c & b & root & -> & Hs & Hf & Hd)])];
          [discriminate| |].
        -- cbn in Eg. rewrite He in Eg. discriminate.
        -- cbn in Eg. rewrite Hs, Hf in Eg.
           apply grobid_record_raises in Hd. rewrite Hd in Eg. discriminate.
    + unfold select_metadata. rewrite Eg. cbn [bind].
      unfold extract_metadata_grobid in Eg.
      destruct posted as [status_code body|e1].
      * destruct (raises_for_status status_code) eqn:Hs; [discriminate|].
        destruct (fromstring body) as [root|] eqn:Hf; [|discriminate].
        destruct (grobid_record root) as [m|e1] eqn:Hr; [discriminate|].
        cbn [bind] in Eg. injection Eg as ->.
        apply grobid_record_raises in Hr.
        pose proof (extract_dates_raises root e0 Hr) as ->.
        split.
        -- intros [= <-]. right. split; [eauto|]. split; [reflexivity|].
           right. split; [reflexivity|]. eauto 8.
        -- intros [H|(_ & _ & [[H _]|(-> & _)])];
             [discriminate | discriminate | reflexivity].
      * destruct (is_RequestException e1) eqn:He; [discriminate|].
        injection Eg as ->. split.
        -- intros [= <-]. right. split; [eauto|]. split; [reflexivity|].
           left. auto.
        -- intros [H|(_ & _ & [[[= ->] _]|(_ & c & b & root & H & _)])];
             [discriminate | reflexivity | discriminate].
  - rewrite select_metadata_heuristic.
    destruct (extract_metadata_returns text) as [m ->]. cbn [bind].
    split; [discriminate|].
    intros [H|(_ & H & _)]; discriminate.
Qed.


(** X6. Processing a document raises exactly in three cases: the text
    extraction raises; or, with the service in use, the upload raises
    something that is no request error; or the response parses and the date
    loops reach a date node on whose string the date parser raises, which
    is then [ValueError]: the first full date that the pattern finds in the
    string or, without one, the first year and month, is no date of the
    calendar. A node that the loops do not reach raises nothing, and the
    heuristic extractor never raises. The strings are those of the
    embedding, of code points up to U+00FF; beyond them
    [date.fromisoformat] also refuses digits that are not ASCII. *)
Theorem process_document_raises fromstring use opened posted e :
  process_document fromstring use opened posted = Raise e <->
  extract_text_from_pdf opened 2 = Raise e
  \/ ((exists text, extract_text_from_pdf opened 2 = Ok text)
      /\ use = true
      /\ ((posted = HttpRaises e /\ is_RequestException e = false)
          \/ (e = ValueError
              /\ exists status_code body root date_el s,
                   posted = Response status_code body
                   /\ raises_for_status status_code = false
                   /\ fromstring body = Some root
                   /\ date_loops_reach root date_el
                   /\ date_source date_el = Some s
                   /\ s <> []
                   /\ reads_no_date (Py.strip s)))).
Proof.
  rewrite process_document_raises_dates.
  split; (intros [H|(Ht & Hu & [H|(-> & H)])]; [left; exact H | right..];
          (split; [exact Ht|]); (split; [exact Hu|]); [left; exact H|right];
          (split; [reflexivity|])).
  - destruct H as (code & body & root & Hp & Hs & Hf & Hd).
    apply extract_dates_raises_iff in Hd as (date_el & Hreach & Hr).
    apply parse_publication_date_raises_iff in Hr as (_ & s & Hsrc & Hne & Hno).
    exists code, body, root, date_el, s. auto 10.
  - destruct H as (code & body & root & date_el & s & Hp & Hs & Hf & Hreach
                   & Hsrc & Hne & Hno).
    exists code, body, root. split; [exact Hp|]. split; [exact Hs|].
    split; [exact Hf|]. apply extract_dates_raises_iff.
    exists date_el. split; [exact Hreach|].
    apply parse_publication_date_raises_iff. split; [reflexivity|]. eauto.
Qed.

Lemma process_document_raises_witness :
  process_document (fun _ => Some late_february_30_tei) true
    (Raise PdfReadError) (Response 200 []) = Raise ValueError.
Proof.
  apply (proj2 (process_document_raises (fun _ => Some late_february_30_tei)
                  true (Raise PdfReadError) (Response 200 []) ValueError)).
  right. split; [exists []; reflexivity|]. split; [reflexivity|].
  right. split; [reflexivity|].
  exists 200, [], late_february_30_tei,
    (tei_el "date" {[ "when" := py "2020-02-30" ]} None []),
    (py "2020-02-30").
  split; [reflexivity|]. split; [reflexivity|]. split; [reflexivity|].
  split.
  - left. exists [tei_el "date" ∅ (Some (py "in press")) []], [].
    split; [reflexivity|]. repeat constructor.
  - split; [reflexivity|]. split; [discriminate|].
    left. eexists _, "2"%char, "0"%char, "2"%char, "0"%char, "0"%char,
      "2"%char, "3"%char, "0"%char.
    split; [reflexivity|]. split; reflexivity.
Defined.



(* ================================================================== *)
(** * The failures of [main] *)

Section Abort.
Variable fromstring : str -> option ET.Element.
Variable executes : nat -> write_outcome.





End Abort.



(* ================================================================== *)
(** * The shape of the string fields *)

Section CleanFields.

Lemma strip_trimmed s : Py.truthy (Py.strip s) = true -> trimmed (Py.strip s).
Proof.
  intros H. split; [|apply strip_idempotent].
  intros E. rewrite E in H. discriminate.
Qed.

Lemma normalize_whitespace_normalised value r :
  normalize_whitespace value = Some r -> normalised r.
Proof.
  destruct value as [s|]; [|discriminate].
  rewrite normalize_whitespace_eq.
  pose proof (split_words s) as Hws.
  destruct (Py.split s) as [|w ws]; [discriminate|]. intros E.
  assert (Hr : r = Py.join (py " ") (w :: ws)) by congruence.
  inversion Hws as [|? ? Hw _]; subst.
  destruct (join_words_head w ws Hw) as (c & t & Hj & _).
  split; [split|].
  - rewrite Hj. discriminate.
  - apply strip_join_words, Hws.
  - apply single_spaced_join, Hws.
Qed.

Lemma element_text_normalised element r :
  element_text element = Some r -> normalised r.
Proof.
  destruct element as [e|]; [|discriminate].
  apply normalize_whitespace_normalised.
Qed.

Lemma truthy_values_in x l : In x (truthy_values l) -> In (Some x) l.
Proof.
  unfold truthy_values. rewrite in_flat_map. intros ([s|] & Hin & Hx);
    cbn [ET.truthy_list] in Hx; [|destruct Hx].
  destruct (Py.truthy s); [|destruct Hx].
  destruct Hx as [<-|[]]. exact Hin.
Qed.

Lemma extract_affiliations_normalised author_el :
  Forall normalised (extract_affiliations author_el).
Proof.
  apply List.Forall_forall. intros x Hx. unfold extract_affiliations in Hx.
  apply truthy_values_in, in_flat_map in Hx as (aff & _ & Hx).
  unfold affiliation_entry in Hx.
  destruct (_ ++ _) as [|p parts]; [destruct Hx|].
  destruct Hx as [Hx|[]]. eapply normalize_whitespace_normalised, Hx.
Qed.

Lemma extract_countries_normalised author_el :
  Forall normalised (extract_countries author_el).
Proof.
  apply List.Forall_forall. intros x Hx. unfold extract_countries in Hx.
  apply truthy_values_in, in_map_iff in Hx as (country_el & Hx & _).
  eapply normalize_whitespace_normalised, Hx.
Qed.

Lemma parse_grobid_author_trimmed author_el name :
  parse_grobid_author author_el = Some name -> trimmed name.
Proof.
  unfold parse_grobid_author.
  destruct (Py.truthy (Py.strip _)) eqn:E; [|discriminate].
  intros [= <-]. apply strip_trimmed, E.
Qed.

Lemma author_loop_clean els acc :
  Forall trimmed (al_authors acc) ->
  Forall normalised (al_affiliations acc) ->
  Forall normalised (al_countries acc) ->
  Forall trimmed (al_authors (author_loop els acc))
  /\ Forall normalised (al_affiliations (author_loop els acc))
  /\ Forall normalised (al_countries (author_loop els acc)).
Proof.
  revert acc. induction els as [|author_el els IH]; intros acc Ha Hf Hc;
    cbn [author_loop]; [auto|].
  apply IH; cbn [al_authors al_affiliations al_countries].
  - destruct (parse_grobid_author author_el) as [name|] eqn:E; [|exact Ha].
    apply List.Forall_app. split; [exact Ha|]. constructor; [|constructor].
    eapply parse_grobid_author_trimmed, E.
  - apply List.Forall_app. split; [exact Hf|].
    apply extract_affiliations_normalised.
  - apply List.Forall_app. split; [exact Hc|].
    apply extract_countries_normalised.
Qed.

Lemma collect_authors_clean root :
  Forall trimmed (al_authors (collect_authors root))
  /\ Forall normalised (al_affiliations (collect_authors root))
  /\ Forall normalised (al_countries (collect_authors root)).
Proof.
  unfold collect_authors.
  set (acc := author_loop _ (AuthorLists [] [] [])).
  assert (Hacc : Forall trimmed (al_authors acc)
                 /\ Forall normalised (al_affiliations acc)
                 /\ Forall normalised (al_countries acc))
    by (apply author_loop_clean; constructor).
  destruct (al_authors acc) eqn:E; [|rewrite E; exact Hacc].
  destruct Hacc as (Ha & Hf & Hc).
  apply author_loop_clean; [rewrite E; constructor | assumption | assumption].
Qed.

Lemma sorted_set_Forall (P : str -> Prop) l :
  Forall P l -> Forall P (sorted_set l).
Proof.
  rewrite !List.Forall_forall. intros H x Hx.
  apply H, (proj2 (sorted_set_spec l)), Hx.
Qed.

Lemma collect_keywords_trimmed root : Forall trimmed (collect_keywords root).
Proof.
  apply List.Forall_forall. intros x Hx. unfold collect_keywords in Hx.
  apply in_flat_map in Hx as (term & _ & Hx).
  destruct (Py.otruthy (ET.text term)); [|destruct Hx]. cbn [andb] in Hx.
  destruct (Py.truthy (Py.strip _)) eqn:E; [|destruct Hx].
  destruct Hx as [<-|[]]. apply strip_trimmed, E.
Qed.

Lemma eqs_eq a b : Py.eqs a b = true -> a = b.
Proof.
  revert b. induction a as [|x a IH]; intros [|y b]; cbn [Py.eqs];
    try discriminate; [reflexivity|].
  rewrite andb_true_iff. unfold Py.eqc. rewrite Ascii.eqb_eq.
  intros [-> H]. f_equal. apply IH, H.
Qed.

Lemma word_normalised w :
  w <> [] -> Forall (fun c => Py.isspace c = false) w -> normalised w.
Proof.
  intros Hne Hw. split; [split; [exact Hne|]|apply single_spaced_free, Hw].
  apply strip_id.
  - intros c s' ->. inversion Hw; assumption.
  - intros c s' ->. apply List.Forall_app in Hw as [_ Hw].
    inversion Hw; assumption.
Qed.

Lemma document_types_normalised : Forall normalised document_types.
Proof.
  unfold document_types.
  repeat (constructor;
          [apply word_normalised;
           [discriminate | repeat (constructor; [reflexivity|]); constructor]|]).
  constructor.
Qed.

Lemma first_class_code_normalised codes s :
  first_class_code codes = Some (Some s) -> normalised s.
Proof.
  induction codes as [|class_code codes IH]; cbn [first_class_code];
    [discriminate|].
  destruct (Py.otruthy _); [|exact IH].
  intros [= H]. eapply normalize_whitespace_normalised, H.
Qed.

Lemma first_type_term_normalised terms s :
  first_type_term terms = Some s -> normalised s.
Proof.
  induction terms as [|term terms IH]; cbn [first_type_term]; [discriminate|].
  destruct (_ && _); [|exact IH].
  destruct (existsb _ document_types) eqn:E; [|exact IH].
  intros [= <-]. apply existsb_exists in E as (x & Hx & E).
  apply eqs_eq in E. rewrite E.
  pose proof document_types_normalised as H.
  rewrite List.Forall_forall in H. apply H, Hx.
Qed.

Lemma extract_document_type_normalised root s :
  extract_document_type root = Some s -> normalised s.
Proof.
  unfold extract_document_type.
  destruct (Py.otruthy _); [apply normalize_whitespace_normalised|].
  destruct (first_class_code _) as [[r|]|] eqn:E.
  - intros [= <-]. eapply first_class_code_normalised, E.
  - discriminate.
  - apply first_type_term_normalised.
Qed.

Lemma split_keywords_parts line part :
  In part (split_keywords line) -> trimmed part.
Proof.
  unfold split_keywords. intros H.
  apply List.filter_In in H as [H Ht].
  apply List.in_map_iff in H as (x & <- & _). apply strip_trimmed, Ht.
Qed.

Lemma extract_keywords_trimmed text keywords :
  extract_keywords text = Ok keywords -> Forall trimmed keywords.
Proof.
  unfold extract_keywords.
  destruct (Re.search keywords_re text) as [m|];
    [|intros [= <-]; constructor].
  destruct (Py.splitlines _) as [|line rest]; [discriminate|].
  intros [= <-]. apply List.Forall_forall. apply split_keywords_parts.
Qed.

Lemma split_authors_trimmed line : Forall trimmed (split_authors line).
Proof.
  apply List.Forall_forall. intros part H.
  apply split_authors_parts in H. exact H.
Qed.

Lemma labelled_authors_trimmed lines authors :
  labelled_authors lines = Some authors -> Forall trimmed authors.
Proof.
  induction lines as [|line lines IH]; cbn [labelled_authors]; [discriminate|].
  destruct (Re.search authors_re line) as [m|]; [|exact IH].
  intros [= <-]. apply split_authors_trimmed.
Qed.

Lemma extract_authors_trimmed lines : Forall trimmed (extract_authors lines).
Proof.
  unfold extract_authors.
  destruct (labelled_authors _) as [authors|] eqn:E;
    [eapply labelled_authors_trimmed, E|].
  destruct (lines !! 1%nat) as [second|]; [|constructor].
  destruct (_ <=? _)%nat; [apply split_authors_trimmed | constructor].
Qed.

Lemma extract_abstract_normalised text s :
  extract_abstract text = Some s -> normalised s.
Proof.
  unfold extract_abstract. destruct (Re.search abstract_re text); [|discriminate].
  apply normalize_whitespace_normalised.
Qed.

Lemma grobid_record_text_fields root m :
  grobid_record root = Ok m ->
  m !! "abstract"
  = Some (of_opt_str
            (element_text
               (ET.find root [ET.Desc (tei "profileDesc");
                              ET.Child (tei "abstract")])))
  /\ m !! "document_type" = Some (of_opt_str (extract_document_type root)).
Proof.
  unfold grobid_record. destruct (extract_dates root); [|discriminate].
  cbn [bind]. intros [= <-]. split; reflexivity.
Qed.

Lemma extract_metadata_text_fields text m :
  extract_metadata text = Ok m ->
  exists authors,
    Forall trimmed authors
    /\ m !! "authors" = Some (list_or_none authors)
    /\ m !! "abstract" = Some (of_opt_str (extract_abstract text))
    /\ m !! "document_type" = Some VNone.
Proof.
  unfold extract_metadata. destruct (extract_keywords text); [|discriminate].
  cbn [bind]. intros [= <-]. eexists. split; [apply extract_authors_trimmed|].
  split; [reflexivity|]. split; reflexivity.
Qed.

End CleanFields.

(** X11. In the record handed to the writer, whichever extractor produced
    it: each of authors, keywords, affiliations and countries is absent or
    a list of strings that are not empty and carry no whitespace at either
    end; the affiliations and countries are moreover single-spaced; the
    abstract and the document type are absent or such a normalised
    string. *)
Theorem record_fields_clean fromstring use opened posted sel :
  process_document fromstring use opened posted = Ok sel ->
  (exists authors keywords affiliations countries,
     snd sel !! "authors" = Some (list_or_none authors)
     /\ snd sel !! "keywords" = Some (list_or_none keywords)
     /\ snd sel !! "affiliations" = Some (list_or_none affiliations)
     /\ snd sel !! "countries" = Some (list_or_none countries)
     /\ Forall trimmed authors /\ Forall trimmed keywords
     /\ Forall normalised affiliations /\ Forall normalised countries)
  /\ (exists abstract document_type,
        snd sel !! "abstract" = Some (of_opt_str abstract)
        /\ snd sel !! "document_type" = Some (of_opt_str document_type)
        /\ (forall s, abstract = Some s -> normalised s)
        /\ (forall s, document_type = Some s -> normalised s)).
Proof.
  intros H. apply process_document_inv in H as (text & m & _ & Hs & ->).
  rewrite !attach_snippet_frame by discriminate.
  apply select_metadata_inv in Hs as [(_ & _ & Hg)|(_ & Hh)].
  - apply extract_metadata_grobid_truthy in Hg
      as (_ & code & body & root & _ & _ & Hr).
    destruct (grobid_record_text_fields root m Hr) as (Hab & Hdt).
    apply grobid_record_inv in Hr
      as (y & d & _ & _ & _ & Hau & Haf & Hco & Hkw & _).
    destruct (collect_authors_clean root) as (Ca & Cf & Cc).
    split.
    + exists (al_authors (collect_authors root)), (collect_keywords root),
        (sorted_set (al_affiliations (collect_authors root))),
        (sorted_set (al_countries (collect_authors root))).
      do 4 (split; [assumption|]).
      split; [exact Ca|]. split; [apply collect_keywords_trimmed|].
      split; apply sorted_set_Forall; assumption.
    + eexists _, _. split; [exact Hab|]. split; [exact Hdt|].
      split; [apply element_text_normalised|].
      apply extract_document_type_normalised.
  - destruct (extract_metadata_text_fields text m Hh)
      as (authors & Ca & Hau & Hab & Hdt).
    apply extract_metadata_inv in Hh
      as (kw & Hk & _ & _ & _ & Haf & Hco & Hkw).
    split.
    + exists authors, kw, [], []. do 4 (split; [assumption|]).
      split; [exact Ca|]. split; [eapply extract_keywords_trimmed, Hk|].
      split; constructor.
    + exists (extract_abstract text), None.
      split; [exact Hab|]. split; [exact Hdt|].
      split; [apply extract_abstract_normalised | discriminate].
Qed.

Lemma record_fields_clean_witness :
  exists affiliations,
    snd (record_of (process_document (fun _ => Some affiliated_tei) true
                      (Raise PdfReadError) (Response 200 [])))
      !! "affiliations" = Some (list_or_none affiliations)
    /\ Forall normalised affiliations.
Proof.
  destruct (record_fields_clean (fun _ => Some affiliated_tei) true
              (Raise PdfReadError) (Response 200 [])
              (record_of (process_document (fun _ => Some affiliated_tei) true
                            (Raise PdfReadError) (Response 200 [])))
              eq_refl)
    as ((authors & keywords & affiliations & countries & _ & _ & Haf & _ & _ & _
         & Hn & _) & _).
  exists affiliations. split; [exact Haf | exact Hn].
Defined.

(* ================================================================== *)
(** * Text without printing characters *)

Section BlankText.
Import Re.

Lemma lstrip_blank s : blank s -> Py.lstrip s = [].
Proof.
  unfold blank. induction s as [|c s IH]; [reflexivity|].
  cbn [forallb Py.lstrip]. intros H. apply andb_true_iff in H as [-> H]. auto.
Qed.

Lemma strip_blank s : blank s -> Py.strip s = [].
Proof. intros H. unfold Py.strip. rewrite lstrip_blank by exact H. reflexivity. Qed.

Lemma blank_drop n s : blank s -> blank (drop n s).
Proof.
  unfold blank. revert n. induction s as [|c s IH]; intros [|n] H;
    try exact H; try reflexivity.
  cbn [forallb] in H. apply andb_true_iff in H as [_ H]. apply IH, H.
Qed.

Lemma blank_take n s : blank s -> blank (take n s).
Proof.
  unfold blank. revert n. induction s as [|c s IH]; intros [|n] H;
    try reflexivity.
  cbn [forallb] in H. apply andb_true_iff in H as [Hc H].
  cbn [take forallb]. rewrite Hc. apply IH, H.
Qed.

Lemma splitlines_go_blank cur s line :
  blank cur -> blank s -> In line (Py.splitlines_go cur s) -> blank line.
Proof.
  assert (Hrev : forall l, blank l -> blank (rev l)).
  { unfold blank. intros l Hl. rewrite forallb_forall in *.
    intros x Hx. apply Hl, in_rev, Hx. }
  remember (length s) as n eqn:Hn. revert cur s Hn.
  induction n as [n IH] using lt_wf_ind. intros cur s -> Hcur Hs.
  destruct s as [|c s]; cbn [Py.splitlines_go].
  - destruct (Py.truthy cur); [|intros []].
    intros [<-|[]]. apply Hrev, Hcur.
  - assert (Hc : Py.isspace c = true /\ blank s)
      by (unfold blank in Hs; cbn [forallb] in Hs;
          apply andb_true_iff in Hs; exact Hs).
    destruct Hc as [Hc Hs'].
    assert (Hnext : In line (rev cur :: Py.splitlines_go [] s) -> blank line).
    { intros [<-|H]; [apply Hrev, Hcur|].
      exact (IH (length s) ltac:(simpl; lia) [] s eq_refl eq_refl Hs' H). }
    destruct (Py.eqc c "013").
    + destruct s as [|d s'']; [exact Hnext|].
      destruct (Py.eqc d "010"); [|exact Hnext].
      intros [<-|H]; [apply Hrev, Hcur|].
      unfold blank in Hs'. cbn [forallb] in Hs'.
      apply andb_true_iff in Hs' as [_ Hs'].
      exact (IH (length s'') ltac:(simpl; lia) [] s'' eq_refl eq_refl Hs' H).
    + destruct (Py.islinebreak c); [exact Hnext|].
      intros H.
      refine (IH (length s) ltac:(simpl; lia) (c :: cur) s eq_refl _ Hs' H).
      unfold blank. cbn [forallb]. rewrite Hc. exact Hcur.
Qed.

Lemma lines_of_blank text :
  blank text ->
  List.filter (fun line => Py.truthy (Py.strip line)) (Py.splitlines text) = [].
Proof.
  intros Ht.
  assert (H : forall line, In line (Py.splitlines text) -> blank line)
    by (intros line; apply splitlines_go_blank; [reflexivity | exact Ht]).
  induction (Py.splitlines text) as [|l ls IH]; [reflexivity|].
  cbn [List.filter]. rewrite strip_blank by (apply H; left; reflexivity).
  cbn [Py.truthy]. apply IH. intros line Hl. apply H. right. exact Hl.
Qed.

Lemma extract_year_blank text : blank text -> extract_year text = None.
Proof. intros H. apply extract_year_none, year_word_from_spaces, H. Qed.

Lemma matches_alt_inv r1 r2 st st' :
  matches (Alt r1 r2) st st' -> matches r1 st st' \/ matches r2 st st'.
Proof. intros H. inversion H; subst; auto. Qed.

(** A letter of a label is no whitespace, in either case. *)
Lemma isi_letter_not_space x c :
  In x ["K"; "I"; "A"]%char -> isi x c = true -> Py.isspace c = false.
Proof.
  intros [<-|[<-|[<-|[]]]];
    destruct c as [[] [] [] [] [] [] [] []]; vm_compute; congruence.
Qed.

Lemma aligned_head_blank text st c s :
  blank text -> aligned text st -> rest st = c :: s -> Py.isspace c = true.
Proof.
  intros Ht Ha Hr. unfold aligned in Ha. rewrite Hr in Ha.
  pose proof (blank_drop (pos st) text Ht) as Hd. rewrite <- Ha in Hd.
  unfold blank in Hd. cbn [forallb] in Hd.
  apply andb_true_iff in Hd as [Hc _]. exact Hc.
Qed.

Lemma matches_label_head x label r st st' text :
  In x ["K"; "I"; "A"]%char ->
  matches (Seq (Seq (Chr (isi x)) label) r) st st' ->
  blank text -> aligned text st -> False.
Proof.
  intros Hx H Ht Ha.
  apply matches_seq_inv in H as (s1 & H & _).
  apply matches_seq_inv in H as (s2 & H & _).
  apply matches_chr_inv in H as (c & Hr & Hc).
  apply (isi_letter_not_space x c Hx) in Hc.
  rewrite (aligned_head_blank text st c (rest s2) Ht Ha Hr) in Hc.
  discriminate.
Qed.

Lemma search_keywords_blank text : blank text -> search keywords_re text = None.
Proof.
  intros Ht. destruct (search keywords_re text) as [m|] eqn:E; [|reflexivity].
  exfalso.
  apply search_from_sound in E as (st & st' & Ha & Hm & _); [|reflexivity].
  change keywords_re with (Seq
    (Alt (Seq (Seq (Chr (isi "K")) (liti "eyword")) (opt (Chr (isi "s"))))
         (Seq (Seq (Chr (isi "I")) (liti "ndex Term")) (opt (Chr (isi "s")))))
    (seqs label_tail)) in Hm.
  apply matches_seq_inv in Hm as (s1 & Hm & _).
  apply matches_alt_inv in Hm as [Hm|Hm].
  - eapply (matches_label_head "K"); [| exact Hm | exact Ht | exact Ha].
    left. reflexivity.
  - eapply (matches_label_head "I"); [| exact Hm | exact Ht | exact Ha].
    right. left. reflexivity.
Qed.

Lemma search_abstract_blank text : blank text -> search abstract_re text = None.
Proof.
  intros Ht. destruct (search abstract_re text) as [m|] eqn:E; [|reflexivity].
  exfalso.
  apply search_from_sound in E as (st & st' & Ha & Hm & _); [|reflexivity].
  unfold abstract_re in Hm. cbn [seqs] in Hm.
  apply matches_seq_inv in Hm as (s1 & Hb & Hm).
  apply matches_wordb_inv in Hb. subst s1.
  change (liti "Abstract") with (Seq (Chr (isi "A")) (liti "bstract")) in Hm.
  eapply (matches_label_head "A"); [| exact Hm | exact Ht | exact Ha].
  right. right. left. reflexivity.
Qed.

Lemma snippet_blank text :
  blank text -> snippet text = if Py.truthy text then Some [] else None.
Proof.
  intros Ht. unfold snippet. destruct (Py.truthy text); [|reflexivity].
  rewrite strip_blank by (apply blank_take, Ht). reflexivity.
Qed.

Lemma extract_metadata_blank text :
  blank text ->
  exists m,
    extract_metadata text = Ok m
    /\ forall k, k ∈ insert_columns -> k <> "raw_text_snippet" ->
         m !! k = Some VNone.
Proof.
  intros Ht. unfold extract_metadata.
  rewrite lines_of_blank by exact Ht.
  unfold extract_keywords, extract_abstract.
  rewrite search_keywords_blank, search_abstract_blank, extract_year_blank
    by exact Ht.
  cbn [bind map extract_title]. eexists. split; [reflexivity|].
  intros k Hk Hne. unfold insert_columns in Hk.
  repeat (apply elem_of_cons in Hk as [->|Hk]; [try reflexivity|]);
    [congruence|].
  apply elem_of_nil in Hk. destruct Hk.
Qed.

End BlankText.

(** X12. A document whose extracted text has no printing character (an
    empty text, as a scanned file gives, or whitespace only), processed
    without a result of the service, is handed to the writer with the
    heuristic record in which every metadata field is absent; the snippet
    is absent for the empty text and the empty string otherwise. *)
Theorem blank_text_gives_absent_record fromstring use opened posted text :
  extract_text_from_pdf opened 2 = Ok text ->
  blank text ->
  use = false \/ no_result fromstring posted ->
  exists m,
    process_document fromstring use opened posted = Ok (Heuristic, m)
    /\ (forall k, k ∈ insert_columns -> k <> "raw_text_snippet" ->
          m !! k = Some VNone)
    /\ m !! "raw_text_snippet"
       = Some (if Py.truthy text then VStr [] else VNone).
Proof.
  intros Hx Ht Hsrc.
  destruct (extract_metadata_blank text Ht) as (m & Hm & Hk).
  exists (attach_snippet text m).
  assert (Hsel : select_metadata fromstring use text posted = Ok (Heuristic, m)).
  { destruct Hsrc as [->|Hn].
    - rewrite select_metadata_heuristic, Hm. reflexivity.
    - destruct use; [|rewrite select_metadata_heuristic, Hm; reflexivity].
      destruct (extract_metadata_grobid fromstring posted) as [r|e] eqn:Eg.
      + rewrite (select_metadata_structured fromstring text posted r Eg).
        apply (extract_metadata_grobid_none fromstring posted r Eg) in Hn.
        subst r. rewrite Hm. reflexivity.
      + exfalso. unfold extract_metadata_grobid, no_result in *.
        destruct posted as [code body|e'].
        * destruct Hn as [Hn|Hn]; rewrite Hn in Eg; [discriminate|].
          destruct (raises_for_status code); discriminate.
        * rewrite Hn in Eg. discriminate. }
  split; [|split].
  - unfold process_document. rewrite Hx. cbn [bind]. rewrite Hsel. reflexivity.
  - intros k Hin Hne. rewrite attach_snippet_frame by exact Hne. auto.
  - rewrite attach_snippet_lookup.
    destruct (Py.truthy text); [|reflexivity].
    rewrite strip_blank by (apply blank_take, Ht). reflexivity.
Qed.

Lemma blank_text_gives_absent_record_witness :
  exists m,
    process_document (fun _ => None) false blank_pdf
      (HttpRaises RequestException) = Ok (Heuristic, m)
    /\ m !! "title" = Some VNone
    /\ m !! "raw_text_snippet" = Some (VStr []).
Proof.
  destruct (blank_text_gives_absent_record (fun _ => None) false blank_pdf
              (HttpRaises RequestException) (py " ") eq_refl eq_refl
              (or_introl eq_refl))
    as (m & Hp & Hk & Hs).
  exists m. split; [exact Hp|]. split; [|exact Hs].
  apply Hk; [|discriminate]. unfold insert_columns. apply elem_of_cons. auto.
Defined.

(* ================================================================== *)
(** * The service switched off, the first year, the keyword split *)

Section ServiceOff.

Lemma process_document_service_off fromstring fromstring' opened posted posted' :
  process_document fromstring false opened posted
  = process_document fromstring' false opened posted'.
Proof. reflexivity. Qed.

Lemma process_files_service_off fromstring fromstring' executes dry_run now
    pdf_files pdf_files' conn processed :
  same_files pdf_files pdf_files' ->
  process_files fromstring executes false dry_run now pdf_files conn processed
  = process_files fromstring' executes false dry_run now pdf_files' conn
      processed.
Proof.
  intros H. revert conn processed.
  induction H as [|f g l l' [Hpath Hopen] _ IH]; intros conn processed;
    [reflexivity|].
  cbn [process_files].
  rewrite (process_document_service_off fromstring fromstring'
             (pdf_opened f) (pdf_posted f) (pdf_posted g)).
  rewrite Hpath, Hopen.
  destruct (process_document _ _ _ _) as [sel|e]; [|reflexivity].
  destruct dry_run; [apply IH|].
  destruct conn as [t|]; [|reflexivity].
  destruct (upsert_paper _ _ _ _ _); [reflexivity | apply IH].
Qed.

End ServiceOff.

(** X13. With the service switched off by the flag or found unavailable by
    the probe, the run does not depend on the service: two lists of files
    with the same paths and contents give the same outcome whatever the
    upload would answer and whatever the parser would make of it. *)
Theorem service_off_ignores_service fromstring fromstring' executes no_grobid
    dry_run probe connect commits now pdf_files pdf_files' :
  use_grobid no_grobid probe = Ok false ->
  same_files pdf_files pdf_files' ->
  main fromstring executes no_grobid dry_run probe connect commits now
    pdf_files
  = main fromstring' executes no_grobid dry_run probe connect commits now
      pdf_files'.
Proof.
  intros Hu Hs. unfold main. rewrite Hu.
  destruct Hs as [|f g l l' Hfg Hs]; [reflexivity|].
  destruct (if negb dry_run then _ else _) as [conn|e]; [|reflexivity].
  rewrite (process_files_service_off fromstring fromstring' executes dry_run
             now (f :: l) (g :: l') conn 0%nat) by (constructor; assumption).
  reflexivity.
Qed.

Lemma service_off_ignores_service_witness :
  main (fun _ => None) (fun _ => Written) true false (HttpRaises OSError)
    (Ok ∅) None 7 one_file_batch
  = main (fun _ => Some affiliated_tei) (fun _ => Written) true false
      (HttpRaises OSError) (Ok ∅) None 7 answered_batch.
Proof.
  apply (service_off_ignores_service (fun _ => None)
           (fun _ => Some affiliated_tei) (fun _ => Written) true false
           (HttpRaises OSError) (Ok ∅) None 7 one_file_batch answered_batch).
  - reflexivity.
  - repeat constructor.
Defined.

Section FirstYear.
Import Re.

Lemma year_at_head_token whole pv ps a b c d post :
  is_word_opt pv = false ->
  year_start [a; b; c; d] = true ->
  is_word_opt (head post) = false ->
  search_from year_re whole pv ps ([a; b; c; d] ++ post)
  = Some (MatchObj whole ps (4 + ps) None).
Proof.
  intros Hpv Hy Hpost.
  pose proof (year_start_chars _ _ _ _ _ Hy) as (_ & _ & _ & Hd).
  rewrite year_re_headed. cbn [app]. rewrite search_from_cons.
  rewrite year_headed_eq by (assumption || apply year_start_tail, Hy).
  cbn [rmatch]. unfold at_boundary. cbn [prev rest].
  change (is_word_opt (Some d)) with (Py.isword d).
  rewrite (isdigit_isword d Hd), Hpost. reflexivity.
Qed.

End FirstYear.

(** X14. [extract_year] returns the first year that stands as a word: for a
    text that begins with a part showing no year and not ending in a word
    character, then four digits of the form 19xx or 20xx, then a part that
    does not begin with a word character, the result is that year. *)
Theorem extract_year_first_year pre a b c d post :
  opens_token pre ->
  year_start [a; b; c; d] = true ->
  Re.is_word_opt (head post) = false ->
  extract_year (pre ++ [a; b; c; d] ++ post) = Some (Py.int [a; b; c; d]).
Proof.
  intros Hpre Hy Hpost. unfold extract_year.
  rewrite year_re_headed.
  destruct (search_opens_token Re.WordB pre ([a; b; c; d] ++ post) Hpre)
    as (pv & Hpv & ->).
  rewrite <- year_re_headed, year_at_head_token by assumption.
  unfold Re.group0. cbn [Re.subject Re.m_start Re.m_end].
  rewrite span_token by reflexivity. reflexivity.
Qed.

Lemma extract_year_first_year_witness :
  extract_year (py "(c) 2019-2021 Elsevier") = Some 2019.
Proof.
  exact (extract_year_first_year (py "(c) ") "2" "0" "1" "9" (py "-2021 Elsevier")
           (conj eq_refl eq_refl) eq_refl eq_refl)%char.
Defined.

Section KeywordSplit.

Lemma split_semicolons s :
  Py.split_char "," (Py.replace (py ";") (py ",") s)
  = Py.fields comma_or_semicolon s.
Proof.
  induction s as [|c s IH]; [reflexivity|].
  rewrite replace_semicolon_cons. unfold Py.split_char in *.
  cbn [Py.fields]. unfold comma_or_semicolon at 1.
  rewrite (eqc_sym c ","), (eqc_sym c ";").
  destruct (Py.eqc ";" c) eqn:Esemi.
  - change (Py.eqc "," ",") with true. cbv iota.
    rewrite orb_true_r, IH. reflexivity.
  - rewrite orb_false_r. destruct (Py.eqc "," c); rewrite IH; reflexivity.
Qed.

Lemma strip_incl s c : In c (Py.strip s) -> In c s.
Proof.
  unfold Py.strip. intros H.
  destruct (rstrip_prefix (Py.lstrip s)) as [b Hb].
  destruct (lstrip_suffix s) as [a Ha].
  rewrite Ha, Hb. apply in_or_app. right. apply in_or_app. left. exact H.
Qed.

Lemma split_keywords_eq line :
  split_keywords line
  = List.filter Py.truthy (map Py.strip (Py.fields comma_or_semicolon line)).
Proof. unfold split_keywords. rewrite split_semicolons. reflexivity. Qed.

Lemma split_keywords_separator_free line part :
  In part (split_keywords line) ->
  Forall (fun c => comma_or_semicolon c = false) part.
Proof.
  rewrite split_keywords_eq. intros H.
  apply List.filter_In in H as [H _].
  apply List.in_map_iff in H as (x & <- & Hx).
  pose proof (fields_sep_free comma_or_semicolon line) as HF.
  rewrite List.Forall_forall in HF. specialize (HF x Hx).
  rewrite List.Forall_forall in *. intros c Hc. apply HF, strip_incl, Hc.
Qed.

End KeywordSplit.

(** X15. [split_keywords] cuts the line at every comma and every semicolon,
    trims the pieces and drops the empty ones; so each keyword is not
    empty, has no whitespace at either end and holds neither a comma nor a
    semicolon. *)
Theorem split_keywords_fields line :
  split_keywords line
  = List.filter Py.truthy (map Py.strip (Py.fields comma_or_semicolon line))
  /\ forall part, In part (split_keywords line) ->
       part <> [] /\ Py.strip part = part
       /\ Forall (fun c => comma_or_semicolon c = false) part.
Proof.
  split; [apply split_keywords_eq|]. intros part H.
  split; [|split].
  - unfold split_keywords in H. apply List.filter_In in H as [_ Ht].
    intros E. rewrite E in Ht. discriminate.
  - unfold split_keywords in H. apply List.filter_In in H as [H _].
    apply List.in_map_iff in H as (x & <- & _). apply strip_idempotent.
  - eapply split_keywords_separator_free, H.
Qed.

(* ================================================================== *)
(** * The lines of the text: title and keywords; the dry run *)

Section Lines.
















End Lines.



Section DryRun.
Variable fromstring : str -> option ET.Element.

Lemma process_files_dry_run_calls executes executes' use now now' pdf_files
    conn processed :
  process_files fromstring executes use true now pdf_files conn processed
  = process_files fromstring executes' use true now' pdf_files conn processed.
Proof.
  revert processed. induction pdf_files as [|pdf pdf_files IH];
    intros processed; [reflexivity|].
  cbn [process_files].
  destruct (process_document _ _ _ _); [apply IH | reflexivity].
Qed.

End DryRun.

(** X17. A dry run does not depend on the database or on the time: its
    outcome is the same whatever opening the connection, the writes and the
    commit would give, an exception included. *)
Theorem dry_run_ignores_database fromstring executes executes' no_grobid probe
    connect connect' commits commits' now now' pdf_files :
  main fromstring executes no_grobid true probe connect commits now pdf_files
  = main fromstring executes' no_grobid true probe connect' commits' now'
      pdf_files.
Proof.
  unfold main. destruct pdf_files as [|pdf pdf_files]; [reflexivity|].
  cbn [negb]. destruct (use_grobid no_grobid probe) as [use|e]; [|reflexivity].
  rewrite (process_files_dry_run_calls fromstring executes executes' use now
             now').
  destruct (process_files fromstring executes' use true now' (pdf :: pdf_files)
              None 0) as [err|[conn' n]] eqn:E; [reflexivity|].
  rewrite (process_files_dry_run fromstring executes' use now' _ None 0 conn' n E).
  reflexivity.
Qed.

Lemma when_attribute_year_never_taken_witness :
  extract_year (py "in press") = None.
Proof.
  exact (proj1 (proj2 when_attribute_year_never_taken)
           (tei_el "date" {[ "when" := py "in press" ]} None [])
           eq_refl eq_refl).
Defined.

Lemma split_keywords_fields_witness :
  split_keywords (py "deep learning; NLP, ,parsing ")
  = [py "deep learning"; py "NLP"; py "parsing"]
  /\ Forall (fun c => comma_or_semicolon c = false) (py "NLP").
Proof.
  split; [reflexivity|].
  exact (proj2 (proj2 (proj2 (split_keywords_fields
                                (py "deep learning; NLP, ,parsing "))
                         (py "NLP") (or_intror (or_introl eq_refl))))).
Defined.

